(** * VeloBert: the training and evaluation loop of [velobert/train.py]

    A shallow embedding of the masked regression loss, the feature fusion
    head, the epoch runner, the checkpoint selector and the fold
    orchestrator, with the properties of the specification proved or
    refuted on it.

    Numbers.  Finite floating-point values are idealised as exact rationals
    ([Qc], canonical so that equality is Leibniz equality); the one
    non-finite value the control flow has to cope with, NaN, is kept as a
    separate constructor of [num].  Rounding and overflow are not
    modelled: a tensor holds rationals only, so what is proved of the loss
    and of the head is proved of their exact arithmetic. *)

From Stdlib Require Import QArith Qcanon ZArith List Lia Ascii String.
From stdpp Require Import base option list numbers strings pretty gmap.

Local Open Scope Qc_scope.

(** ** Python exceptions as an error monad *)

Inductive exn : Type :=
  | ZeroDivisionError
  | ValueError
  | TypeError
  | RuntimeError.

Inductive res (A : Type) : Type :=
  | Ok (a : A)
  | Raise (e : exn).
Arguments Ok {A} a.
Arguments Raise {A} e.

Definition bind {A B : Type} (m : res A) (k : A -> res B) : res B :=
  match m with
  | Ok a => k a
  | Raise e => Raise e
  end.

Notation "'do' x <- m ; k" := (bind m (fun x => k))
  (at level 10, x pattern, m at level 100, k at level 200).

Definition is_ok {A : Type} (m : res A) : bool :=
  match m with Ok _ => true | Raise _ => false end.

(** A [for] loop that threads a state and stops at the first exception. *)
Fixpoint foldM {S A : Type} (f : S -> A -> res S) (s : S) (l : list A) : res S :=
  match l with
  | [] => Ok s
  | a :: l' => do s' <- f s a; foldM f s' l'
  end.

Fixpoint mapM {A B : Type} (f : A -> res B) (l : list A) : res (list B) :=
  match l with
  | [] => Ok []
  | a :: l' =>
      do b <- f a;
      do r <- mapM f l';
      Ok (b :: r)
  end.

(** ** Floating-point scalars: a finite value or NaN *)

Inductive num : Type :=
  | Fin (q : Qc)
  | NaN.

#[global]
Instance num_eq_dec : EqDecision num.
Proof. solve_decision. Defined.

Definition is_nan (x : num) : bool :=
  match x with NaN => true | Fin _ => false end.

Definition Qc_ltb (a b : Qc) : bool := bool_decide (a < b).

(** Python's [<] and [>] on floats: any comparison with NaN is [False]. *)
Definition num_lt (x y : num) : bool :=
  match x, y with
  | Fin a, Fin b => Qc_ltb a b
  | _, _ => false
  end.

Definition num_gt (x y : num) : bool := num_lt y x.

Definition num_add (x y : num) : num :=
  match x, y with
  | Fin a, Fin b => Fin (a + b)
  | _, _ => NaN
  end.

Definition Qc_of_nat (n : nat) : Qc := Qc_of_Z (Z.of_nat n).

(** Python's [sum(l)]: a left fold of [+] from 0. *)
Definition py_sum (l : list num) : num := fold_left num_add l (Fin 0).

(** [sum(l) / len(l)]: the division by a zero length raises. *)
Definition py_mean (l : list num) : res num :=
  match l with
  | [] => Raise ZeroDivisionError
  | _ =>
      match py_sum l with
      | Fin s => Ok (Fin (s / Qc_of_nat (length l)))
      | NaN => Ok NaN
      end
  end.

(** ** Tensors *)

Module Tensor.

(** A tensor of shape (B, N) and one of shape (B, N, F), row major. *)
Definition tensor2 : Type := list (list Qc).
Definition tensor3 : Type := list (list (list Qc)).

(** Elementwise combination of two lists of one length; torch raises a
    [RuntimeError] on shapes that do not agree.  (Broadcasting between
    different but compatible shapes is outside this model.) *)
Fixpoint map2_strict {A B C : Type} (f : A -> B -> res C)
    (l1 : list A) (l2 : list B) : res (list C) :=
  match l1, l2 with
  | [], [] => Ok []
  | a :: l1', b :: l2' =>
      do c <- f a b;
      do r <- map2_strict f l1' l2';
      Ok (c :: r)
  | _, _ => Raise RuntimeError
  end.

Definition ew2 (f : Qc -> Qc -> Qc) (s t : tensor2) : res tensor2 :=
  map2_strict (map2_strict (fun a b => Ok (f a b))) s t.

Definition ones_like (t : tensor2) : tensor2 := map (map (fun _ => 1)) t.

Definition flatten (t : tensor2) : list Qc := concat t.

Definition numel (t : tensor2) : nat := length (flatten t).

Definition Qc_sum (l : list Qc) : Qc := fold_right Qcplus 0 l.

(** [t.mean()]: the sum of all entries over their number; NaN when the
    tensor has no entry. *)
Definition mean (t : tensor2) : num :=
  match numel t with
  | O => NaN
  | n => Fin (Qc_sum (flatten t) / Qc_of_nat n)
  end.

Definition same_shape (s t : tensor2) : Prop :=
  Forall2 (fun r1 r2 => length r1 = length r2) s t.

End Tensor.

(** ** The masked regression loss ([MaskedHuberLoss]) *)

Module Loss.
Import Tensor.

Definition Qc_abs (x : Qc) : Qc := if bool_decide (x < 0) then - x else x.

Definition half : Qc := Q2Qc (1 # 2).

(** The Huber loss of one residual with transition threshold [delta]:
    quadratic up to [delta], linear beyond. *)
Definition huber_elem (delta x y : Qc) : Qc :=
  let z := Qc_abs (x - y) in
  if bool_decide (z <= delta) then half * z * z
  else delta * (z - half * delta).

Inductive reduction : Type := RNone | RMean | RSum.

(** What [torch.nn.functional.huber_loss] returns: a tensor under
    reduction ['none'], a scalar otherwise. *)
Inductive loss_out : Type :=
  | OutTensor (t : tensor2)
  | OutScalar (x : num).

(** The library refuses a [delta] that is not positive with the same
    [RuntimeError] as shapes that do not agree. *)
Definition huber_loss (input target : tensor2) (red : reduction)
    (delta : Qc) : res loss_out :=
  if bool_decide (0 < delta) then
    do l <- ew2 (huber_elem delta) input target;
    Ok match red with
       | RNone => OutTensor l
       | RMean => OutScalar (mean l)
       | RSum => OutScalar (Fin (Qc_sum (flatten l)))
       end
  else Raise RuntimeError.

(** The object state of [nn.HuberLoss]; [nn.HuberLoss()] is built with
    reduction ['mean'] and [delta = 1.0]. *)
Record HuberLoss : Type := mkHuberLoss {
  hl_reduction : reduction;
  delta : Qc
}.

Definition HuberLoss_init : HuberLoss := mkHuberLoss RMean 1.

Definition HuberLoss_forward (self : HuberLoss) (input target : tensor2)
    : res loss_out :=
  huber_loss input target (hl_reduction self) (delta self).

(** [MaskedHuberLoss.forward]: returns the loss and the object, whose
    reduction it has set to ['none']. *)
Definition MaskedHuberLoss_forward (self : HuberLoss)
    (pred label valid_sequence : tensor2) : res (num * HuberLoss) :=
  let weights := ones_like label in
  do weights <- ew2 Qcmult weights valid_sequence;
  let self := mkHuberLoss RNone (delta self) in
  do unweighted_loss <- HuberLoss_forward self pred label;
  match unweighted_loss with
  | OutTensor u =>
      do w <- ew2 Qcmult u weights;
      Ok (mean w, self)
  | OutScalar _ => Raise RuntimeError
  end.

End Loss.

(** ** Configuration: the fields of [args] the loop reads *)

Record Args : Type := mkArgs {
  output_dir : string;
  data_dir : string;
  batch_size : Z;
  num_train_epochs : Z;
  learning_rate : Qc;
  lr_min : Qc;
  aa : bool;
  protein : bool;
  ss : bool;
  calm : bool;
  do_train : bool;
  do_eval : bool;
  use_additional_feature : bool
}.

(** [main], after parsing: [use_additional_feature] is on exactly when one
    of the three feature groups is. *)
Definition set_use_additional_feature (a : Args) : Args :=
  mkArgs (output_dir a) (data_dir a) (batch_size a) (num_train_epochs a)
         (learning_rate a) (lr_min a) (aa a) (protein a) (ss a) (calm a)
         (do_train a) (do_eval a)
         (if aa a || protein a || ss a then true else false).

(** ** The feature fusion head ([CodenBert]) *)

Module Head.
Import Tensor.

(** [nn.Linear(in_features, out_features)]: [weight] has one row per
    output feature. *)
Record Linear : Type := mkLinear {
  in_features : nat;
  out_features : nat;
  weight : list (list Qc);
  bias : list Qc
}.

Definition Linear_wf (L : Linear) : Prop :=
  length (weight L) = out_features L
  /\ Forall (fun w => length w = in_features L) (weight L)
  /\ length (bias L) = out_features L.

Definition dot (w x : list Qc) : Qc := Qc_sum (zip_with Qcmult w x).

(** One feature vector through the layer: [y_j = w_j . x + b_j]; a vector
    of the wrong width raises. *)
Definition Linear_row (L : Linear) (x : list Qc) : res (list Qc) :=
  if Nat.eqb (length x) (in_features L)
  then Ok (zip_with (fun w b => dot w x + b) (weight L) (bias L))
  else Raise RuntimeError.

(** The layer applied along the last axis of a (B, N, F) tensor. *)
Definition Linear_forward (L : Linear) (t : tensor3) : res tensor3 :=
  mapM (mapM (Linear_row L)) t.

Definition relu (x : Qc) : Qc := if bool_decide (0 < x) then x else 0.

Definition ReLU (t : tensor3) : tensor3 := map (map (map relu)) t.

(** [torch.cat([s, t], dim=-1)]: the feature vectors of each position
    joined; the batch and sequence axes must agree. *)
Definition cat2 (s t : tensor3) : res tensor3 :=
  map2_strict (map2_strict (fun a b => Ok (a ++ b))) s t.

(** [torch.cat(ts, dim=-1)]; an empty list of tensors raises. *)
Fixpoint cat_last (ts : list tensor3) : res tensor3 :=
  match ts with
  | [] => Raise RuntimeError
  | [t] => Ok t
  | t :: ts' => do r <- cat_last ts'; cat2 t r
  end.

(** One batch as the data loader yields it. *)
Record Batch : Type := mkBatch {
  input_ids : list (list Z);
  attention_mask : list (list Z);
  token_type_ids : list (list Z);
  density : tensor2;
  valid_sequence : tensor2;
  b_aa : tensor3;
  pro_feature : tensor3;
  b_ss : tensor3
}.

(** The block that [train_epoch] and [evaluate] both run on a batch to
    build [additional_features]. *)
Definition additional_features_of (args : Args) (batch : Batch)
    : res (option tensor3) :=
  if negb (use_additional_feature args) then Ok None
  else
    let features := [] in
    let features := if aa args then features ++ [b_aa batch] else features in
    let features :=
      if protein args then features ++ [pro_feature batch] else features in
    let features := if ss args then features ++ [b_ss batch] else features in
    do t <- cat_last features;
    Ok (Some t).

Section Model.
(** The pretrained encoder is external: its two variants are taken as
    functions from the token tensors to a (B, N, H) tensor. *)
Variable Encoder : Type.
Variable calm_representations : Encoder -> list (list Z) -> tensor3.
Variable bert_last_hidden :
  Encoder -> list (list Z) -> list (list Z) -> list (list Z) -> tensor3.

Record CodenBert : Type := mkCodenBert {
  bert : Encoder;
  m_args : Args;
  m_calm : bool;
  regressor : Linear;
  additional_feature_layer : Linear;
  down_project : Linear
}.

Definition encode (self : CodenBert) (ids mask tt : list (list Z)) : tensor3 :=
  if m_calm self then calm_representations (bert self) ids
  else bert_last_hidden (bert self) ids mask tt.

(** [CodenBert.forward].  With the features on, [None] in the place of
    the feature tensor cannot go through the linear layer. *)
Definition forward (self : CodenBert) (ids mask tt : list (list Z))
    (additional_features : option tensor3) : res tensor3 :=
  let sequence_output := encode self ids mask tt in
  do sequence_output <-
    (if use_additional_feature (m_args self) then
       match additional_features with
       | Some af =>
           do additional_features_output <-
             Linear_forward (additional_feature_layer self) af;
           do fused_output <-
             cat_last [sequence_output; additional_features_output];
           do fused_output <- Linear_forward (down_project self) fused_output;
           Ok (ReLU fused_output)
       | None => Raise TypeError
       end
     else Ok sequence_output);
  do prediction_scores <- Linear_forward (regressor self) sequence_output;
  Ok (ReLU prediction_scores).

(** [outputs.squeeze(-1)]: drops the last axis when it has size 1 and
    leaves the tensor alone otherwise; the callers go on with a
    (B, N) tensor, so any other width is an error further down. *)
Definition squeeze_last (t : tensor3) : res tensor2 :=
  mapM (mapM (fun v => match v with [x] => Ok x | _ => Raise RuntimeError end)) t.

End Model.
End Head.

(** ** Metric computation and the epoch runner *)

Definition metrics : Type := (num * num * num * num)%type.

Definition m_loss (m : metrics) : num := let '(l, _, _, _) := m in l.
Definition m_r2 (m : metrics) : num := let '(_, r, _, _) := m in r.
Definition m_mse (m : metrics) : num := let '(_, _, e, _) := m in e.
Definition m_corr (m : metrics) : num := let '(_, _, _, c) := m in c.

Module Epoch.
Import Tensor Loss Head.

(** [t[valid == 1]]: the entries at the positions whose indicator is 1,
    in row-major order; the mask must have the shape of [t]. *)
Definition masked_select (t valid : tensor2) : res (list Qc) :=
  do rows <- map2_strict
               (map2_strict
                  (fun x v => Ok (if bool_decide (v = 1) then [x] else [])))
               t valid;
  Ok (concat (map (@concat Qc) rows)).

Section Runner.
Variable Encoder : Type.
Variable calm_representations : Encoder -> list (list Z) -> tensor3.
Variable bert_last_hidden :
  Encoder -> list (list Z) -> list (list Z) -> list (list Z) -> tensor3.

(** The three library metrics ([sklearn.metrics.r2_score],
    [mean_squared_error], [scipy.stats.pearsonr(...)[0]]); each takes the
    targets first and may raise or return NaN. *)
Variable r2_score : list Qc -> list Qc -> res num.
Variable mean_squared_error : list Qc -> list Qc -> res num.
Variable pearsonr : list Qc -> list Qc -> res num.

(** The optimizer with the gradient step it takes on a batch
    ([zero_grad], [backward], [step]): external. *)
Variable Optimizer : Type.
Variable optimizer_step :
  CodenBert Encoder -> Optimizer -> Batch -> option tensor3 ->
  CodenBert Encoder * Optimizer.

Abbreviation Model := (CodenBert Encoder).
Abbreviation model_forward := (forward Encoder calm_representations bert_last_hidden).

Definition score_reg (pred label : list Qc) : res (num * num * num) :=
  do r2 <- r2_score label pred;
  do mse <- mean_squared_error label pred;
  do corr <- pearsonr label pred;
  Ok (r2, mse, corr).

(** The lists a pass appends to. *)
Record TrainAcc : Type := mkTrainAcc {
  loss_list : list num;
  r2_list : list num;
  mse_list : list num;
  corr_list : list num
}.

(** The forward pass and the loss on one batch, shared by both passes:
    returns the squeezed outputs and the loss. *)
Definition forward_loss (model : Model) (loss : HuberLoss) (args : Args)
    (batch : Batch) : res (option tensor3 * tensor2 * num * HuberLoss) :=
  do additional_features <- additional_features_of args batch;
  do outputs <- model_forward model (input_ids batch) (attention_mask batch)
                  (token_type_ids batch) additional_features;
  do outputs <- squeeze_last outputs;
  do (l, loss) <- MaskedHuberLoss_forward loss outputs (density batch)
                     (valid_sequence batch);
  Ok (additional_features, outputs, l, loss).

(** The body of the loop of [train_epoch] on one batch. *)
Definition train_batch (args : Args) (st : Model * Optimizer * HuberLoss * TrainAcc)
    (batch : Batch) : res (Model * Optimizer * HuberLoss * TrainAcc) :=
  let '(model, optimizer, loss, acc) := st in
  do (additional_features, outputs, tr_loss, loss) <-
    forward_loss model loss args batch;
  do y_pred <- masked_select outputs (valid_sequence batch);
  do y_true <- masked_select (density batch) (valid_sequence batch);
  do (r2, mse, corr) <- score_reg y_pred y_true;
  let '(model, optimizer) :=
    optimizer_step model optimizer batch additional_features in
  Ok (model, optimizer, loss,
      mkTrainAcc (loss_list acc ++ [tr_loss]) (r2_list acc ++ [r2])
                 (mse_list acc ++ [mse]) (corr_list acc ++ [corr])).

Definition train_epoch (model : Model) (train_loader : list Batch)
    (optimizer : Optimizer) (loss : HuberLoss) (args : Args)
    : res (Model * Optimizer * HuberLoss * metrics) :=
  do (model, optimizer, loss, acc) <-
    foldM (train_batch args) (model, optimizer, loss, mkTrainAcc [] [] [] [])
          train_loader;
  do avg_loss <- py_mean (loss_list acc);
  do r2 <- py_mean (r2_list acc);
  do mse <- py_mean (mse_list acc);
  do corr <- py_mean (corr_list acc);
  Ok (model, optimizer, loss, (avg_loss, r2, mse, corr)).

Record EvalAcc : Type := mkEvalAcc {
  e_loss_list : list num;
  trues : list Qc;
  preds : list Qc
}.

(** The body of the loop of [evaluate] on one batch. *)
Definition eval_batch (model : Model) (args : Args) (st : HuberLoss * EvalAcc)
    (batch : Batch) : res (HuberLoss * EvalAcc) :=
  let '(loss, acc) := st in
  do (_, outputs, eval_loss, loss) <- forward_loss model loss args batch;
  do y_pred <- masked_select outputs (valid_sequence batch);
  do y_true <- masked_select (density batch) (valid_sequence batch);
  Ok (loss, mkEvalAcc (e_loss_list acc ++ [eval_loss])
                      (trues acc ++ y_true) (preds acc ++ y_pred)).

(** [evaluate]; the last component tells whether the correlation plot of
    the fold was drawn. *)
Definition evaluate (model : Model) (eval_loader : list Batch)
    (loss : HuberLoss) (args : Args) (max_r2 : num)
    : res (HuberLoss * metrics * bool) :=
  do (loss, acc) <-
    foldM (eval_batch model args) (loss, mkEvalAcc [] [] []) eval_loader;
  do (r2, mse, corr) <- score_reg (preds acc) (trues acc);
  do avg_loss <- py_mean (e_loss_list acc);
  Ok (loss, (avg_loss, r2, mse, corr), num_gt r2 max_r2).

End Runner.
End Epoch.

(** ** Files, paths and the effects of a run *)

Inductive cell : Type :=
  | CInt (z : Z)
  | CNum (x : num).

Definition row : Type := list cell.

Definition metrics_row (epoch : Z) (m : metrics) : row :=
  let '(l, r2, mse, corr) := m in
  [CInt epoch; CNum l; CNum r2; CNum mse; CNum corr].

Fixpoint ends_with_slash (s : string) : bool :=
  match s with
  | EmptyString => false
  | String c EmptyString => bool_decide (c = "/"%char)
  | String _ s' => ends_with_slash s'
  end.

(** [os.path.join(a, b)] for a relative [b]. *)
Definition os_path_join (a b : string) : string :=
  match a with
  | EmptyString => b
  | _ => if ends_with_slash a then a +:+ b else a +:+ "/" +:+ b
  end.

(** What a run does to the outside, in the order it does it. *)
Inductive event : Type :=
  | EvLoadEncoder (calm : bool)
  | EvNewModel (fold : Z)
  | EvLoadData (train_file test_file : string)
  | EvNewOptimizer (lr : Qc)
  | EvNewScheduler (T_max : Z) (eta_min : Qc)
  | EvTrainEpoch (epoch : Z) (m : metrics)
  | EvSchedulerStep
  | EvEvaluate (epoch : Z) (m : metrics)
  | EvPlot (fold : Z)
  | EvSave (path : string)
  | EvCsvRow (path : string) (r : row).

(** The suffix that the three log paths and the summary path get, group by
    group. *)
Definition add_feature_suffix (args : Args) (path : string) : string :=
  let path := if aa args then path +:+ "_aa" else path in
  let path := if protein args then path +:+ "_protein" else path in
  let path := if ss args then path +:+ "_ss" else path in
  path.

(** ** The checkpoint selector ([train_and_validate]) *)

Module Selector.

Section Loop.
(** Everything the passes mutate (model, optimizer with its schedule,
    loss object, sampler) is one state [St]; the two passes and the
    schedule step are taken as given here and instantiated with the
    epoch runner by the orchestrator. *)
Variable St : Type.
Variable StateDict : Type.
Variable state_dict : St -> StateDict.
Variable train_epoch : St -> res (St * metrics).
Variable evaluate : St -> num -> res (St * metrics * bool).
Variable lr_scheduler_step : St -> St.

Record World : Type := mkWorld {
  files : gmap string (list row);
  checkpoints : gmap string StateDict;
  trace : list event
}.

Definition emit (w : World) (e : event) : World :=
  mkWorld (files w) (checkpoints w) (trace w ++ [e]).

(** [open(path, 'a')] then [writerow]: the row goes after what the file
    already holds. *)
Definition csv_append (w : World) (path : string) (r : row) : World :=
  mkWorld (<[path := default [] (files w !! path) ++ [r]]> (files w))
          (checkpoints w)
          (trace w ++ [EvCsvRow path r]).

Definition checkpoint_path (save_path name : string) : string :=
  os_path_join save_path ("pytorch_model_P" +:+ name +:+ ".pth").

(** [save]: the file of that tag is overwritten with the parameters. *)
Definition save (w : World) (model : St) (save_path name : string) : World :=
  let path := checkpoint_path save_path name in
  mkWorld (files w) (<[path := state_dict model]> (checkpoints w))
          (trace w ++ [EvSave path]).

Record Trackers : Type := mkTrackers {
  max_r2 : num;
  min_mse : num;
  max_corr : num;
  best_loss : num;
  best_eval_loss : num
}.

Definition sentinel : Qc := Qc_of_Z 100000000.

Definition init_trackers : Trackers :=
  mkTrackers (Fin (- sentinel)) (Fin sentinel) (Fin (- sentinel))
             (Fin sentinel) (Fin sentinel).

Definition epoch_val : option Z := Some 1%Z.

Definition log_path (args : Args) (stem : string) (epoch_max : Z) : string :=
  add_feature_suffix args
    (os_path_join (output_dir args) ("logs/" +:+ stem +:+ pretty epoch_max))
  +:+ ".csv".

Definition train_log_path (args : Args) (epoch_max : Z) : string :=
  log_path args "train_log_" epoch_max.

Definition eval_log_path (args : Args) (epoch_max : Z) : string :=
  log_path args "eval_log_" epoch_max.

(** The body of the epoch loop. *)
Definition epoch_body (args : Args) (epoch_max : Z) (save_path : string)
    (fold : Z) (st : St * World * Trackers) (epoch : Z)
    : res (St * World * Trackers) :=
  let '(model, w, tr) := st in
  do (model, m) <- train_epoch model;
  let '(train_loss, _, _, _) := m in
  let w := emit w (EvTrainEpoch epoch m) in
  let model := lr_scheduler_step model in
  let w := emit w EvSchedulerStep in
  let w := csv_append w (train_log_path args epoch_max) (metrics_row epoch m) in
  let w := save w model save_path "last" in
  let tr :=
    if num_lt train_loss (best_loss tr)
    then mkTrackers (max_r2 tr) (min_mse tr) (max_corr tr) train_loss
                    (best_eval_loss tr)
    else tr in
  match epoch_val with
  | Some v =>
      if (epoch mod v =? 0)%Z then
        do (model, em, plotted) <- evaluate model (max_r2 tr);
        let '(eval_loss, r2, mse, corr) := em in
        let w := if plotted then emit w (EvPlot fold) else w in
        let w := emit w (EvEvaluate epoch em) in
        let '(tr, w) :=
          if num_lt eval_loss (best_eval_loss tr)
          then (mkTrackers (max_r2 tr) (min_mse tr) (max_corr tr)
                           (best_loss tr) eval_loss,
                save w model save_path "best_eval_loss")
          else (tr, w) in
        let '(tr, w) :=
          if num_gt r2 (max_r2 tr)
          then (mkTrackers r2 mse corr (best_loss tr) (best_eval_loss tr),
                save w model save_path "best")
          else (tr, w) in
        let w := csv_append w (eval_log_path args epoch_max)
                   (metrics_row epoch em) in
        Ok (model, w, tr)
      else Ok (model, w, tr)
  | None => Ok (model, w, tr)
  end.

(** [range(1, num_epoch + 1)] *)
Definition epochs (num_epoch : Z) : list Z :=
  map (fun k => Z.of_nat k) (seq 1 (Z.to_nat num_epoch)).

Definition run_epochs (args : Args) (num_epoch : Z) (save_path : string)
    (fold : Z) (st : St * World * Trackers) (es : list Z)
    : res (St * World * Trackers) :=
  foldM (epoch_body args num_epoch save_path fold) st es.

Definition train_and_validate (model : St) (w : World) (num_epoch : Z)
    (save_path : string) (args : Args) (fold : Z)
    : res (St * World * (num * num * num)) :=
  do (model, w, tr) <-
    run_epochs args num_epoch save_path fold (model, w, init_trackers)
               (epochs num_epoch);
  Ok (model, w, (max_r2 tr, min_mse tr, max_corr tr)).

End Loop.

Arguments mkWorld {StateDict} files checkpoints trace.
Arguments files {StateDict} w.
Arguments checkpoints {StateDict} w.
Arguments trace {StateDict} w.
Arguments emit {StateDict} w e.
Arguments csv_append {StateDict} w path r.

End Selector.

(** ** The fold orchestrator ([main]) *)

Module Orchestrator.
Import Tensor Loss Head.

Section Main.
Variable Encoder : Type.
Variable calm_representations : Encoder -> list (list Z) -> tensor3.
Variable bert_last_hidden :
  Encoder -> list (list Z) -> list (list Z) -> list (list Z) -> tensor3.
Variable r2_score : list Qc -> list Qc -> res num.
Variable mean_squared_error : list Qc -> list Qc -> res num.
Variable pearsonr : list Qc -> list Qc -> res num.
Variable Optimizer : Type.
Variable optimizer_step :
  CodenBert Encoder -> Optimizer -> Batch -> option tensor3 ->
  CodenBert Encoder * Optimizer.

(** External constructors: the pretrained encoder ([CaLM()] or
    [BertModel.from_pretrained]) with its hidden size, the random
    initialisation of a linear layer, the optimizer and the schedule. *)
Variable Rng : Type.
Variable load_encoder : Args -> Encoder.
Variable encoder_hidden_size : Encoder -> nat.
Variable Linear_init : nat -> nat -> Rng -> Linear * Rng.
Variable AdamW : CodenBert Encoder -> Qc -> Optimizer.
Variable Scheduler : Type.
Variable CosineAnnealingLR : Optimizer -> Z -> Qc -> Scheduler.
Variable scheduler_step : Scheduler -> Optimizer -> Scheduler * Optimizer.

(** External data pipeline: the dataset read from a file, the collation
    of items into a batch, the permutation a shuffling loader draws. *)
Variable Item : Type.
Variable GeneSequenceDataset : string -> res (list Item).
Variable collate : list Item -> Batch.
Variable shuffle : Rng -> list Item -> list Item * Rng.

Abbreviation Model := (CodenBert Encoder).

(** [CodenBert.__init__] *)
Definition CodenBert_init (bert_model : Encoder) (num_labels : nat)
    (additional_feature_dim : nat) (args : Args) (rng : Rng) : Model * Rng :=
  let hidden_size := encoder_hidden_size bert_model in
  let '(regressor, rng) := Linear_init hidden_size num_labels rng in
  let '(additional_feature_layer, rng) :=
    Linear_init additional_feature_dim hidden_size rng in
  let '(down_project, rng) := Linear_init (hidden_size * 2) hidden_size rng in
  (mkCodenBert Encoder bert_model args (calm args) regressor
               additional_feature_layer down_project, rng).

Record DataLoader : Type := mkDataLoader {
  dl_dataset : list Item;
  dl_batch_size : nat;
  dl_shuffle : bool
}.

(** [DataLoader(dataset, batch_size=..., shuffle=...)]: a shuffling
    loader builds a random sampler, which refuses a dataset without an
    item, and the batch sampler refuses a batch size that is not positive;
    both raise [ValueError]. *)
Definition DataLoader_init (dataset : list Item) (batch_size : Z)
    (shuffle : bool) : res DataLoader :=
  if shuffle && Nat.eqb (length dataset) 0 then Raise ValueError
  else if (0 <? batch_size)%Z
  then Ok (mkDataLoader dataset (Z.to_nat batch_size) shuffle)
  else Raise ValueError.

(** Consecutive groups of [n] items, the last one possibly shorter;
    [cur] holds the group being filled, newest item first. *)
Fixpoint chunks (n : nat) (cur : list Item) (l : list Item) : list (list Item) :=
  match l with
  | [] => match cur with [] => [] | _ => [rev cur] end
  | x :: l' =>
      if Nat.eqb (length (x :: cur)) n
      then rev (x :: cur) :: chunks n [] l'
      else chunks n (x :: cur) l'
  end.

(** One iteration over the loader. *)
Definition iter_loader (dl : DataLoader) (rng : Rng) : list Batch * Rng :=
  let '(items, rng) :=
    if dl_shuffle dl then shuffle rng (dl_dataset dl) else (dl_dataset dl, rng) in
  (map collate (chunks (dl_batch_size dl) [] items), rng).

(** The two loaders as [main] builds them. *)
Definition make_train_loader (args : Args) (train_dataset : list Item)
    : res DataLoader :=
  DataLoader_init train_dataset (batch_size args) true.

Definition make_test_loader (test_dataset : list Item) : res DataLoader :=
  DataLoader_init test_dataset 1 false.

(** The mutable objects of one fold. *)
Record FoldState : Type := mkFoldState {
  fs_model : Model;
  fs_optimizer : Optimizer;
  fs_scheduler : Scheduler;
  fs_loss : HuberLoss;
  fs_rng : Rng
}.

Definition train_pass (args : Args) (train_loader : DataLoader)
    (st : FoldState) : res (FoldState * metrics) :=
  let '(batches, rng) := iter_loader train_loader (fs_rng st) in
  do (model, optimizer, loss, m) <-
    Epoch.train_epoch Encoder calm_representations bert_last_hidden
      r2_score mean_squared_error pearsonr Optimizer optimizer_step
      (fs_model st) batches (fs_optimizer st) (fs_loss st) args;
  Ok (mkFoldState model optimizer (fs_scheduler st) loss rng, m).

Definition eval_pass (args : Args) (eval_loader : DataLoader)
    (st : FoldState) (max_r2 : num) : res (FoldState * metrics * bool) :=
  let '(batches, rng) := iter_loader eval_loader (fs_rng st) in
  do (loss, m, plotted) <-
    Epoch.evaluate Encoder calm_representations bert_last_hidden
      r2_score mean_squared_error pearsonr
      (fs_model st) batches (fs_loss st) args max_r2;
  Ok (mkFoldState (fs_model st) (fs_optimizer st) (fs_scheduler st) loss rng,
      m, plotted).

Definition schedule_pass (st : FoldState) : FoldState :=
  let '(sch, opt) := scheduler_step (fs_scheduler st) (fs_optimizer st) in
  mkFoldState (fs_model st) opt sch (fs_loss st) (fs_rng st).

Abbreviation World := (Selector.World Model).

Definition additional_feature_dim (args : Args) : nat :=
  let d := 0%nat in
  let d := if aa args then (d + 21)%nat else d in
  let d := if protein args then (d + 6)%nat else d in
  let d := if ss args then (d + 8)%nat else d in
  d.

Definition best_result_path (args : Args) : string :=
  add_feature_suffix args (os_path_join (output_dir args) "best_results")
  +:+ ".csv".

Definition fold_file (args : Args) (i : Z) (split : string) : string :=
  os_path_join (data_dir args)
    ("E.coli.summary.add.pro.SS_" +:+ pretty i +:+ "_" +:+ split +:+ ".txt").

Definition fold_save_path (args : Args) (i : Z) : string :=
  os_path_join (output_dir args) ("checkpoints/fold_" +:+ pretty (i + 1)%Z).

(** A dataset is read only under its flag and is [None] otherwise. *)
Definition load_dataset (enabled : bool) (file : string)
    : res (option (list Item)) :=
  if enabled then
    do d <- GeneSequenceDataset file; Ok (Some d)
  else Ok None.

(** [len(dataset)]: a [TypeError] on [None]. *)
Definition checked_len (dataset : option (list Item)) : res (list Item) :=
  match dataset with
  | Some d => Ok d
  | None => Raise TypeError
  end.

Record Scores : Type := mkScores {
  s_r2_list : list num;
  s_mse_list : list num;
  s_corr_list : list num
}.

(** The body of [for i in range(10)]. *)
Definition fold_body (args : Args) (st : Rng * World * Scores) (i : Z)
    : res (Rng * World * Scores) :=
  let '(rng, w, sc) := st in
  let bert_model := load_encoder args in
  let w := Selector.emit w (EvLoadEncoder (calm args)) in
  let '(model, rng) :=
    CodenBert_init bert_model 1 (additional_feature_dim args) args rng in
  let w := Selector.emit w (EvNewModel (i + 1)) in
  let train_file := fold_file args i "train" in
  let test_file := fold_file args i "test" in
  do train_dataset <- load_dataset (do_train args) train_file;
  do test_dataset <- load_dataset (do_eval args) test_file;
  do train_dataset <- checked_len train_dataset;
  do test_dataset <- checked_len test_dataset;
  let w := Selector.emit w (EvLoadData train_file test_file) in
  do train_loader <- make_train_loader args train_dataset;
  do test_loader <- make_test_loader test_dataset;
  let optimizer := AdamW model (learning_rate args) in
  let w := Selector.emit w (EvNewOptimizer (learning_rate args)) in
  let num_epoch := num_train_epochs args in
  let lr_scheduler := CosineAnnealingLR optimizer num_epoch (lr_min args) in
  let w := Selector.emit w (EvNewScheduler num_epoch (lr_min args)) in
  let loss := HuberLoss_init in
  let save_path := fold_save_path args i in
  do (fs, w, best) <-
    Selector.train_and_validate FoldState Model fs_model
      (train_pass args train_loader) (eval_pass args test_loader)
      schedule_pass
      (mkFoldState model optimizer lr_scheduler loss rng) w num_epoch
      save_path args (i + 1);
  let '(max_r2, min_mse, max_corr) := best in
  let w := Selector.csv_append w (best_result_path args)
             [CInt (i + 1); CNum max_r2; CNum min_mse; CNum max_corr] in
  Ok (fs_rng fs, w,
      mkScores (s_r2_list sc ++ [max_r2]) (s_mse_list sc ++ [min_mse])
               (s_corr_list sc ++ [max_corr])).

(** [range(10)] *)
Definition folds : list Z := map (fun k => Z.of_nat k) (seq 0 10).

(** [main] after argument parsing and seeding: returns the world and the
    three averages it reports. *)
Definition main (args0 : Args) (rng : Rng) (w : World)
    : res (World * (num * num * num)) :=
  let args := set_use_additional_feature args0 in
  do (_, w, sc) <- foldM (fold_body args) (rng, w, mkScores [] [] []) folds;
  do average_r2 <- py_mean (s_r2_list sc);
  do average_mse <- py_mean (s_mse_list sc);
  do average_corr <- py_mean (s_corr_list sc);
  Ok (w, (average_r2, average_mse, average_corr)).

End Main.
End Orchestrator.

(** * Properties *)

Module ResProps.

Lemma bind_ok {A B : Type} (m : res A) (k : A -> res B) (b : B) :
  bind m k = Ok b -> exists a, m = Ok a /\ k a = Ok b.
Proof. destruct m as [a|e]; simpl; [eauto | discriminate]. Qed.

Lemma foldM_app {S A : Type} (f : S -> A -> res S) (s : S) (l1 l2 : list A) :
  foldM f s (l1 ++ l2) = bind (foldM f s l1) (fun s1 => foldM f s1 l2).
Proof.
  revert s. induction l1 as [|a l1 IH]; intros s; simpl; [reflexivity|].
  destruct (f s a) as [s'|e]; simpl; [apply IH | reflexivity].
Qed.

Lemma py_sum_fin (qs : list Qc) (a : Qc) :
  fold_left num_add (map Fin qs) (Fin a) = Fin (a + Tensor.Qc_sum qs).
Proof.
  revert a. induction qs as [|q qs IH]; intros a; simpl.
  - f_equal. ring.
  - rewrite IH. f_equal. ring.
Qed.

(** On finite values [sum(l) / len(l)] is the arithmetic mean. *)
Lemma py_mean_fin (qs : list Qc) :
  qs <> [] ->
  py_mean (map Fin qs)
  = Ok (Fin (Tensor.Qc_sum qs / Qc_of_nat (length qs))).
Proof.
  intros Hne. destruct qs as [|q qs]; [congruence|].
  unfold py_mean, py_sum. rewrite py_sum_fin, length_map.
  cbn [map]. f_equal. f_equal. f_equal. ring.
Qed.

End ResProps.

Module LossProps.
Import Tensor Loss.

Lemma map2_strict_zip {A B C : Type} (f : A -> B -> res C) (g : A -> B -> C)
    (l1 : list A) (l2 : list B) :
  Forall2 (fun a b => f a b = Ok (g a b)) l1 l2 ->
  map2_strict f l1 l2 = Ok (zip_with g l1 l2).
Proof.
  induction 1 as [|a b l1 l2 Hab _ IH]; simpl; [reflexivity|].
  rewrite Hab, IH. reflexivity.
Qed.

Lemma ew2_zip (f : Qc -> Qc -> Qc) (s t : tensor2) :
  same_shape s t ->
  ew2 f s t = Ok (zip_with (zip_with f) s t).
Proof.
  intros H. unfold ew2. apply map2_strict_zip.
  induction H as [|r1 r2 s t Hr _ IH]; constructor; [|exact IH].
  apply map2_strict_zip.
  clear -Hr. revert r2 Hr.
  induction r1 as [|a r1 IH]; intros [|b r2] Hr; simpl in Hr; try discriminate;
    constructor; [reflexivity|]. apply IH. lia.
Qed.

Lemma flatten_zip (f : Qc -> Qc -> Qc) (s t : tensor2) :
  same_shape s t ->
  flatten (zip_with (zip_with f) s t) = zip_with f (flatten s) (flatten t).
Proof.
  unfold flatten.
  induction 1 as [|r1 r2 s t Hr _ IH]; simpl; [reflexivity|].
  rewrite IH. clear IH. revert r2 Hr.
  induction r1 as [|a r1 IH]; intros [|b r2] Hr; simpl in Hr; try discriminate;
    simpl; [reflexivity|].
  f_equal. apply IH. lia.
Qed.

Lemma same_shape_zip_l (f : Qc -> Qc -> Qc) (s t : tensor2) :
  same_shape s t -> same_shape (zip_with (zip_with f) s t) t.
Proof.
  induction 1 as [|r1 r2 s t Hr _ IH]; simpl; constructor; [|exact IH].
  rewrite length_zip_with. lia.
Qed.

Lemma same_shape_sym (s t : tensor2) : same_shape s t -> same_shape t s.
Proof. induction 1; constructor; auto. Qed.

Lemma same_shape_trans (s t u : tensor2) :
  same_shape s t -> same_shape t u -> same_shape s u.
Proof.
  intros H. revert u. induction H as [|r1 r2 s t Hr _ IH]; intros u Hu.
  - inversion Hu. constructor.
  - inversion Hu as [|r2' r3 t' u' Hr' Hu']; subst.
    constructor; [congruence | apply IH; exact Hu'].
Qed.

Lemma same_shape_ones (t : tensor2) : same_shape (ones_like t) t.
Proof.
  induction t as [|r t IH]; constructor; [|exact IH].
  apply length_map.
Qed.

Lemma same_shape_numel (s t : tensor2) : same_shape s t -> numel s = numel t.
Proof.
  unfold numel, flatten. induction 1 as [|r1 r2 s t Hr _ IH]; simpl; [reflexivity|].
  rewrite !length_app. lia.
Qed.

Lemma flatten_ones (t : tensor2) :
  flatten (ones_like t) = map (fun _ => 1) (flatten t).
Proof.
  unfold flatten, ones_like. induction t as [|r t IH]; simpl; [reflexivity|].
  rewrite IH, map_app. reflexivity.
Qed.

Lemma zip_ones_mult (l v : list Qc) :
  length l = length v -> zip_with Qcmult (map (fun _ => 1) l) v = v.
Proof.
  revert v. induction l as [|a l IH]; intros [|b v] H; simpl in *;
    try discriminate; [reflexivity|].
  rewrite Qcmult_1_l. f_equal. apply IH. lia.
Qed.

Lemma zip_mult_ones (h l : list Qc) :
  length h = length l -> zip_with Qcmult h (map (fun _ => 1) l) = h.
Proof.
  revert l. induction h as [|a h IH]; intros [|b l] H; simpl in *;
    try discriminate; [reflexivity|].
  rewrite Qcmult_1_r. f_equal. apply IH. lia.
Qed.

Lemma sum_zip_mult_zeros (h l : list Qc) :
  Qc_sum (zip_with Qcmult h (map (fun _ => 0) l)) = 0.
Proof.
  revert l. induction h as [|a h IH]; intros [|b l]; simpl; try reflexivity.
  rewrite IH. ring.
Qed.

(** The value [MaskedHuberLoss.forward] returns, computed on the flattened
    tensors: the validity-weighted Huber terms summed, over the number of
    all elements. *)
Definition masked_mean (d : Qc) (pred label valid : tensor2) : num :=
  let h := zip_with (huber_elem d) (flatten pred) (flatten label) in
  match numel label with
  | O => NaN
  | n => Fin (Qc_sum (zip_with Qcmult h (flatten valid)) / Qc_of_nat n)
  end.

Lemma masked_forward_value (self : HuberLoss) (pred label valid : tensor2) :
  0 < delta self ->
  same_shape pred label -> same_shape label valid ->
  MaskedHuberLoss_forward self pred label valid
  = Ok (masked_mean (delta self) pred label valid,
        mkHuberLoss RNone (delta self)).
Proof.
  intros Hd Hpl Hlv. unfold MaskedHuberLoss_forward.
  assert (Hov : same_shape (ones_like label) valid)
    by (eapply same_shape_trans; [apply same_shape_ones | exact Hlv]).
  rewrite (ew2_zip _ _ _ Hov). simpl.
  unfold HuberLoss_forward, huber_loss. simpl.
  rewrite (bool_decide_true _ Hd).
  rewrite (ew2_zip _ _ _ Hpl). simpl.
  assert (Hhl : same_shape (zip_with (zip_with (huber_elem (delta self))) pred label) label)
    by (apply same_shape_zip_l; exact Hpl).
  assert (Hwv : same_shape (zip_with (zip_with Qcmult) (ones_like label) valid) valid)
    by (apply same_shape_zip_l; exact Hov).
  assert (Hhw : same_shape (zip_with (zip_with (huber_elem (delta self))) pred label)
                  (zip_with (zip_with Qcmult) (ones_like label) valid)).
  { eapply same_shape_trans; [exact Hhl|].
    eapply same_shape_trans; [exact Hlv|]. apply same_shape_sym. exact Hwv. }
  rewrite (ew2_zip _ _ _ Hhw). simpl.
  f_equal. f_equal. unfold mean, masked_mean.
  assert (Hn : numel (zip_with (zip_with Qcmult)
                 (zip_with (zip_with (huber_elem (delta self))) pred label)
                 (zip_with (zip_with Qcmult) (ones_like label) valid)) = numel label).
  { rewrite (same_shape_numel _ _ (same_shape_zip_l _ _ _ Hhw)).
    rewrite (same_shape_numel _ _ Hwv). symmetry. apply same_shape_numel, Hlv. }
  rewrite Hn. destruct (numel label) eqn:En; [reflexivity|].
  rewrite (flatten_zip _ _ _ Hhw), (flatten_zip _ _ _ Hpl), (flatten_zip _ _ _ Hov).
  rewrite flatten_ones, zip_ones_mult; [reflexivity|].
  apply (same_shape_numel _ _ Hlv).
Qed.

Lemma map2_strict_raise {A B C : Type} (f : A -> B -> res C)
    (l1 : list A) (l2 : list B) (e : exn) :
  (forall a b e', f a b = Raise e' -> e' = RuntimeError) ->
  map2_strict f l1 l2 = Raise e -> e = RuntimeError.
Proof.
  intros Hf. revert l2.
  induction l1 as [|a l1 IH]; intros [|b l2] H; simpl in H;
    try discriminate; try (injection H as <-; reflexivity).
  destruct (f a b) as [c|e1] eqn:Ef; simpl in H.
  - destruct (map2_strict f l1 l2) as [r|e2] eqn:Er; simpl in H;
      [discriminate|]. injection H as <-. apply (IH l2 Er).
  - injection H as <-. apply (Hf a b e1 Ef).
Qed.

Lemma ew2_raise (f : Qc -> Qc -> Qc) (s t : tensor2) (e : exn) :
  ew2 f s t = Raise e -> e = RuntimeError.
Proof.
  unfold ew2. apply map2_strict_raise. intros r1 r2 e' H.
  apply map2_strict_raise in H; [exact H|]. intros a b e0 H0. discriminate H0.
Qed.

(** Whatever the shapes, a threshold that is not positive makes the loss
    raise: the library refuses it. *)
Lemma masked_forward_nonpos (self : HuberLoss) (pred label valid : tensor2) :
  ~ 0 < delta self ->
  MaskedHuberLoss_forward self pred label valid = Raise RuntimeError.
Proof.
  intros Hd. unfold MaskedHuberLoss_forward.
  destruct (ew2 Qcmult (ones_like label) valid) as [wts|e] eqn:E; simpl.
  - unfold HuberLoss_forward, huber_loss. simpl.
    rewrite (bool_decide_false _ Hd). reflexivity.
  - apply ew2_raise in E. subst e. reflexivity.
Qed.

(** C1. For prediction, target and validity tensors of one shape and the
    positive threshold the library asks for (the program's is 1), the
    masked regression loss is the sum of the elementwise Huber terms times
    the validity indicator divided by the number of ALL elements; with
    every position valid it is what the standard Huber loss (mean
    reduction) returns, and with every position invalid, on a tensor that
    has an element, it is 0.  With a threshold that is not positive the
    library raises, and so does the masked loss. *)
Theorem C1_masked_loss_mean_over_all (self : HuberLoss)
    (pred label valid : tensor2) :
  same_shape pred label -> same_shape label valid ->
  (0 < delta self ->
   MaskedHuberLoss_forward self pred label valid
     = Ok (masked_mean (delta self) pred label valid,
           mkHuberLoss RNone (delta self))
   /\ (valid = ones_like label ->
       HuberLoss_forward (mkHuberLoss RMean (delta self)) pred label
       = Ok (OutScalar (masked_mean (delta self) pred label valid))))
  /\ (valid = map (map (fun _ => 0)) label -> (0 < numel label)%nat ->
      masked_mean (delta self) pred label valid = Fin 0)
  /\ (~ 0 < delta self ->
      MaskedHuberLoss_forward self pred label valid = Raise RuntimeError).
Proof.
  intros Hpl Hlv. split; [|split; [|apply masked_forward_nonpos]].
  - intros Hd. split; [apply masked_forward_value; assumption|].
    intros ->. unfold HuberLoss_forward, huber_loss. simpl.
    rewrite (bool_decide_true _ Hd).
    rewrite (ew2_zip _ _ _ Hpl). simpl. f_equal. f_equal.
    unfold mean, masked_mean.
    rewrite (same_shape_numel _ _ (same_shape_zip_l _ _ _ Hpl)).
    destruct (numel label) eqn:En; [reflexivity|].
    rewrite (flatten_zip _ _ _ Hpl), flatten_ones, zip_mult_ones; [reflexivity|].
    rewrite length_zip_with.
    pose proof (same_shape_numel _ _ Hpl) as Hn. unfold numel in Hn. lia.
  - intros -> Hpos. unfold masked_mean.
    destruct (numel label) eqn:En; [lia|].
    assert (Hz : flatten (map (map (fun _ : Qc => 0)) label)
                 = map (fun _ => 0) (flatten label)).
    { unfold flatten. clear. induction label as [|r t IH]; simpl; [reflexivity|].
      rewrite IH, map_app. reflexivity. }
    rewrite Hz, sum_zip_mult_zeros. f_equal. unfold Qcdiv. ring.
Qed.

End LossProps.

Module HeadProps.
Import Tensor Head ResProps.

(** Two tensors with the same batch and sequence axes. *)
Definition same_bn {A B : Type} (s : list (list A)) (t : list (list B)) : Prop :=
  Forall2 (fun r1 r2 => length r1 = length r2) s t.

(** The feature vector at position [n] of sequence [b]. *)
Definition at3 {A : Type} (t : list (list A)) (b n : nat) : option A :=
  match t !! b with
  | Some r => r !! n
  | None => None
  end.

Definition pick (on : bool) (v : list Qc) : list Qc := if on then v else [].

Lemma map2_strict_total {A B C : Type} (g : A -> B -> C)
    (l1 : list A) (l2 : list B) :
  length l1 = length l2 ->
  map2_strict (fun a b => Ok (g a b)) l1 l2 = Ok (zip_with g l1 l2).
Proof.
  revert l2. induction l1 as [|a l1 IH]; intros [|b l2] H; simpl in *;
    try discriminate; [reflexivity|].
  rewrite IH by lia. reflexivity.
Qed.

Lemma map2_strict2_total {A B C : Type} (g : A -> B -> C)
    (s : list (list A)) (t : list (list B)) :
  same_bn s t ->
  map2_strict (map2_strict (fun a b => Ok (g a b))) s t
  = Ok (zip_with (zip_with g) s t).
Proof.
  induction 1 as [|r1 r2 s t Hr _ IH]; simpl; [reflexivity|].
  rewrite (map2_strict_total g r1 r2 Hr). simpl. rewrite IH. reflexivity.
Qed.

Lemma cat2_total (s t : tensor3) :
  same_bn s t -> cat2 s t = Ok (zip_with (zip_with app) s t).
Proof. apply map2_strict2_total. Qed.

Lemma same_bn_refl {A : Type} (s : list (list A)) : same_bn s s.
Proof. induction s; constructor; auto. Qed.

Lemma same_bn_trans {A B C : Type} (s : list (list A)) (t : list (list B))
    (u : list (list C)) :
  same_bn s t -> same_bn t u -> same_bn s u.
Proof.
  intros H. revert u. induction H as [|r1 r2 s t Hr _ IH]; intros u Hu.
  - inversion Hu. constructor.
  - inversion Hu as [|r2' r3 t' u' Hr' Hu']; subst.
    constructor; [congruence | apply IH; exact Hu'].
Qed.

Lemma same_bn_sym {A B : Type} (s : list (list A)) (t : list (list B)) :
  same_bn s t -> same_bn t s.
Proof. induction 1; constructor; auto. Qed.

Lemma same_bn_zip {A B C : Type} (g : A -> B -> C)
    (s : list (list A)) (t : list (list B)) :
  same_bn s t -> same_bn s (zip_with (zip_with g) s t).
Proof.
  induction 1 as [|r1 r2 s t Hr _ IH]; simpl; constructor; [|exact IH].
  rewrite length_zip_with. lia.
Qed.

Lemma at3_zip {A B C : Type} (g : A -> B -> C)
    (s : list (list A)) (t : list (list B)) (b n : nat) (x : A) (y : B) :
  at3 s b n = Some x -> at3 t b n = Some y ->
  at3 (zip_with (zip_with g) s t) b n = Some (g x y).
Proof.
  unfold at3. intros Hs Ht.
  destruct (s !! b) as [r1|] eqn:E1; [|discriminate].
  destruct (t !! b) as [r2|] eqn:E2; [|discriminate].
  rewrite lookup_zip_with, E1, E2. simpl.
  rewrite lookup_zip_with, Hs, Ht. reflexivity.
Qed.

Section Model.
Variable Encoder : Type.
Variable calm_representations : Encoder -> list (list Z) -> tensor3.
Variable bert_last_hidden :
  Encoder -> list (list Z) -> list (list Z) -> list (list Z) -> tensor3.

Abbreviation Model := (CodenBert Encoder).
Abbreviation model_forward :=
  (forward Encoder calm_representations bert_last_hidden).
Abbreviation model_encode :=
  (encode Encoder calm_representations bert_last_hidden).

(** With the features off the forward pass never looks at the feature
    argument. *)
Lemma forward_ignores_features (self : Model) (ids mask tt : list (list Z))
    (af1 af2 : option tensor3) :
  use_additional_feature (m_args Encoder self) = false ->
  model_forward self ids mask tt af1 = model_forward self ids mask tt af2.
Proof. intros H. unfold forward. rewrite H. reflexivity. Qed.

(** C7. The three feature tensors of a batch share the batch and sequence
    axes.  With the flags as [main] sets them: when a group is enabled, the
    tensor handed to the head exists, has the same two axes, and at every
    position holds the vectors of the enabled groups joined in the order
    aa, protein, ss; when no group is enabled, the loops pass [None], and
    the output of the head is the same whatever stands in the place of the
    feature tensor. *)
Theorem C7_features_in_fixed_order (args0 : Args) (batch : Batch) :
  same_bn (b_aa batch) (pro_feature batch) ->
  same_bn (pro_feature batch) (b_ss batch) ->
  let args := set_use_additional_feature args0 in
  (use_additional_feature args = true ->
   exists t,
     additional_features_of args batch = Ok (Some t)
     /\ same_bn (b_aa batch) t
     /\ forall b n va vp vs,
          at3 (b_aa batch) b n = Some va ->
          at3 (pro_feature batch) b n = Some vp ->
          at3 (b_ss batch) b n = Some vs ->
          at3 t b n
          = Some (pick (aa args) va ++ pick (protein args) vp
                  ++ pick (ss args) vs))
  /\ (use_additional_feature args = false ->
      aa args = false /\ protein args = false /\ ss args = false
      /\ additional_features_of args batch = Ok None
      /\ forall (self : Model) ids mask tt af,
           m_args Encoder self = args ->
           model_forward self ids mask tt af
           = model_forward self ids mask tt None).
Proof.
  intros Hap Hps args.
  assert (Has : same_bn (b_aa batch) (b_ss batch))
    by (eapply same_bn_trans; eassumption).
  unfold additional_features_of.
  subst args. unfold set_use_additional_feature. simpl.
  destruct (aa args0) eqn:Ea, (protein args0) eqn:Ep, (ss args0) eqn:Es;
    simpl; (split; [intros Hu; try discriminate Hu | intros Hu; try discriminate Hu]).
  - rewrite (cat2_total _ _ Hps). simpl.
    assert (H1 : same_bn (b_aa batch)
                   (zip_with (zip_with app) (pro_feature batch) (b_ss batch)))
      by (eapply same_bn_trans; [exact Hap | apply same_bn_zip, Hps]).
    rewrite (cat2_total _ _ H1). simpl.
    eexists. split; [reflexivity|]. split; [apply same_bn_zip, H1|].
    intros b n va vp vs Ha Hp Hs.
    apply at3_zip; [exact Ha|]. apply at3_zip; assumption.
  - rewrite (cat2_total _ _ Hap). simpl.
    eexists. split; [reflexivity|]. split; [apply same_bn_zip, Hap|].
    intros b n va vp vs Ha Hp Hs. rewrite app_nil_r.
    apply at3_zip; assumption.
  - rewrite (cat2_total _ _ Has). simpl.
    eexists. split; [reflexivity|]. split; [apply same_bn_zip, Has|].
    intros b n va vp vs Ha Hp Hs. simpl.
    apply at3_zip; assumption.
  - eexists. split; [reflexivity|]. split; [apply same_bn_refl|].
    intros b n va vp vs Ha Hp Hs. simpl. rewrite app_nil_r. exact Ha.
  - rewrite (cat2_total _ _ Hps). simpl.
    eexists. split; [reflexivity|].
    split; [eapply same_bn_trans; [exact Hap | apply same_bn_zip, Hps]|].
    intros b n va vp vs Ha Hp Hs. simpl. apply at3_zip; assumption.
  - eexists. split; [reflexivity|]. split; [exact Hap|].
    intros b n va vp vs Ha Hp Hs. simpl. rewrite app_nil_r. exact Hp.
  - eexists. split; [reflexivity|]. split; [exact Has|].
    intros b n va vp vs Ha Hp Hs. simpl. exact Hs.
  - repeat split; try reflexivity.
    intros self ids mask tt af Hargs.
    apply forward_ignores_features. rewrite Hargs. reflexivity.
Qed.

(** *** The output of the head *)

Lemma mapM_Forall2 {A B : Type} (f : A -> res B) (l : list A) (l' : list B) :
  mapM f l = Ok l' -> Forall2 (fun a b => f a = Ok b) l l'.
Proof.
  revert l'. induction l as [|a l IH]; intros l' H; simpl in H.
  - inversion H. constructor.
  - destruct (f a) as [b|] eqn:Ea; simpl in H; [|discriminate].
    destruct (mapM f l) as [r|] eqn:Er; simpl in H; [|discriminate].
    inversion H; subst. constructor; [exact Ea | apply IH; reflexivity].
Qed.

Lemma mapM_total {A B : Type} (f : A -> res B) (g : A -> B) (l : list A) :
  Forall (fun a => f a = Ok (g a)) l -> mapM f l = Ok (map g l).
Proof.
  induction 1 as [|a l Ha _ IH]; simpl; [reflexivity|].
  rewrite Ha, IH. reflexivity.
Qed.

Lemma relu_nonneg (x : Qc) : 0 <= relu x.
Proof.
  unfold relu. destruct (bool_decide (0 < x)) eqn:E.
  - apply bool_decide_eq_true in E. apply Qclt_le_weak, E.
  - apply Qcle_refl.
Qed.

Lemma Linear_row_length (L : Linear) (x y : list Qc) :
  Linear_wf L -> Linear_row L x = Ok y -> length y = out_features L.
Proof.
  intros (Hw & _ & Hb). unfold Linear_row.
  destruct (Nat.eqb _ _); [|discriminate].
  intros H. inversion H; subst. rewrite length_zip_with. lia.
Qed.

Lemma mapM_length {A B : Type} (f : A -> res B) (l : list A) (l' : list B) :
  mapM f l = Ok l' -> length l = length l'.
Proof. intros H. apply mapM_Forall2 in H. eapply Forall2_length, H. Qed.

Lemma mapM2_same_bn {A B : Type} (f : A -> res B) (t : list (list A))
    (t' : list (list B)) :
  mapM (mapM f) t = Ok t' -> same_bn t t'.
Proof.
  intros H. apply mapM_Forall2 in H.
  induction H as [|r r' t t' Hr _ IH]; constructor; [|exact IH].
  apply (mapM_length f), Hr.
Qed.

Lemma map2_strict_length {A B C : Type} (f : A -> B -> res C)
    (l1 : list A) (l2 : list B) (l : list C) :
  map2_strict f l1 l2 = Ok l -> length l1 = length l.
Proof.
  revert l2 l. induction l1 as [|a l1 IH]; intros [|b l2] l H; simpl in H;
    try discriminate.
  - inversion H. reflexivity.
  - destruct (f a b) as [c|]; simpl in H; [|discriminate].
    destruct (map2_strict f l1 l2) as [r|] eqn:E; simpl in H; [|discriminate].
    inversion H; subst. simpl. f_equal. eapply IH, E.
Qed.

Lemma cat2_same_bn (s t u : tensor3) : cat2 s t = Ok u -> same_bn s u.
Proof.
  unfold cat2. revert t u.
  induction s as [|r s IH]; intros [|r' t] u H; simpl in H; try discriminate.
  - inversion H. constructor.
  - destruct (map2_strict (fun a b => Ok (a ++ b)) r r') as [c|] eqn:E1;
      simpl in H; [|discriminate].
    destruct (map2_strict (map2_strict (fun a b => Ok (a ++ b))) s t)
      as [q|] eqn:E2; simpl in H; [|discriminate].
    inversion H; subst. constructor; [|eapply IH, E2].
    eapply map2_strict_length, E1.
Qed.

Lemma ReLU_same_bn (t : tensor3) : same_bn t (ReLU t).
Proof.
  unfold ReLU. induction t as [|r t IH]; constructor; [|exact IH].
  rewrite length_map. reflexivity.
Qed.

(** The head ends with the regressor and the rectifier, on a tensor that
    has the batch and sequence axes of the encoder output. *)
Lemma forward_tail (self : Model) (ids mask tt : list (list Z))
    (af : option tensor3) (out : tensor3) :
  model_forward self ids mask tt af = Ok out ->
  exists seq p,
    Linear_forward (regressor Encoder self) seq = Ok p /\ out = ReLU p
    /\ same_bn (model_encode self ids mask tt) seq.
Proof.
  unfold forward. fold (model_encode self ids mask tt). intros H.
  apply bind_ok in H as (seq & Hseq & H).
  apply bind_ok in H as (p & Hp & H).
  inversion H; subst. exists seq, p.
  split; [exact Hp|]. split; [reflexivity|].
  destruct (use_additional_feature (m_args Encoder self)).
  - destruct af as [af|]; [|discriminate Hseq].
    apply bind_ok in Hseq as (afo & _ & Hseq).
    apply bind_ok in Hseq as (fused & Hcat & Hseq).
    apply bind_ok in Hseq as (fo & Hfo & Hseq).
    inversion Hseq; subst. simpl in Hcat.
    eapply same_bn_trans; [eapply cat2_same_bn, Hcat|].
    eapply same_bn_trans; [eapply mapM2_same_bn, Hfo|].
    apply ReLU_same_bn.
  - inversion Hseq; subst. apply same_bn_refl.
Qed.

(** C8. Whatever the input, an output of the head has the batch and
    sequence axes of the encoder output and, the regressor being a layer
    with one output feature, holds at every position exactly one number,
    which is not negative; and with the features off and an encoder output
    of the width the regressor expects, the head does return an output. *)
Theorem C8_output_nonneg_scalar (self : Model) (ids mask tt : list (list Z))
    (af : option tensor3) :
  Linear_wf (regressor Encoder self) ->
  out_features (regressor Encoder self) = 1%nat ->
  (forall out,
     model_forward self ids mask tt af = Ok out ->
     same_bn (model_encode self ids mask tt) out
     /\ Forall (Forall (fun v => exists x, v = [x] /\ 0 <= x)) out)
  /\ (use_additional_feature (m_args Encoder self) = false ->
      Forall (Forall (fun v => length v
                               = in_features (regressor Encoder self)))
        (model_encode self ids mask tt) ->
      exists out, model_forward self ids mask tt af = Ok out).
Proof.
  intros Hwf Hone. split.
  - intros out H.
    apply forward_tail in H as (seq & p & Hp & -> & Hbn).
    split.
    + eapply same_bn_trans; [exact Hbn|].
      eapply same_bn_trans; [eapply mapM2_same_bn, Hp | apply ReLU_same_bn].
    + unfold Linear_forward in Hp. apply mapM_Forall2 in Hp.
      unfold ReLU. apply Forall_map. clear Hbn.
      induction Hp as [|r r' t t' Hr _ IH]; [constructor|].
      constructor; [|exact IH].
      apply Forall_map. apply mapM_Forall2 in Hr.
      clear -Hr Hwf Hone.
      induction Hr as [|x y r r' Hxy _ IH]; [constructor|].
      constructor; [|exact IH].
      pose proof (Linear_row_length _ _ _ Hwf Hxy) as Hlen.
      rewrite Hone in Hlen.
      destruct y as [|a [|b y]]; simpl in Hlen; try discriminate Hlen.
      exists (relu a). split; [reflexivity | apply relu_nonneg].
  - intros Hoff Hwidth. unfold forward. rewrite Hoff. simpl.
    fold (model_encode self ids mask tt).
    unfold Linear_forward.
    rewrite (mapM_total _ (map (fun x =>
               zip_with (fun w b => dot w x + b)
                 (weight (regressor Encoder self))
                 (bias (regressor Encoder self))))).
    + simpl. eexists. reflexivity.
    + eapply Forall_impl; [exact Hwidth|]. intros r Hr. simpl.
      apply mapM_total. eapply Forall_impl; [exact Hr|].
      intros x Hx. simpl in Hx. unfold Linear_row.
      rewrite Hx, Nat.eqb_refl. reflexivity.
Qed.

End Model.

End HeadProps.

Module EpochProps.
Import Tensor Loss Head Epoch ResProps.

(** The entries of a tensor at the valid positions, those whose indicator
    is 1, in row-major order. *)
Definition valid_values (t valid : tensor2) : list Qc :=
  map fst
    (List.filter (fun p => bool_decide (snd p = 1))
       (zip (flatten t) (flatten valid))).

Lemma select_row_values (r vr : list Qc) (cells : list (list Qc)) :
  map2_strict (fun x v => Ok (if bool_decide (v = 1) then [x] else [])) r vr
  = Ok cells ->
  length r = length vr
  /\ concat cells
     = map fst (List.filter (fun p => bool_decide (snd p = 1)) (zip r vr)).
Proof.
  revert vr cells. induction r as [|x r IH]; intros [|v vr] cells H;
    simpl in H; try discriminate.
  - inversion H. split; reflexivity.
  - apply bind_ok in H as (rest & Hrest & H). inversion H; subst; clear H.
    destruct (IH vr rest Hrest) as [Hlen Hc]. split; [simpl; lia|].
    simpl. rewrite Hc. destruct (bool_decide (v = 1)); reflexivity.
Qed.

(** Indexing by the mask returns the values at the valid positions, and
    returns at all only when the mask has the shape of the tensor. *)
Lemma masked_select_values (t valid : tensor2) (l : list Qc) :
  masked_select t valid = Ok l ->
  same_shape t valid /\ l = valid_values t valid.
Proof.
  unfold masked_select, valid_values, flatten. intros H.
  apply bind_ok in H as (rows & Hrows & H). inversion H; subst; clear H.
  revert valid rows Hrows.
  induction t as [|r t IH]; intros [|vr valid] rows H; simpl in H;
    try discriminate.
  - inversion H. split; [constructor | reflexivity].
  - apply bind_ok in H as (cells & Hcells & H).
    apply bind_ok in H as (rest & Hrest & H). inversion H; subst; clear H.
    destruct (select_row_values _ _ _ Hcells) as [Hlen Hc].
    destruct (IH valid rest Hrest) as [Hs Hv].
    split; [constructor; assumption|].
    cbn [concat map]. rewrite zip_with_app by exact Hlen.
    rewrite List.filter_app, map_app, Hc, Hv. reflexivity.
Qed.

Section Runner.
Variable Encoder : Type.
Variable calm_representations : Encoder -> list (list Z) -> tensor3.
Variable bert_last_hidden :
  Encoder -> list (list Z) -> list (list Z) -> list (list Z) -> tensor3.
Variable r2_score : list Qc -> list Qc -> res num.
Variable mean_squared_error : list Qc -> list Qc -> res num.
Variable pearsonr : list Qc -> list Qc -> res num.
Variable Optimizer : Type.
Variable optimizer_step :
  CodenBert Encoder -> Optimizer -> Batch -> option tensor3 ->
  CodenBert Encoder * Optimizer.

Abbreviation Model := (CodenBert Encoder).
Abbreviation forward_loss :=
  (forward_loss Encoder calm_representations bert_last_hidden).
Abbreviation score_reg := (score_reg r2_score mean_squared_error pearsonr).
Abbreviation train_batch :=
  (train_batch Encoder calm_representations bert_last_hidden r2_score
     mean_squared_error pearsonr Optimizer optimizer_step).
Abbreviation train_epoch :=
  (train_epoch Encoder calm_representations bert_last_hidden r2_score
     mean_squared_error pearsonr Optimizer optimizer_step).
Abbreviation eval_batch :=
  (eval_batch Encoder calm_representations bert_last_hidden).
Abbreviation evaluate :=
  (evaluate Encoder calm_representations bert_last_hidden r2_score
     mean_squared_error pearsonr).

(** What one batch yields under given parameters: the enabled feature
    groups are assembled, the head is run on the batch with them, its one
    number per position is taken, and the masked loss of these outputs
    against the densities is computed; with it come the outputs and the
    densities at the valid positions of the batch. *)
Definition batch_outcome (model : Model) (loss : HuberLoss) (args : Args)
    (batch : Batch)
    : res (option tensor3 * num * list Qc * list Qc * HuberLoss) :=
  do af <- additional_features_of args batch;
  do out <- forward Encoder calm_representations bert_last_hidden model
              (input_ids batch) (attention_mask batch) (token_type_ids batch)
              af;
  do outputs <- squeeze_last out;
  do (l, loss) <- MaskedHuberLoss_forward loss outputs (density batch)
                     (valid_sequence batch);
  Ok (af, l, valid_values outputs (valid_sequence batch),
      valid_values (density batch) (valid_sequence batch), loss).

(** A batch on which the loop body got through its forward pass and its
    two selections has this outcome. *)
Lemma batch_outcome_spec (model : Model) (loss loss' : HuberLoss)
    (args : Args) (batch : Batch) (af : option tensor3) (outputs : tensor2)
    (l : num) (y_pred y_true : list Qc) :
  forward_loss model loss args batch = Ok (af, outputs, l, loss') ->
  masked_select outputs (valid_sequence batch) = Ok y_pred ->
  masked_select (density batch) (valid_sequence batch) = Ok y_true ->
  batch_outcome model loss args batch = Ok (af, l, y_pred, y_true, loss').
Proof.
  unfold Epoch.forward_loss, batch_outcome. intros Hf Hp Ht.
  apply bind_ok in Hf as (af0 & Haf & Hf). rewrite Haf. simpl.
  apply bind_ok in Hf as (out & Hout & Hf). rewrite Hout. simpl.
  apply bind_ok in Hf as (sq & Hsq & Hf). rewrite Hsq. simpl.
  apply bind_ok in Hf as ([l0 loss0] & Hl & Hf). rewrite Hl. simpl.
  inversion Hf; subst; clear Hf.
  apply masked_select_values in Hp as [_ ->].
  apply masked_select_values in Ht as [_ ->]. reflexivity.
Qed.

(** The per-batch values of a training pass: each batch is scored on its
    own valid positions, with the parameters as the steps on the batches
    before it left them. *)
Fixpoint train_values (model : Model) (optimizer : Optimizer)
    (loss : HuberLoss) (args : Args) (batches : list Batch)
    : res (list metrics) :=
  match batches with
  | [] => Ok []
  | batch :: rest =>
      do (af, l, y_pred, y_true, loss) <- batch_outcome model loss args batch;
      do (r2, mse, corr) <- score_reg y_pred y_true;
      let '(model, optimizer) := optimizer_step model optimizer batch af in
      do vs <- train_values model optimizer loss args rest;
      Ok ((l, r2, mse, corr) :: vs)
  end.

(** The per-batch outcomes of an evaluation pass, all under the same
    parameters: the loss, the predictions and the targets of each batch. *)
Fixpoint eval_values (model : Model) (loss : HuberLoss) (args : Args)
    (batches : list Batch) : res (list (num * list Qc * list Qc)) :=
  match batches with
  | [] => Ok []
  | batch :: rest =>
      do (_, l, y_pred, y_true, loss) <- batch_outcome model loss args batch;
      do vs <- eval_values model loss args rest;
      Ok ((l, y_pred, y_true) :: vs)
  end.

Lemma train_fold_spec (args : Args) (batches : list Batch) (model : Model)
    (optimizer : Optimizer) (loss : HuberLoss) (acc : TrainAcc)
    (model' : Model) (optimizer' : Optimizer) (loss' : HuberLoss)
    (acc' : TrainAcc) :
  foldM (train_batch args) (model, optimizer, loss, acc) batches
  = Ok (model', optimizer', loss', acc') ->
  exists vs,
    train_values model optimizer loss args batches = Ok vs
    /\ length vs = length batches
    /\ loss_list acc' = loss_list acc ++ map m_loss vs
    /\ r2_list acc' = r2_list acc ++ map m_r2 vs
    /\ mse_list acc' = mse_list acc ++ map m_mse vs
    /\ corr_list acc' = corr_list acc ++ map m_corr vs.
Proof.
  revert model optimizer loss acc.
  induction batches as [|b bs IH]; intros model optimizer loss acc H.
  - inversion H; subst. exists []. simpl. rewrite !app_nil_r. auto 10.
  - simpl in H. apply bind_ok in H as ([[[m1 o1] l1] acc1] & Hb & H).
    unfold Epoch.train_batch in Hb.
    apply bind_ok in Hb as ([[[af outputs] tr_loss] l2] & Hf & Hb).
    apply bind_ok in Hb as (y_pred & Hp & Hb).
    apply bind_ok in Hb as (y_true & Ht & Hb).
    apply bind_ok in Hb as ([[r2 mse] corr] & Hs & Hb).
    destruct (optimizer_step model optimizer b af) as [m2 o2] eqn:Eo.
    inversion Hb; subst; clear Hb.
    apply IH in H as (vs & Hvs & Hlen & H1 & H2 & H3 & H4).
    exists ((tr_loss, r2, mse, corr) :: vs).
    simpl. rewrite (batch_outcome_spec _ _ _ _ _ _ _ _ _ _ Hf Hp Ht). simpl.
    rewrite Hs. simpl. rewrite Eo, Hvs. simpl.
    split; [reflexivity|]. split; [congruence|].
    rewrite H1, H2, H3, H4. simpl. rewrite <- !app_assoc. auto.
Qed.

Lemma eval_fold_spec (args : Args) (model : Model) (batches : list Batch)
    (loss : HuberLoss) (acc : EvalAcc) (loss' : HuberLoss) (acc' : EvalAcc) :
  foldM (eval_batch model args) (loss, acc) batches = Ok (loss', acc') ->
  exists vs,
    eval_values model loss args batches = Ok vs
    /\ length vs = length batches
    /\ e_loss_list acc' = e_loss_list acc ++ map (fun v => fst (fst v)) vs
    /\ preds acc' = preds acc ++ concat (map (fun v => snd (fst v)) vs)
    /\ trues acc' = trues acc ++ concat (map (fun v => snd v) vs).
Proof.
  revert loss acc.
  induction batches as [|b bs IH]; intros loss acc H.
  - inversion H; subst. exists []. simpl. rewrite !app_nil_r. auto 10.
  - simpl in H. apply bind_ok in H as ([l1 acc1] & Hb & H).
    unfold Epoch.eval_batch in Hb.
    apply bind_ok in Hb as ([[[af outputs] e_loss] l2] & Hf & Hb).
    apply bind_ok in Hb as (y_pred & Hp & Hb).
    apply bind_ok in Hb as (y_true & Ht & Hb).
    inversion Hb; subst; clear Hb.
    apply IH in H as (vs & Hvs & Hlen & H1 & H2 & H3).
    exists ((e_loss, y_pred, y_true) :: vs).
    simpl. rewrite (batch_outcome_spec _ _ _ _ _ _ _ _ _ _ Hf Hp Ht). simpl.
    rewrite Hvs. simpl.
    split; [reflexivity|]. split; [congruence|].
    rewrite H1, H2, H3. simpl. rewrite <- !app_assoc. auto.
Qed.

Lemma train_epoch_spec (args : Args) (model : Model) (loss : HuberLoss)
    (batches : list Batch) (optimizer : Optimizer) (model' : Model)
    (optimizer' : Optimizer) (loss' : HuberLoss) (avg_loss r2 mse corr : num) :
  train_epoch model batches optimizer loss args
  = Ok (model', optimizer', loss', (avg_loss, r2, mse, corr)) ->
  exists vs,
    train_values model optimizer loss args batches = Ok vs
    /\ length vs = length batches
    /\ py_mean (map m_loss vs) = Ok avg_loss
    /\ py_mean (map m_r2 vs) = Ok r2
    /\ py_mean (map m_mse vs) = Ok mse
    /\ py_mean (map m_corr vs) = Ok corr.
Proof.
  intros H. unfold Epoch.train_epoch in H.
  apply bind_ok in H as ([[[m1 o1] l1] acc1] & Hfold & H).
  apply bind_ok in H as (a1 & Ha1 & H).
  apply bind_ok in H as (a2 & Ha2 & H).
  apply bind_ok in H as (a3 & Ha3 & H).
  apply bind_ok in H as (a4 & Ha4 & H).
  inversion H; subst; clear H.
  apply train_fold_spec in Hfold as (vs & Hvs & Hlen & H1 & H2 & H3 & H4).
  simpl in H1, H2, H3, H4. rewrite H1 in Ha1. rewrite H2 in Ha2.
  rewrite H3 in Ha3. rewrite H4 in Ha4.
  exists vs. auto 10.
Qed.

Lemma evaluate_spec (args : Args) (model : Model) (loss : HuberLoss)
    (batches : list Batch) (max_r2 : num) (loss' : HuberLoss)
    (avg_loss r2 mse corr : num) (plotted : bool) :
  evaluate model batches loss args max_r2
  = Ok (loss', (avg_loss, r2, mse, corr), plotted) ->
  exists vs,
    eval_values model loss args batches = Ok vs
    /\ length vs = length batches
    /\ score_reg (concat (map (fun v => snd (fst v)) vs))
         (concat (map (fun v => snd v) vs))
       = Ok (r2, mse, corr)
    /\ py_mean (map (fun v => fst (fst v)) vs) = Ok avg_loss.
Proof.
  intros H. unfold Epoch.evaluate in H.
  apply bind_ok in H as ([l1 acc1] & Hfold & H).
  apply bind_ok in H as ([[r2' mse'] corr'] & Hs & H).
  apply bind_ok in H as (a1 & Ha1 & H).
  inversion H; subst; clear H.
  apply eval_fold_spec in Hfold as (vs & Hvs & Hlen & H1 & H2 & H3).
  simpl in H1, H2, H3. rewrite H2, H3 in Hs. rewrite H1 in Ha1.
  exists vs. auto 10.
Qed.

(** C6. A training pass that completes returns, for the loss, R2, MSE and
    correlation alike, the arithmetic mean [sum / len] of the per-batch
    values, one value per batch, the metrics of a batch being computed on
    the outputs and densities at its own valid positions ([train_values],
    through [batch_outcome] and [valid_values]).  An evaluation pass that
    completes returns the metrics computed once on the outputs and
    densities at the valid positions of all batches pooled in order
    ([eval_values]), and for the loss alone the mean of the per-batch
    losses.  ([sum / len] of finite values is their sum over their
    number.) *)
Theorem C6_batch_means_and_pooled_metrics (args : Args) (model : Model)
    (loss : HuberLoss) (batches : list Batch) :
  (forall optimizer model' optimizer' loss' avg_loss r2 mse corr,
     train_epoch model batches optimizer loss args
     = Ok (model', optimizer', loss', (avg_loss, r2, mse, corr)) ->
     exists vs,
       train_values model optimizer loss args batches = Ok vs
       /\ length vs = length batches
       /\ py_mean (map m_loss vs) = Ok avg_loss
       /\ py_mean (map m_r2 vs) = Ok r2
       /\ py_mean (map m_mse vs) = Ok mse
       /\ py_mean (map m_corr vs) = Ok corr)
  /\ (forall max_r2 loss' avg_loss r2 mse corr plotted,
        evaluate model batches loss args max_r2
        = Ok (loss', (avg_loss, r2, mse, corr), plotted) ->
        exists vs,
          eval_values model loss args batches = Ok vs
          /\ length vs = length batches
          /\ score_reg (concat (map (fun v => snd (fst v)) vs))
               (concat (map (fun v => snd v) vs))
             = Ok (r2, mse, corr)
          /\ py_mean (map (fun v => fst (fst v)) vs) = Ok avg_loss)
  /\ (forall qs : list Qc,
        qs <> [] ->
        py_mean (map Fin qs) = Ok (Fin (Qc_sum qs / Qc_of_nat (length qs)))).
Proof.
  split; [|split].
  - intros optimizer model' optimizer' loss' avg_loss r2 mse corr H.
    exact (train_epoch_spec _ _ _ _ _ _ _ _ _ _ _ _ H).
  - intros max_r2 loss' avg_loss r2 mse corr plotted H.
    exact (evaluate_spec _ _ _ _ _ _ _ _ _ _ _ H).
  - exact py_mean_fin.
Qed.

End Runner.
End EpochProps.

Module SelectorProps.
Import Selector ResProps.

Section Loop.
Variable St : Type.
Variable StateDict : Type.
Variable state_dict : St -> StateDict.
Variable train_epoch : St -> res (St * metrics).
Variable evaluate : St -> num -> res (St * metrics * bool).
Variable lr_scheduler_step : St -> St.

Abbreviation World := (World StateDict).
Abbreviation epoch_body :=
  (epoch_body St StateDict state_dict train_epoch evaluate lr_scheduler_step).
Abbreviation run_epochs :=
  (run_epochs St StateDict state_dict train_epoch evaluate lr_scheduler_step).
Abbreviation train_and_validate :=
  (train_and_validate St StateDict state_dict train_epoch evaluate
     lr_scheduler_step).

(** What one epoch does to the trackers, stated on the two results of
    the epoch: [m] of the training pass, [em] of the evaluation. *)
Definition after_train (tr : Trackers) (m : metrics) : Trackers :=
  if num_lt (m_loss m) (best_loss tr)
  then mkTrackers (max_r2 tr) (min_mse tr) (max_corr tr) (m_loss m)
                  (best_eval_loss tr)
  else tr.

Definition after_eval (tr : Trackers) (em : metrics) : Trackers :=
  let tr1 :=
    if num_lt (m_loss em) (best_eval_loss tr)
    then mkTrackers (max_r2 tr) (min_mse tr) (max_corr tr) (best_loss tr)
                    (m_loss em)
    else tr in
  if num_gt (m_r2 em) (max_r2 tr1)
  then mkTrackers (m_r2 em) (m_mse em) (m_corr em) (best_loss tr1)
                  (best_eval_loss tr1)
  else tr1.

(** The tags saved after an evaluation, by the trackers before it. *)
Definition eval_tags (tr : Trackers) (em : metrics) : list string :=
  (if num_lt (m_loss em) (best_eval_loss tr) then ["best_eval_loss"] else [])
  ++ (if num_gt (m_r2 em) (max_r2 tr) then ["best"] else []).

(** The tags saved in one epoch, in order. *)
Definition epoch_tags (tr : Trackers) (m em : metrics) : list string :=
  "last" :: eval_tags (after_train tr m) em.

(** The events of one epoch, in order. *)
Definition epoch_events (args : Args) (epoch_max : Z) (save_path : string)
    (fold : Z) (tr : Trackers) (epoch : Z) (m em : metrics) (plotted : bool)
    : list event :=
  [EvTrainEpoch epoch m; EvSchedulerStep;
   EvCsvRow (train_log_path args epoch_max) (metrics_row epoch m);
   EvSave (checkpoint_path save_path "last")]
  ++ (if plotted then [EvPlot fold] else [])
  ++ [EvEvaluate epoch em]
  ++ map (fun t => EvSave (checkpoint_path save_path t))
         (eval_tags (after_train tr m) em)
  ++ [EvCsvRow (eval_log_path args epoch_max) (metrics_row epoch em)].

Definition append_row (f : gmap string (list row)) (path : string) (r : row)
    : gmap string (list row) :=
  <[path := default [] (f !! path) ++ [r]]> f.

Lemma after_train_max_r2 (tr : Trackers) (m : metrics) :
  max_r2 (after_train tr m) = max_r2 tr.
Proof. unfold after_train. destruct (num_lt _ _); reflexivity. Qed.

(** One epoch, read off the loop body: both passes returned, the trackers
    moved as [after_train] and [after_eval] say, and the world got the
    events of [epoch_events], the two log rows and the checkpoints. *)
Lemma epoch_body_spec (args : Args) (epoch_max : Z) (save_path : string)
    (fold : Z) (s : St) (w : World) (tr : Trackers) (epoch : Z)
    (s' : St) (w' : World) (tr' : Trackers) :
  epoch_body args epoch_max save_path fold (s, w, tr) epoch = Ok (s', w', tr') ->
  exists s1 m em plotted,
    train_epoch s = Ok (s1, m)
    /\ evaluate (lr_scheduler_step s1) (max_r2 tr) = Ok (s', em, plotted)
    /\ tr' = after_eval (after_train tr m) em
    /\ trace w' = trace w
                  ++ epoch_events args epoch_max save_path fold tr epoch m em
                       plotted
    /\ files w' = append_row
                    (append_row (files w) (train_log_path args epoch_max)
                       (metrics_row epoch m))
                    (eval_log_path args epoch_max) (metrics_row epoch em)
    /\ checkpoints w'
       = foldl (fun c t => <[checkpoint_path save_path t := state_dict s']> c)
           (<[checkpoint_path save_path "last"
              := state_dict (lr_scheduler_step s1)]> (checkpoints w))
           (eval_tags (after_train tr m) em).
Proof.
  unfold Selector.epoch_body. intros H.
  apply bind_ok in H as [[s1 m] [Ht H]].
  destruct m as [[[train_loss r2] mse] corr].
  unfold epoch_val in H. rewrite Z.mod_1_r in H. simpl Z.eqb in H. cbv iota in H.
  apply bind_ok in H as [[[s2 em] plotted] [He H]].
  destruct em as [[[eval_loss er2] emse] ecorr].
  exists s1, (train_loss, r2, mse, corr), (eval_loss, er2, emse, ecorr), plotted.
  split; [exact Ht|].
  assert (Hmax : max_r2 (if num_lt train_loss (best_loss tr)
                  then mkTrackers (max_r2 tr) (min_mse tr) (max_corr tr)
                                  train_loss (best_eval_loss tr)
                  else tr) = max_r2 tr)
    by (destruct (num_lt train_loss (best_loss tr)); reflexivity).
  rewrite Hmax in He.
  clear Ht Hmax.
  unfold after_eval, after_train, epoch_events, eval_tags, append_row,
    m_loss, m_r2, m_mse, m_corr.
  destruct (num_lt train_loss (best_loss tr)) eqn:E1; cbn in H |- *;
    destruct (num_lt eval_loss (best_eval_loss tr)) eqn:E2; cbn in H |- *;
    destruct (num_gt er2 (max_r2 tr)) eqn:E3; cbn in H |- *;
    destruct plotted; cbn in H |- *;
    inversion H; subst; clear H;
    repeat (progress (unfold after_train, m_loss, m_r2; cbn;
                      rewrite ?E1, ?E2, ?E3));
    rewrite <- ?app_assoc; cbn; (split; [exact He|]);
    repeat split; reflexivity.
Qed.

(** The results of the two passes, epoch after epoch, as the loop obtains
    them: the training metrics, the evaluation metrics and whether the
    evaluation drew the plot. *)
Fixpoint pass_history (s : St) (tr : Trackers) (es : list Z)
    : res (list (metrics * metrics * bool)) :=
  match es with
  | [] => Ok []
  | _ :: es' =>
      do (s1, m) <- train_epoch s;
      do (s2, em, plotted) <- evaluate (lr_scheduler_step s1) (max_r2 tr);
      do h <- pass_history s2 (after_eval (after_train tr m) em) es';
      Ok ((m, em, plotted) :: h)
  end.

Definition step_trackers (tr : Trackers) (r : metrics * metrics * bool)
    : Trackers :=
  after_eval (after_train tr (fst (fst r))) (snd (fst r)).

Definition trackers_after (tr : Trackers) (h : list (metrics * metrics * bool))
    : Trackers :=
  fold_left step_trackers h tr.

Fixpoint run_events (args : Args) (epoch_max : Z) (save_path : string)
    (fold : Z) (tr : Trackers) (es : list Z)
    (h : list (metrics * metrics * bool)) : list event :=
  match es, h with
  | e :: es', r :: h' =>
      epoch_events args epoch_max save_path fold tr e (fst (fst r))
        (snd (fst r)) (snd r)
      ++ run_events args epoch_max save_path fold (step_trackers tr r) es' h'
  | _, _ => []
  end.

Fixpoint run_files (args : Args) (epoch_max : Z) (f : gmap string (list row))
    (es : list Z) (h : list (metrics * metrics * bool))
    : gmap string (list row) :=
  match es, h with
  | e :: es', r :: h' =>
      run_files args epoch_max
        (append_row
           (append_row f (train_log_path args epoch_max)
              (metrics_row e (fst (fst r))))
           (eval_log_path args epoch_max) (metrics_row e (snd (fst r))))
        es' h'
  | _, _ => f
  end.

Lemma run_epochs_spec (args : Args) (epoch_max : Z) (save_path : string)
    (fold : Z) (es : list Z) (s : St) (w : World) (tr : Trackers)
    (s' : St) (w' : World) (tr' : Trackers) :
  run_epochs args epoch_max save_path fold (s, w, tr) es = Ok (s', w', tr') ->
  exists h,
    pass_history s tr es = Ok h
    /\ length h = length es
    /\ tr' = trackers_after tr h
    /\ trace w' = trace w ++ run_events args epoch_max save_path fold tr es h
    /\ files w' = run_files args epoch_max (files w) es h.
Proof.
  revert s w tr. induction es as [|e es IH]; intros s w tr H.
  - inversion H; subst. exists []. simpl. rewrite app_nil_r. auto.
  - unfold Selector.run_epochs in H. simpl in H.
    apply bind_ok in H as [[[s1 w1] tr1] [Hb H]].
    apply epoch_body_spec in Hb as (s0 & m & em & pl & Ht & He & Htr & Htrace & Hf & _).
    apply IH in H as (h & Hh & Hlen & Htr' & Htrace' & Hf').
    exists ((m, em, pl) :: h). simpl. rewrite Ht. simpl. rewrite He. simpl.
    unfold step_trackers at 1. simpl. rewrite <- Htr, Hh. simpl.
    split; [reflexivity|]. split; [congruence|].
    split; [rewrite Htr', Htr; reflexivity|].
    split.
    + rewrite Htrace', Htrace, <- app_assoc. unfold step_trackers. simpl.
      rewrite <- Htr. reflexivity.
    + rewrite Hf', Hf. reflexivity.
Qed.

(** *** The trackers as running extrema *)

(** [b] is the least of [init] and the finite values of [xs]. *)
Definition is_min_of (b : num) (init : Qc) (xs : list num) : Prop :=
  exists q, b = Fin q /\ q <= init
            /\ (forall x, In (Fin x) xs -> q <= x)
            /\ (q = init \/ In (Fin q) xs).

(** [b] is the greatest of [init] and the finite values of [xs]. *)
Definition is_max_of (b : num) (init : Qc) (xs : list num) : Prop :=
  exists q, b = Fin q /\ init <= q
            /\ (forall x, In (Fin x) xs -> x <= q)
            /\ (q = init \/ In (Fin q) xs).

Definition pick_lt (b x : num) : num := if num_lt x b then x else b.
Definition pick_gt (b x : num) : num := if num_gt x b then x else b.

Lemma num_lt_true (x b : num) :
  num_lt x b = true -> exists p q, x = Fin p /\ b = Fin q /\ p < q.
Proof.
  destruct x as [p|], b as [q|]; simpl; try discriminate.
  unfold Qc_ltb. intros H. apply bool_decide_eq_true in H. eauto.
Qed.

Lemma num_lt_false_fin (p q : Qc) : num_lt (Fin p) (Fin q) = false -> q <= p.
Proof.
  simpl. unfold Qc_ltb. intros H. apply bool_decide_eq_false in H.
  apply Qcnot_lt_le. exact H.
Qed.

Lemma fold_pick_lt (xs : list num) (q0 : Qc) :
  is_min_of (fold_left pick_lt xs (Fin q0)) q0 xs.
Proof.
  revert q0. induction xs as [|x xs IH]; intros q0; simpl.
  - exists q0. repeat split; [apply Qcle_refl | intros ? [] | left; reflexivity].
  - unfold pick_lt at 2. destruct (num_lt x (Fin q0)) eqn:E.
    + apply num_lt_true in E as (p & q & -> & Hq & Hlt). inversion Hq; subst q.
      destruct (IH p) as (r & Hr & Hle & Hall & Hin).
      exists r. split; [exact Hr|]. split.
      { eapply Qcle_trans; [exact Hle | apply Qclt_le_weak, Hlt]. }
      split.
      { intros y [Hy|Hy]; [inversion Hy; subst; exact Hle | apply Hall, Hy]. }
      right. destruct Hin as [->|Hin]; [left; reflexivity | right; exact Hin].
    + destruct (IH q0) as (r & Hr & Hle & Hall & Hin).
      exists r. split; [exact Hr|]. split; [exact Hle|]. split.
      { intros y [Hy|Hy]; [|apply Hall, Hy]. subst x.
        eapply Qcle_trans; [exact Hle | apply num_lt_false_fin, E]. }
      destruct Hin as [->|Hin]; [left; reflexivity | right; right; exact Hin].
Qed.

Lemma fold_pick_gt (xs : list num) (q0 : Qc) :
  is_max_of (fold_left pick_gt xs (Fin q0)) q0 xs.
Proof.
  revert q0. induction xs as [|x xs IH]; intros q0; simpl.
  - exists q0. repeat split; [apply Qcle_refl | intros ? [] | left; reflexivity].
  - unfold pick_gt at 2. unfold num_gt. destruct (num_lt (Fin q0) x) eqn:E.
    + apply num_lt_true in E as (q & p & Hq & -> & Hlt). inversion Hq; subst q.
      destruct (IH p) as (r & Hr & Hle & Hall & Hin).
      exists r. split; [exact Hr|]. split.
      { eapply Qcle_trans; [apply Qclt_le_weak, Hlt | exact Hle]. }
      split.
      { intros y [Hy|Hy]; [inversion Hy; subst; exact Hle | apply Hall, Hy]. }
      right. destruct Hin as [->|Hin]; [left; reflexivity | right; exact Hin].
    + destruct (IH q0) as (r & Hr & Hle & Hall & Hin).
      exists r. split; [exact Hr|]. split; [exact Hle|]. split.
      { intros y [Hy|Hy]; [|apply Hall, Hy]. subst x.
        eapply Qcle_trans; [apply num_lt_false_fin, E | exact Hle]. }
      destruct Hin as [->|Hin]; [left; reflexivity | right; right; exact Hin].
Qed.

Definition train_losses (h : list (metrics * metrics * bool)) : list num :=
  map (fun r => m_loss (fst (fst r))) h.
Definition eval_losses (h : list (metrics * metrics * bool)) : list num :=
  map (fun r => m_loss (snd (fst r))) h.
Definition eval_r2s (h : list (metrics * metrics * bool)) : list num :=
  map (fun r => m_r2 (snd (fst r))) h.

Lemma step_best_loss (tr : Trackers) (r : metrics * metrics * bool) :
  best_loss (step_trackers tr r) = pick_lt (best_loss tr) (m_loss (fst (fst r))).
Proof.
  unfold step_trackers, after_eval, after_train, pick_lt.
  destruct (num_lt (m_loss (fst (fst r))) (best_loss tr)); simpl;
    repeat match goal with |- context [if ?c then _ else _] => destruct c; simpl end;
    reflexivity.
Qed.

Lemma step_best_eval_loss (tr : Trackers) (r : metrics * metrics * bool) :
  best_eval_loss (step_trackers tr r)
  = pick_lt (best_eval_loss tr) (m_loss (snd (fst r))).
Proof.
  unfold step_trackers, after_eval, after_train, pick_lt.
  destruct (num_lt (m_loss (fst (fst r))) (best_loss tr)); simpl;
    destruct (num_lt (m_loss (snd (fst r))) (best_eval_loss tr)); simpl;
    repeat match goal with |- context [if ?c then _ else _] => destruct c; simpl end;
    reflexivity.
Qed.

Lemma step_max_r2 (tr : Trackers) (r : metrics * metrics * bool) :
  max_r2 (step_trackers tr r) = pick_gt (max_r2 tr) (m_r2 (snd (fst r))).
Proof.
  unfold step_trackers, after_eval, after_train, pick_gt.
  destruct (num_lt (m_loss (fst (fst r))) (best_loss tr)); simpl;
    destruct (num_lt (m_loss (snd (fst r))) (best_eval_loss tr)); simpl;
    destruct (num_gt (m_r2 (snd (fst r))) (max_r2 tr)); simpl; reflexivity.
Qed.

Lemma trackers_after_best_loss (h : list (metrics * metrics * bool)) (tr : Trackers) :
  best_loss (trackers_after tr h) = fold_left pick_lt (train_losses h) (best_loss tr).
Proof.
  revert tr. induction h as [|r h IH]; intros tr; simpl; [reflexivity|].
  unfold trackers_after in *. simpl. rewrite IH, step_best_loss. reflexivity.
Qed.

Lemma trackers_after_best_eval_loss (h : list (metrics * metrics * bool))
    (tr : Trackers) :
  best_eval_loss (trackers_after tr h)
  = fold_left pick_lt (eval_losses h) (best_eval_loss tr).
Proof.
  revert tr. induction h as [|r h IH]; intros tr; simpl; [reflexivity|].
  unfold trackers_after in *. simpl. rewrite IH, step_best_eval_loss. reflexivity.
Qed.

Lemma trackers_after_max_r2 (h : list (metrics * metrics * bool)) (tr : Trackers) :
  max_r2 (trackers_after tr h) = fold_left pick_gt (eval_r2s h) (max_r2 tr).
Proof.
  revert tr. induction h as [|r h IH]; intros tr; simpl; [reflexivity|].
  unfold trackers_after in *. simpl. rewrite IH, step_max_r2. reflexivity.
Qed.

(** The triple the loop returns is the initial one or that of one single
    evaluation. *)
Definition triple (tr : Trackers) : num * num * num :=
  (max_r2 tr, min_mse tr, max_corr tr).

Definition eval_triple (r : metrics * metrics * bool) : num * num * num :=
  (m_r2 (snd (fst r)), m_mse (snd (fst r)), m_corr (snd (fst r))).

Lemma step_triple (tr : Trackers) (r : metrics * metrics * bool) :
  triple (step_trackers tr r)
  = if num_gt (m_r2 (snd (fst r))) (max_r2 tr) then eval_triple r else triple tr.
Proof.
  unfold step_trackers, after_eval, after_train, triple, eval_triple.
  destruct (num_lt (m_loss (fst (fst r))) (best_loss tr)); simpl;
    destruct (num_lt (m_loss (snd (fst r))) (best_eval_loss tr)); simpl;
    destruct (num_gt (m_r2 (snd (fst r))) (max_r2 tr)); simpl; reflexivity.
Qed.

Lemma trackers_after_triple (h : list (metrics * metrics * bool)) (tr : Trackers) :
  triple (trackers_after tr h) = triple tr
  \/ exists r, In r h /\ triple (trackers_after tr h) = eval_triple r.
Proof.
  revert tr. induction h as [|r h IH]; intros tr; [left; reflexivity|].
  unfold trackers_after in *. simpl.
  destruct (IH (step_trackers tr r)) as [H|(r' & Hin & H)].
  - rewrite H, step_triple.
    destruct (num_gt _ _); [right; exists r; split; [left|]; reflexivity | left; reflexivity].
  - right. exists r'. split; [right; exact Hin | exact H].
Qed.

(** The checkpoint files written by a list of events, in order. *)
Definition saved_paths (evs : list event) : list string :=
  omap (fun e => match e with EvSave p => Some p | _ => None end) evs.

Lemma saved_paths_app (l1 l2 : list event) :
  saved_paths (l1 ++ l2) = saved_paths l1 ++ saved_paths l2.
Proof. unfold saved_paths. apply omap_app. Qed.

Lemma saved_paths_saves (save_path : string) (tags : list string) :
  saved_paths (map (fun t => EvSave (checkpoint_path save_path t)) tags)
  = map (checkpoint_path save_path) tags.
Proof. induction tags as [|t tags IH]; simpl; [reflexivity | f_equal; exact IH]. Qed.

Lemma epoch_events_saved (args : Args) (epoch_max : Z) (save_path : string)
    (fold : Z) (tr : Trackers) (epoch : Z) (m em : metrics) (plotted : bool) :
  saved_paths (epoch_events args epoch_max save_path fold tr epoch m em plotted)
  = map (checkpoint_path save_path) (epoch_tags tr m em).
Proof.
  unfold epoch_events, epoch_tags.
  rewrite !saved_paths_app, saved_paths_saves.
  destruct plotted; simpl; rewrite app_nil_r; reflexivity.
Qed.

(** C2 (as the code has it). In every epoch that completes, the checkpoints
    written are: the tag [last], always; then [best_eval_loss] exactly when
    the evaluation loss is strictly below the best one so far; then [best]
    exactly when the evaluation R2 is strictly above the best one so far.
    The lowest training loss is tracked as a value only: it adds no write
    and has no tag of its own. *)
Theorem C2_epoch_checkpoints (args : Args) (epoch_max : Z) (save_path : string)
    (fold : Z) (s : St) (w : World) (tr : Trackers) (epoch : Z)
    (s' : St) (w' : World) (tr' : Trackers) :
  epoch_body args epoch_max save_path fold (s, w, tr) epoch = Ok (s', w', tr') ->
  exists s1 m em plotted new,
    train_epoch s = Ok (s1, m)
    /\ evaluate (lr_scheduler_step s1) (max_r2 tr) = Ok (s', em, plotted)
    /\ trace w' = trace w ++ new
    /\ saved_paths new
       = map (checkpoint_path save_path)
           ("last"
            :: (if num_lt (m_loss em) (best_eval_loss tr)
                then ["best_eval_loss"] else [])
            ++ (if num_gt (m_r2 em) (max_r2 tr) then ["best"] else []))
    /\ best_loss tr' = (if num_lt (m_loss m) (best_loss tr)
                        then m_loss m else best_loss tr)
    /\ best_eval_loss tr' = (if num_lt (m_loss em) (best_eval_loss tr)
                             then m_loss em else best_eval_loss tr)
    /\ max_r2 tr' = (if num_gt (m_r2 em) (max_r2 tr)
                     then m_r2 em else max_r2 tr).
Proof.
  intros H.
  apply epoch_body_spec in H as (s1 & m & em & pl & Ht & He & Htr & Htrace & _).
  exists s1, m, em, pl,
    (epoch_events args epoch_max save_path fold tr epoch m em pl).
  split; [exact Ht|]. split; [exact He|]. split; [exact Htrace|].
  split.
  { rewrite epoch_events_saved. unfold epoch_tags, eval_tags.
    rewrite after_train_max_r2.
    replace (best_eval_loss (after_train tr m)) with (best_eval_loss tr)
      by (unfold after_train; destruct (num_lt _ _); reflexivity).
    reflexivity. }
  pose proof (step_best_loss tr (m, em, pl)) as H1.
  pose proof (step_best_eval_loss tr (m, em, pl)) as H2.
  pose proof (step_max_r2 tr (m, em, pl)) as H3.
  unfold step_trackers, pick_lt, pick_gt in H1, H2, H3. simpl in H1, H2, H3.
  rewrite Htr. auto.
Qed.

(** *** The log files *)

Lemma sapp_cons (c : ascii) (a b : string) :
  String c a +:+ b = String c (a +:+ b).
Proof. reflexivity. Qed.

Lemma sapp_assoc (a b c : string) : (a +:+ b) +:+ c = a +:+ (b +:+ c).
Proof.
  induction a as [|x a IH]; [reflexivity|].
  rewrite !sapp_cons, IH. reflexivity.
Qed.

Lemma sapp_nil_r (a : string) : a +:+ "" = a.
Proof.
  induction a as [|x a IH]; [reflexivity|].
  rewrite sapp_cons, IH. reflexivity.
Qed.

Lemma sapp_inj_l (p x y : string) : p +:+ x = p +:+ y -> x = y.
Proof.
  induction p as [|c p IH]; intros H; [exact H|].
  rewrite !sapp_cons in H. injection H as H. apply IH, H.
Qed.

Definition feature_suffix (args : Args) : string :=
  (if aa args then "_aa" else "")
  +:+ (if protein args then "_protein" else "")
  +:+ (if ss args then "_ss" else "").

Lemma add_feature_suffix_eq (args : Args) (path : string) :
  add_feature_suffix args path = path +:+ feature_suffix args.
Proof.
  unfold add_feature_suffix, feature_suffix.
  destruct (aa args), (protein args), (ss args);
    rewrite ?sapp_assoc, ?sapp_nil_r; reflexivity.
Qed.

(** What [os.path.join] puts in front of its second argument. *)
Definition join_prefix (a : string) : string :=
  match a with
  | EmptyString => ""
  | _ => if ends_with_slash a then a else a +:+ "/"
  end.

Lemma os_path_join_eq (a b : string) : os_path_join a b = join_prefix a +:+ b.
Proof.
  unfold os_path_join, join_prefix. destruct a as [|c a]; [reflexivity|].
  destruct (ends_with_slash (String c a)); [reflexivity|].
  rewrite sapp_assoc. reflexivity.
Qed.

Lemma log_path_eq (args : Args) (stem : string) (epoch_max : Z) :
  log_path args stem epoch_max
  = join_prefix (output_dir args)
    +:+ ("logs/" +:+ (stem +:+ (pretty epoch_max
         +:+ (feature_suffix args +:+ ".csv")))).
Proof.
  unfold log_path. rewrite add_feature_suffix_eq, os_path_join_eq.
  rewrite !sapp_assoc. reflexivity.
Qed.

Lemma log_paths_differ (args : Args) (epoch_max : Z) :
  train_log_path args epoch_max <> eval_log_path args epoch_max.
Proof.
  unfold train_log_path, eval_log_path. rewrite !log_path_eq. intros H.
  apply sapp_inj_l, sapp_inj_l in H. rewrite !sapp_cons in H.
  discriminate H.
Qed.

Definition train_rows (es : list Z) (h : list (metrics * metrics * bool))
    : list row :=
  zip_with (fun e r => metrics_row e (fst (fst r))) es h.

Definition eval_rows (es : list Z) (h : list (metrics * metrics * bool))
    : list row :=
  zip_with (fun e r => metrics_row e (snd (fst r))) es h.

Definition content (f : gmap string (list row)) (path : string) : list row :=
  default [] (f !! path).

Lemma content_append_eq (f : gmap string (list row)) (path : string) (r : row) :
  content (append_row f path r) path = content f path ++ [r].
Proof. unfold content, append_row. rewrite lookup_insert_eq. reflexivity. Qed.

Lemma content_append_ne (f : gmap string (list row)) (p q : string) (r : row) :
  p <> q -> content (append_row f p r) q = content f q.
Proof.
  intros H. unfold content, append_row. rewrite lookup_insert_ne by exact H.
  reflexivity.
Qed.

Lemma run_files_content (args : Args) (epoch_max : Z) (es : list Z)
    (h : list (metrics * metrics * bool)) (f : gmap string (list row)) :
  content (run_files args epoch_max f es h) (train_log_path args epoch_max)
  = content f (train_log_path args epoch_max) ++ train_rows es h
  /\ content (run_files args epoch_max f es h) (eval_log_path args epoch_max)
     = content f (eval_log_path args epoch_max) ++ eval_rows es h.
Proof.
  pose proof (log_paths_differ args epoch_max) as Hne.
  revert h f. induction es as [|e es IH]; intros [|r h] f; simpl;
    rewrite ?app_nil_r; try (split; reflexivity).
  destruct (IH h (append_row
           (append_row f (train_log_path args epoch_max)
              (metrics_row e (fst (fst r))))
           (eval_log_path args epoch_max) (metrics_row e (snd (fst r)))))
    as [H1 H2].
  unfold train_rows, eval_rows in *. simpl.
  rewrite H1, H2. clear H1 H2 IH.
  rewrite content_append_ne by (intros E; apply Hne; symmetry; exact E).
  rewrite !content_append_eq.
  rewrite content_append_ne by exact Hne.
  rewrite <- !app_assoc. split; reflexivity.
Qed.

Lemma length_epochs (num_epoch : Z) : length (epochs num_epoch) = Z.to_nat num_epoch.
Proof. unfold epochs. rewrite length_map, length_seq. reflexivity. Qed.

(** C3 (as the code has it). The two CSV logs of [train_and_validate] are
    named from the output directory, the number of epochs and the feature
    suffix ([_aa], [_protein], [_ss] in this order, each present when its
    group is on) and from nothing else: the fold does not enter the name.
    A call that completes [E] epochs appends exactly [E] rows
    (epoch, loss, R2, MSE, correlation), one per epoch in order, to what each
    of the two files already holds. *)
Theorem C3_logs_appended (s : St) (w : World) (num_epoch : Z)
    (save_path : string) (args : Args) (fold : Z)
    (s' : St) (w' : World) (best : num * num * num) :
  train_and_validate s w num_epoch save_path args fold = Ok (s', w', best) ->
  exists h,
    pass_history s init_trackers (epochs num_epoch) = Ok h
    /\ length h = Z.to_nat num_epoch
    /\ content (files w') (train_log_path args num_epoch)
       = content (files w) (train_log_path args num_epoch)
         ++ train_rows (epochs num_epoch) h
    /\ length (train_rows (epochs num_epoch) h) = Z.to_nat num_epoch
    /\ content (files w') (eval_log_path args num_epoch)
       = content (files w) (eval_log_path args num_epoch)
         ++ eval_rows (epochs num_epoch) h
    /\ length (eval_rows (epochs num_epoch) h) = Z.to_nat num_epoch
    /\ train_log_path args num_epoch
       = os_path_join (output_dir args) ("logs/train_log_" +:+ pretty num_epoch)
         +:+ (if aa args then "_aa" else "")
         +:+ (if protein args then "_protein" else "")
         +:+ (if ss args then "_ss" else "") +:+ ".csv"
    /\ eval_log_path args num_epoch
       = os_path_join (output_dir args) ("logs/eval_log_" +:+ pretty num_epoch)
         +:+ (if aa args then "_aa" else "")
         +:+ (if protein args then "_protein" else "")
         +:+ (if ss args then "_ss" else "") +:+ ".csv".
Proof.
  unfold Selector.train_and_validate. intros H.
  apply bind_ok in H as [[[s1 w1] tr1] [H Hret]].
  inversion Hret; subst; clear Hret.
  apply run_epochs_spec in H as (h & Hh & Hlen & _ & _ & Hf).
  rewrite length_epochs in Hlen.
  destruct (run_files_content args num_epoch (epochs num_epoch) h (files w))
    as [H1 H2].
  exists h. split; [exact Hh|]. split; [exact Hlen|].
  rewrite Hf. split; [exact H1|].
  split; [unfold train_rows; rewrite length_zip_with, length_epochs; lia|].
  split; [exact H2|].
  split; [unfold eval_rows; rewrite length_zip_with, length_epochs; lia|].
  unfold train_log_path, eval_log_path, log_path.
  rewrite !add_feature_suffix_eq. unfold feature_suffix.
  rewrite !sapp_assoc. split; reflexivity.
Qed.

(** *** Degenerate metrics *)

Lemma num_lt_nan_l (b : num) (x : num) : is_nan x = true -> num_lt x b = false.
Proof. destruct x; [discriminate | reflexivity]. Qed.

Lemma num_gt_nan_l (b : num) (x : num) : is_nan x = true -> num_gt x b = false.
Proof. destruct x; [discriminate|]. destruct b; reflexivity. Qed.

Lemma pick_lt_not_nan (b x : num) :
  is_nan b = false -> is_nan (pick_lt b x) = false.
Proof.
  intros Hb. unfold pick_lt. destruct (num_lt x b) eqn:E; [|exact Hb].
  apply num_lt_true in E as (p & q & -> & _). reflexivity.
Qed.

Lemma pick_gt_not_nan (b x : num) :
  is_nan b = false -> is_nan (pick_gt b x) = false.
Proof.
  intros Hb. unfold pick_gt, num_gt. destruct (num_lt b x) eqn:E; [|exact Hb].
  apply num_lt_true in E as (p & q & _ & -> & _). reflexivity.
Qed.

(** C4 (as the code has it). The loop has no guard of its own for
    degenerate metrics.  An exception of either pass ends the epoch, and
    with it the run.  When both passes return, a NaN training loss,
    evaluation loss or evaluation R2 is never an improvement: the
    comparison is false, the tracker of that criterion keeps its value, its
    checkpoint is not written, and none of the three compared trackers
    becomes NaN.  The MSE and the correlation that come with an improving
    R2 are stored as they are. *)
Theorem C4_nan_is_no_improvement (args : Args) (epoch_max : Z)
    (save_path : string) (fold : Z) (s : St) (w : World) (tr : Trackers)
    (epoch : Z) :
  (forall ex, train_epoch s = Raise ex ->
     epoch_body args epoch_max save_path fold (s, w, tr) epoch = Raise ex)
  /\ (forall s1 m ex,
        train_epoch s = Ok (s1, m) ->
        evaluate (lr_scheduler_step s1) (max_r2 tr) = Raise ex ->
        epoch_body args epoch_max save_path fold (s, w, tr) epoch = Raise ex)
  /\ (forall s' w' tr',
        epoch_body args epoch_max save_path fold (s, w, tr) epoch
        = Ok (s', w', tr') ->
        exists s1 m em plotted new,
          train_epoch s = Ok (s1, m)
          /\ evaluate (lr_scheduler_step s1) (max_r2 tr) = Ok (s', em, plotted)
          /\ trace w' = trace w ++ new
          /\ saved_paths new
             = map (checkpoint_path save_path) (epoch_tags tr m em)
          /\ (is_nan (m_loss m) = true -> best_loss tr' = best_loss tr)
          /\ (is_nan (m_loss em) = true ->
              best_eval_loss tr' = best_eval_loss tr
              /\ ~ In "best_eval_loss" (epoch_tags tr m em))
          /\ (is_nan (m_r2 em) = true ->
              triple tr' = triple tr /\ ~ In "best" (epoch_tags tr m em))
          /\ (num_gt (m_r2 em) (max_r2 tr) = true ->
              min_mse tr' = m_mse em /\ max_corr tr' = m_corr em)
          /\ (is_nan (best_loss tr) = false -> is_nan (best_loss tr') = false)
          /\ (is_nan (best_eval_loss tr) = false ->
              is_nan (best_eval_loss tr') = false)
          /\ (is_nan (max_r2 tr) = false -> is_nan (max_r2 tr') = false)).
Proof.
  split; [|split].
  - intros ex H. unfold Selector.epoch_body. rewrite H. reflexivity.
  - intros s1 m ex Ht He. unfold Selector.epoch_body. rewrite Ht. simpl.
    destruct m as [[[l r] e] c]. unfold epoch_val. rewrite Z.mod_1_r. simpl.
    replace (max_r2 (if num_lt l (best_loss tr) then _ else tr)) with (max_r2 tr)
      by (destruct (num_lt l (best_loss tr)); reflexivity).
    rewrite He. reflexivity.
  - intros s' w' tr' H.
    apply epoch_body_spec in H as (s1 & m & em & pl & Ht & He & Htr & Htrace & _).
    exists s1, m, em, pl,
      (epoch_events args epoch_max save_path fold tr epoch m em pl).
    split; [exact Ht|]. split; [exact He|]. split; [exact Htrace|].
    split; [apply epoch_events_saved|].
    pose proof (step_best_loss tr (m, em, pl)) as H1.
    pose proof (step_best_eval_loss tr (m, em, pl)) as H2.
    pose proof (step_max_r2 tr (m, em, pl)) as H3.
    pose proof (step_triple tr (m, em, pl)) as H4.
    unfold step_trackers in H1, H2, H3, H4. simpl in H1, H2, H3, H4.
    rewrite <- Htr in H1, H2, H3, H4.
    assert (Hbe : best_eval_loss (after_train tr m) = best_eval_loss tr)
      by (unfold after_train; destruct (num_lt _ _); reflexivity).
    split.
    { intros Hn. rewrite H1. unfold pick_lt.
      rewrite (num_lt_nan_l _ _ Hn). reflexivity. }
    split.
    { intros Hn. split.
      - rewrite H2. unfold pick_lt. rewrite (num_lt_nan_l _ _ Hn). reflexivity.
      - unfold epoch_tags, eval_tags. rewrite Hbe, (num_lt_nan_l _ _ Hn).
        simpl.
        destruct (num_gt (m_r2 em) (max_r2 (after_train tr m))); simpl;
          intuition congruence. }
    split.
    { intros Hn. split.
      - rewrite H4, (num_gt_nan_l _ _ Hn). reflexivity.
      - unfold epoch_tags, eval_tags.
        rewrite after_train_max_r2, (num_gt_nan_l _ _ Hn), app_nil_r.
        destruct (num_lt (m_loss em) (best_eval_loss (after_train tr m)));
          simpl; intuition congruence. }
    split.
    { intros Hgt. rewrite Hgt in H4. unfold triple, eval_triple in H4.
      simpl in H4. inversion H4. split; reflexivity. }
    split; [intros Hb; rewrite H1; apply pick_lt_not_nan, Hb|].
    split; [intros Hb; rewrite H2; apply pick_lt_not_nan, Hb|].
    intros Hb; rewrite H3; apply pick_gt_not_nan, Hb.
Qed.

(** *** The best checkpoint along a run *)

Lemma checkpoint_path_eq (save_path name : string) :
  checkpoint_path save_path name
  = join_prefix save_path +:+ ("pytorch_model_P" +:+ (name +:+ ".pth")).
Proof. unfold checkpoint_path. rewrite os_path_join_eq. reflexivity. Qed.

(** The three tags name three different files. *)
Lemma tag_paths_differ (save_path : string) :
  checkpoint_path save_path "last" <> checkpoint_path save_path "best"
  /\ checkpoint_path save_path "last"
     <> checkpoint_path save_path "best_eval_loss"
  /\ checkpoint_path save_path "best"
     <> checkpoint_path save_path "best_eval_loss".
Proof.
  rewrite !checkpoint_path_eq.
  repeat split; intros H; apply sapp_inj_l in H; discriminate H.
Qed.

Lemma foldl_insert_other (save_path : string) (v : StateDict)
    (tags : list string) (c : gmap string StateDict) (path : string) :
  (forall t, In t tags -> checkpoint_path save_path t <> path) ->
  foldl (fun c t => <[checkpoint_path save_path t := v]> c) c tags !! path
  = c !! path.
Proof.
  revert c. induction tags as [|t tags IH]; intros c H; simpl; [reflexivity|].
  rewrite IH by (intros t' Ht'; apply H; right; exact Ht').
  apply lookup_insert_ne. apply H. left. reflexivity.
Qed.

(** The file of tag [best] holds the parameters returned by an evaluation
    whose R2, MSE and correlation are the triple of the trackers. *)
Definition best_from_eval (save_path : string) (w : World) (tr : Trackers)
    : Prop :=
  exists s0 mx s em plotted,
    evaluate s0 mx = Ok (s, em, plotted)
    /\ checkpoints w !! checkpoint_path save_path "best" = Some (state_dict s)
    /\ triple tr = (m_r2 em, m_mse em, m_corr em).

(** Neither the triple nor the file of tag [best] has changed. *)
Definition best_unchanged (save_path : string) (w : World) (tr : Trackers)
    (w' : World) (tr' : Trackers) : Prop :=
  triple tr' = triple tr
  /\ checkpoints w' !! checkpoint_path save_path "best"
     = checkpoints w !! checkpoint_path save_path "best".

Lemma epoch_best (args : Args) (epoch_max : Z) (save_path : string) (fold : Z)
    (s : St) (w : World) (tr : Trackers) (epoch : Z)
    (s' : St) (w' : World) (tr' : Trackers) :
  epoch_body args epoch_max save_path fold (s, w, tr) epoch = Ok (s', w', tr') ->
  best_unchanged save_path w tr w' tr' \/ best_from_eval save_path w' tr'.
Proof.
  intros H.
  apply epoch_body_spec in H
    as (s1 & m & em & pl & _ & He & Htr & _ & _ & Hc).
  destruct (tag_paths_differ save_path) as (D1 & D2 & D3).
  assert (Hmax : max_r2 (if num_lt (m_loss em) (best_eval_loss (after_train tr m))
                         then mkTrackers (max_r2 (after_train tr m))
                                (min_mse (after_train tr m))
                                (max_corr (after_train tr m))
                                (best_loss (after_train tr m)) (m_loss em)
                         else after_train tr m) = max_r2 tr)
    by (destruct (num_lt (m_loss em) _); apply after_train_max_r2).
  destruct (num_gt (m_r2 em) (max_r2 tr)) eqn:G.
  - right. exists (lr_scheduler_step s1), (max_r2 tr), s', em, pl.
    split; [exact He|]. split.
    + rewrite Hc. unfold eval_tags. rewrite after_train_max_r2, G.
      rewrite foldl_app. simpl. apply lookup_insert_eq.
    + rewrite Htr. unfold after_eval. rewrite Hmax, G. reflexivity.
  - left. split.
    + rewrite Htr. unfold after_eval. rewrite Hmax, G. unfold triple.
      destruct (num_lt (m_loss em) _); simpl; unfold after_train;
        destruct (num_lt (m_loss m) _); reflexivity.
    + rewrite Hc. unfold eval_tags. rewrite after_train_max_r2, G, app_nil_r.
      rewrite foldl_insert_other.
      * apply lookup_insert_ne. exact D1.
      * intros t Hin E.
        destruct (num_lt (m_loss em) _); simpl in Hin; [|destruct Hin].
        destruct Hin as [<-|[]]. apply D3. symmetry. exact E.
Qed.

Lemma run_best (args : Args) (epoch_max : Z) (save_path : string) (fold : Z)
    (es : list Z) (s : St) (w : World) (tr : Trackers)
    (s' : St) (w' : World) (tr' : Trackers) :
  run_epochs args epoch_max save_path fold (s, w, tr) es = Ok (s', w', tr') ->
  best_unchanged save_path w tr w' tr' \/ best_from_eval save_path w' tr'.
Proof.
  revert s w tr. induction es as [|e es IH]; intros s w tr H.
  - inversion H; subst. left. split; reflexivity.
  - unfold Selector.run_epochs in H. simpl in H.
    apply bind_ok in H as [[[s1 w1] tr1] [Hb H]].
    apply epoch_best in Hb. apply IH in H as [[T C]|H]; [|right; exact H].
    destruct Hb as [[T1 C1]|(s0 & mx & s2 & em & pl & He & Hc & Ht)].
    + left. split; [rewrite T; exact T1 | rewrite C; exact C1].
    + right. exists s0, mx, s2, em, pl.
      split; [exact He|]. split; [rewrite C; exact Hc | rewrite T; exact Ht].
Qed.

Lemma run_epochs_split (args : Args) (epoch_max : Z) (save_path : string)
    (fold : Z) (es : list Z) (k : nat) (e : Z)
    (st st' : St * World * Trackers) :
  run_epochs args epoch_max save_path fold st es = Ok st' ->
  es !! k = Some e ->
  exists st1 st2,
    run_epochs args epoch_max save_path fold st (take k es) = Ok st1
    /\ epoch_body args epoch_max save_path fold st1 e = Ok st2
    /\ run_epochs args epoch_max save_path fold st2 (drop (S k) es) = Ok st'
    /\ run_epochs args epoch_max save_path fold st (take (S k) es) = Ok st2.
Proof.
  intros H Hk. unfold Selector.run_epochs in *.
  rewrite <- (take_drop_middle es k e Hk) in H.
  rewrite foldM_app in H. apply bind_ok in H as (st1 & H1 & H).
  simpl in H. apply bind_ok in H as (st2 & H2 & H).
  exists st1, st2. split; [exact H1|]. split; [exact H2|]. split; [exact H|].
  rewrite (take_S_r es k e Hk), foldM_app, H1. simpl. rewrite H2. reflexivity.
Qed.

(** After a run from the initial trackers, each of the three compared
    trackers is the best of its sentinel and the finite values of its
    criterion in the history of the run. *)
Lemma running_best (args : Args) (epoch_max : Z) (save_path : string)
    (fold : Z) (es : list Z) (s : St) (w : World)
    (s' : St) (w' : World) (tr' : Trackers) :
  run_epochs args epoch_max save_path fold (s, w, init_trackers) es
  = Ok (s', w', tr') ->
  exists h,
    pass_history s init_trackers es = Ok h
    /\ length h = length es
    /\ is_min_of (best_loss tr') sentinel (train_losses h)
    /\ is_min_of (best_eval_loss tr') sentinel (eval_losses h)
    /\ is_max_of (max_r2 tr') (- sentinel) (eval_r2s h)
    /\ (triple tr' = triple init_trackers
        \/ exists r, In r h /\ triple tr' = eval_triple r).
Proof.
  intros H.
  apply run_epochs_spec in H as (h & Hh & Hlen & Htr & _).
  exists h. split; [exact Hh|]. split; [exact Hlen|]. subst tr'.
  split; [rewrite trackers_after_best_loss; apply fold_pick_lt|].
  split; [rewrite trackers_after_best_eval_loss; apply fold_pick_lt|].
  split; [rewrite trackers_after_max_r2; apply fold_pick_gt|].
  apply trackers_after_triple.
Qed.

(** One epoch and the checkpoint of tag [best]: an evaluation whose R2 is
    strictly above the running maximum replaces the triple by its own and
    saves the file, which then holds the parameters the evaluation
    returned; any other evaluation leaves the triple and the file alone. *)
Lemma epoch_best_saved (args : Args) (epoch_max : Z) (save_path : string)
    (fold : Z) (s : St) (w : World) (tr : Trackers) (epoch : Z)
    (s' : St) (w' : World) (tr' : Trackers) :
  epoch_body args epoch_max save_path fold (s, w, tr) epoch = Ok (s', w', tr') ->
  exists s1 m em plotted new,
    train_epoch s = Ok (s1, m)
    /\ evaluate (lr_scheduler_step s1) (max_r2 tr) = Ok (s', em, plotted)
    /\ trace w' = trace w ++ new
    /\ (num_gt (m_r2 em) (max_r2 tr) = true ->
        triple tr' = (m_r2 em, m_mse em, m_corr em)
        /\ In (EvSave (checkpoint_path save_path "best")) new
        /\ checkpoints w' !! checkpoint_path save_path "best"
           = Some (state_dict s'))
    /\ (num_gt (m_r2 em) (max_r2 tr) = false ->
        triple tr' = triple tr
        /\ ~ In (EvSave (checkpoint_path save_path "best")) new
        /\ checkpoints w' !! checkpoint_path save_path "best"
           = checkpoints w !! checkpoint_path save_path "best").
Proof.
  intros H.
  apply epoch_body_spec in H
    as (s1 & m & em & pl & Ht & He & Htr & Htrace & _ & Hc).
  destruct (tag_paths_differ save_path) as (D1 & D2 & D3).
  pose proof (step_triple tr (m, em, pl)) as Htri.
  unfold step_trackers in Htri. simpl in Htri. rewrite <- Htr in Htri.
  exists s1, m, em, pl,
    (epoch_events args epoch_max save_path fold tr epoch m em pl).
  split; [exact Ht|]. split; [exact He|]. split; [exact Htrace|].
  split; intros G; rewrite G in Htri.
  - split; [exact Htri|]. split.
    + unfold epoch_events, eval_tags. rewrite after_train_max_r2, G.
      rewrite !in_app_iff. do 3 right. left.
      apply (in_map (fun t => EvSave (checkpoint_path save_path t))).
      apply in_or_app. right. left. reflexivity.
    + rewrite Hc. unfold eval_tags. rewrite after_train_max_r2, G.
      rewrite foldl_app. simpl. apply lookup_insert_eq.
  - split; [exact Htri|]. split.
    + unfold epoch_events, eval_tags. rewrite after_train_max_r2, G, app_nil_r.
      rewrite !in_app_iff. intros [Hin|[Hin|[Hin|[Hin|Hin]]]].
      * simpl in Hin.
        destruct Hin as [Hin|[Hin|[Hin|[Hin|[]]]]]; try discriminate Hin.
        injection Hin as Hin. apply D1, Hin.
      * destruct pl; simpl in Hin; [|destruct Hin].
        destruct Hin as [Hin|[]]. discriminate Hin.
      * destruct Hin as [Hin|[]]. discriminate Hin.
      * apply in_map_iff in Hin as (t & Hp & Hin). injection Hp as Hp.
        destruct (num_lt (m_loss em) _); simpl in Hin; [|destruct Hin].
        destruct Hin as [<-|[]]. apply D3. symmetry. exact Hp.
      * destruct Hin as [Hin|[]]. discriminate Hin.
    + rewrite Hc. unfold eval_tags. rewrite after_train_max_r2, G, app_nil_r.
      rewrite foldl_insert_other.
      * apply lookup_insert_ne. exact D1.
      * intros t Hin E.
        destruct (num_lt (m_loss em) _); simpl in Hin; [|destruct Hin].
        destruct Hin as [<-|[]]. apply D3. symmetry. exact E.
Qed.

(** C5 (as the code has it). The trackers start at the finite sentinels
    -1e8 (R2) and +1e8 (both losses).  After a run of any number of
    completed epochs, and after every epoch on the way, each of them is the
    best of its sentinel and the finite values of its criterion seen so
    far (least training loss, least evaluation loss, greatest evaluation
    R2).  In every epoch of the run, an evaluation whose R2 is strictly
    above the running maximum replaces the triple (R2, MSE, correlation)
    by its own, all three together, and saves the checkpoint of tag
    [best]: the save is among the events of that epoch and the file then
    holds the parameters that evaluation returned; an evaluation that is
    not above the maximum leaves the triple and the file as they were.  At
    the end the triple and the file are both untouched or both from one
    and the same evaluation. *)
Theorem C5_trackers_running_best (args : Args) (epoch_max : Z)
    (save_path : string) (fold : Z) (es : list Z) (s : St) (w : World)
    (s' : St) (w' : World) (tr' : Trackers) :
  run_epochs args epoch_max save_path fold (s, w, init_trackers) es
  = Ok (s', w', tr') ->
  init_trackers
  = mkTrackers (Fin (- Qc_of_Z 100000000)) (Fin (Qc_of_Z 100000000))
      (Fin (- Qc_of_Z 100000000)) (Fin (Qc_of_Z 100000000))
      (Fin (Qc_of_Z 100000000))
  /\ (exists h,
        pass_history s init_trackers es = Ok h
        /\ length h = length es
        /\ is_min_of (best_loss tr') sentinel (train_losses h)
        /\ is_min_of (best_eval_loss tr') sentinel (eval_losses h)
        /\ is_max_of (max_r2 tr') (- sentinel) (eval_r2s h)
        /\ (triple tr' = triple init_trackers
            \/ exists r, In r h /\ triple tr' = eval_triple r))
  /\ (forall k e,
        es !! k = Some e ->
        exists s1 w1 tr1 s2 w2 tr2 sm m em plotted new h2,
          run_epochs args epoch_max save_path fold (s, w, init_trackers)
            (take k es)
          = Ok (s1, w1, tr1)
          /\ epoch_body args epoch_max save_path fold (s1, w1, tr1) e
             = Ok (s2, w2, tr2)
          /\ run_epochs args epoch_max save_path fold (s2, w2, tr2)
               (drop (S k) es)
             = Ok (s', w', tr')
          /\ train_epoch s1 = Ok (sm, m)
          /\ evaluate (lr_scheduler_step sm) (max_r2 tr1) = Ok (s2, em, plotted)
          /\ pass_history s init_trackers (take (S k) es) = Ok h2
          /\ is_min_of (best_loss tr2) sentinel (train_losses h2)
          /\ is_min_of (best_eval_loss tr2) sentinel (eval_losses h2)
          /\ is_max_of (max_r2 tr2) (- sentinel) (eval_r2s h2)
          /\ trace w2 = trace w1 ++ new
          /\ (num_gt (m_r2 em) (max_r2 tr1) = true ->
              triple tr2 = (m_r2 em, m_mse em, m_corr em)
              /\ In (EvSave (checkpoint_path save_path "best")) new
              /\ checkpoints w2 !! checkpoint_path save_path "best"
                 = Some (state_dict s2))
          /\ (num_gt (m_r2 em) (max_r2 tr1) = false ->
              triple tr2 = triple tr1
              /\ ~ In (EvSave (checkpoint_path save_path "best")) new
              /\ checkpoints w2 !! checkpoint_path save_path "best"
                 = checkpoints w1 !! checkpoint_path save_path "best"))
  /\ ((triple tr' = triple init_trackers
       /\ checkpoints w' !! checkpoint_path save_path "best"
          = checkpoints w !! checkpoint_path save_path "best")
      \/ (exists s0 mx sb em plotted,
            evaluate s0 mx = Ok (sb, em, plotted)
            /\ checkpoints w' !! checkpoint_path save_path "best"
               = Some (state_dict sb)
            /\ triple tr' = (m_r2 em, m_mse em, m_corr em))).
Proof.
  intros H. split; [reflexivity|].
  split; [apply (running_best _ _ _ _ _ _ _ _ _ _ H)|]. split.
  - intros k e Hk.
    destruct (run_epochs_split _ _ _ _ _ _ _ _ _ H Hk)
      as ([[s1 w1] tr1] & [[s2 w2] tr2] & Hpre & Hbody & Hpost & Hupto).
    destruct (epoch_best_saved _ _ _ _ _ _ _ _ _ _ _ Hbody)
      as (sm & m & em & pl & new & Ht & He & Htrace & Hyes & Hno).
    destruct (running_best _ _ _ _ _ _ _ _ _ _ Hupto)
      as (h2 & Hh2 & _ & B1 & B2 & B3 & _).
    exists s1, w1, tr1, s2, w2, tr2, sm, m, em, pl, new, h2.
    repeat (split; [assumption|]). exact Hno.
  - apply run_best in H as [[T C]|Hb]; [left; split; assumption|].
    right. exact Hb.
Qed.

End Loop.
End SelectorProps.

Module OrchestratorProps.
Import Tensor Loss Head Selector Orchestrator ResProps SelectorProps.

Section Main.
Variable Encoder : Type.
Variable calm_representations : Encoder -> list (list Z) -> tensor3.
Variable bert_last_hidden :
  Encoder -> list (list Z) -> list (list Z) -> list (list Z) -> tensor3.
Variable r2_score : list Qc -> list Qc -> res num.
Variable mean_squared_error : list Qc -> list Qc -> res num.
Variable pearsonr : list Qc -> list Qc -> res num.
Variable Optimizer : Type.
Variable optimizer_step :
  CodenBert Encoder -> Optimizer -> Batch -> option tensor3 ->
  CodenBert Encoder * Optimizer.
Variable Rng : Type.
Variable load_encoder : Args -> Encoder.
Variable encoder_hidden_size : Encoder -> nat.
Variable Linear_init : nat -> nat -> Rng -> Linear * Rng.
Variable AdamW : CodenBert Encoder -> Qc -> Optimizer.
Variable Scheduler : Type.
Variable CosineAnnealingLR : Optimizer -> Z -> Qc -> Scheduler.
Variable scheduler_step : Scheduler -> Optimizer -> Scheduler * Optimizer.
Variable Item : Type.
Variable GeneSequenceDataset : string -> res (list Item).
Variable collate : list Item -> Batch.
Variable shuffle : Rng -> list Item -> list Item * Rng.

Abbreviation Model := (CodenBert Encoder).
Abbreviation FoldState := (FoldState Encoder Optimizer Rng Scheduler).
Abbreviation DataLoader := (DataLoader Item).
Abbreviation fold_body :=
  (fold_body Encoder calm_representations bert_last_hidden r2_score
     mean_squared_error pearsonr Optimizer optimizer_step Rng load_encoder
     encoder_hidden_size Linear_init AdamW Scheduler CosineAnnealingLR
     scheduler_step Item GeneSequenceDataset collate shuffle).
Abbreviation main :=
  (main Encoder calm_representations bert_last_hidden r2_score
     mean_squared_error pearsonr Optimizer optimizer_step Rng load_encoder
     encoder_hidden_size Linear_init AdamW Scheduler CosineAnnealingLR
     scheduler_step Item GeneSequenceDataset collate shuffle).
Abbreviation eval_pass :=
  (eval_pass Encoder calm_representations bert_last_hidden r2_score
     mean_squared_error pearsonr Optimizer Rng Scheduler Item collate shuffle).
Abbreviation iter_loader := (iter_loader Rng Item collate shuffle).

Abbreviation train_pass :=
  (train_pass Encoder calm_representations bert_last_hidden r2_score
     mean_squared_error pearsonr Optimizer optimizer_step Rng Scheduler Item
     collate shuffle).
Abbreviation schedule_pass :=
  (schedule_pass Encoder Optimizer Rng Scheduler scheduler_step).
Abbreviation CodenBert_init :=
  (CodenBert_init Encoder Rng encoder_hidden_size Linear_init).

Definition history : Type := list (metrics * metrics * bool).

Definition best_of (h : history) : num * num * num :=
  triple (trackers_after init_trackers h).

(** The events of one fold, given the results of its passes. *)
Definition fold_events (args : Args) (i : Z) (h : history) : list event :=
  [EvLoadEncoder (calm args); EvNewModel (i + 1);
   EvLoadData (fold_file args i "train") (fold_file args i "test");
   EvNewOptimizer (learning_rate args);
   EvNewScheduler (num_train_epochs args) (lr_min args)]
  ++ run_events args (num_train_epochs args) (fold_save_path args i) (i + 1)
       init_trackers (epochs (num_train_epochs args)) h
  ++ [EvCsvRow (best_result_path args)
        [CInt (i + 1); CNum (fst (fst (best_of h)));
         CNum (snd (fst (best_of h))); CNum (snd (best_of h))]].

(** The objects a fold starts from, the sampler being in state [rng]: an
    encoder loaded anew, a head with one output built on it from fresh
    layers, an AdamW optimizer on that head at the learning rate, a cosine
    schedule on that optimizer over the number of epochs with floor
    [lr_min], and a new loss object. *)
Definition fold_start (args : Args) (rng : Rng) : FoldState :=
  let built :=
    CodenBert_init (load_encoder args) 1 (additional_feature_dim args) args
      rng in
  let optimizer := AdamW (fst built) (learning_rate args) in
  mkFoldState Encoder Optimizer Rng Scheduler (fst built) optimizer
    (CosineAnnealingLR optimizer (num_train_epochs args) (lr_min args))
    HuberLoss_init (snd built).

(** One step of the schedule: the scheduler and the optimizer it drives
    become what [scheduler.step()] makes of them; the head, the loss object
    and the sampler are left alone. *)
Definition stepped (st : FoldState) : FoldState :=
  let r :=
    scheduler_step (fs_scheduler Encoder Optimizer Rng Scheduler st)
      (fs_optimizer Encoder Optimizer Rng Scheduler st) in
  mkFoldState Encoder Optimizer Rng Scheduler
    (fs_model Encoder Optimizer Rng Scheduler st) (snd r) (fst r)
    (fs_loss Encoder Optimizer Rng Scheduler st)
    (fs_rng Encoder Optimizer Rng Scheduler st).

(** Fold [i], started with the sampler in state [rng], has the pass
    results [h]: its two files load, the training loader shuffles them in
    batches of [batch_size] and the evaluation loader takes them one by
    one in order, and [h] is what the passes return epoch after epoch when
    they start from [fold_start] and each epoch is a training pass, then
    one step of the schedule, then the evaluation on the stepped state, the
    next epoch going on from the state the evaluation left. *)
Definition fold_run (args : Args) (i : Z) (rng : Rng) (h : history) : Prop :=
  exists train_dataset test_dataset train_loader test_loader,
    GeneSequenceDataset (fold_file args i "train") = Ok train_dataset
    /\ GeneSequenceDataset (fold_file args i "test") = Ok test_dataset
    /\ DataLoader_init Item train_dataset (batch_size args) true
       = Ok train_loader
    /\ DataLoader_init Item test_dataset 1 false = Ok test_loader
    /\ pass_history FoldState (train_pass args train_loader)
         (eval_pass args test_loader) stepped (fold_start args rng)
         init_trackers (epochs (num_train_epochs args))
       = Ok h.

Lemma schedule_pass_stepped (st : FoldState) : schedule_pass st = stepped st.
Proof.
  unfold Orchestrator.schedule_pass, stepped.
  destruct (scheduler_step _ _) as [sch opt]. reflexivity.
Qed.

Lemma pass_history_ext (St : Type) (train_epoch : St -> res (St * metrics))
    (evaluate : St -> num -> res (St * metrics * bool)) (f g : St -> St)
    (es : list Z) (s : St) (tr : Trackers) :
  (forall x, f x = g x) ->
  pass_history St train_epoch evaluate f s tr es
  = pass_history St train_epoch evaluate g s tr es.
Proof.
  intros Hfg. revert s tr. induction es as [|e es IH]; intros s tr; simpl;
    [reflexivity|].
  destruct (train_epoch s) as [[s1 m]|ex]; simpl; [|reflexivity].
  rewrite Hfg.
  destruct (evaluate (g s1) (max_r2 tr)) as [[[s2 em] pl]|ex]; simpl;
    [|reflexivity].
  rewrite IH. reflexivity.
Qed.

Lemma load_dataset_checked (enabled : bool) (file : string)
    (o : option (list Item)) (d : list Item) :
  load_dataset Item GeneSequenceDataset enabled file = Ok o ->
  checked_len Item o = Ok d ->
  enabled = true /\ GeneSequenceDataset file = Ok d.
Proof.
  unfold load_dataset, checked_len. destruct enabled.
  - intros H. apply bind_ok in H as (d0 & Hd & H). inversion H; subst.
    intros H'. inversion H'; subst. split; [reflexivity | exact Hd].
  - intros H. inversion H; subst. discriminate.
Qed.

Lemma fold_body_spec (args : Args) (rng : Rng) (w : World Model) (sc : Scores)
    (i : Z) (rng' : Rng) (w' : World Model) (sc' : Scores) :
  fold_body args (rng, w, sc) i = Ok (rng', w', sc') ->
  exists h : history,
    length h = Z.to_nat (num_train_epochs args)
    /\ trace w' = trace w ++ fold_events args i h
    /\ s_r2_list sc' = s_r2_list sc ++ [fst (fst (best_of h))]
    /\ s_mse_list sc' = s_mse_list sc ++ [snd (fst (best_of h))]
    /\ s_corr_list sc' = s_corr_list sc ++ [snd (best_of h)]
    /\ fold_run args i rng h.
Proof.
  unfold Orchestrator.fold_body. intros H.
  destruct (CodenBert_init _ _ _ _ _) as [model rng1] eqn:Em.
  apply bind_ok in H as (train_o & Ltrain & H).
  apply bind_ok in H as (test_o & Ltest & H).
  apply bind_ok in H as (train_ds & Ctrain & H).
  apply bind_ok in H as (test_ds & Ctest & H).
  apply bind_ok in H as (train_loader & Dtrain & H).
  apply bind_ok in H as (test_loader & Dtest & H).
  apply bind_ok in H as ([[fs w1] [[r2 mse] corr]] & Htv & H).
  inversion H; subst; clear H.
  destruct (load_dataset_checked _ _ _ _ Ltrain Ctrain) as [_ Gtrain].
  destruct (load_dataset_checked _ _ _ _ Ltest Ctest) as [_ Gtest].
  unfold Selector.train_and_validate in Htv.
  apply bind_ok in Htv as ([[fs1 w2] tr] & Hrun & Hret).
  inversion Hret; subst; clear Hret.
  apply run_epochs_spec in Hrun as (h & Hh & Hlen & Htr & Htrace & _).
  rewrite length_epochs in Hlen.
  exists h. split; [exact Hlen|].
  unfold best_of, triple. rewrite <- Htr. simpl.
  split.
  { rewrite Htrace. unfold fold_events, best_of, triple. rewrite <- Htr. simpl.
    rewrite <- !app_assoc. simpl. reflexivity. }
  split; [reflexivity|]. split; [reflexivity|]. split; [reflexivity|].
  exists train_ds, test_ds, train_loader, test_loader.
  split; [exact Gtrain|]. split; [exact Gtest|].
  split; [exact Dtrain|]. split; [exact Dtest|].
  rewrite <- (pass_history_ext _ _ _ _ _ _ _ _ schedule_pass_stepped).
  unfold fold_start. rewrite Em. exact Hh.
Qed.

Lemma folds_spec (args : Args) (idx : list Z) (rng : Rng) (w : World Model)
    (sc : Scores) (rng' : Rng) (w' : World Model) (sc' : Scores) :
  foldM (fold_body args) (rng, w, sc) idx = Ok (rng', w', sc') ->
  exists (hs : list history) (rngs : list Rng),
    length hs = length idx
    /\ Forall (fun h => length h = Z.to_nat (num_train_epochs args)) hs
    /\ trace w' = trace w ++ concat (zip_with (fold_events args) idx hs)
    /\ s_r2_list sc' = s_r2_list sc ++ map (fun h => fst (fst (best_of h))) hs
    /\ s_mse_list sc' = s_mse_list sc ++ map (fun h => snd (fst (best_of h))) hs
    /\ s_corr_list sc' = s_corr_list sc ++ map (fun h => snd (best_of h)) hs
    /\ length rngs = length idx
    /\ head rngs = head (map (fun _ => rng) idx)
    /\ (forall k i r h,
          idx !! k = Some i -> rngs !! k = Some r -> hs !! k = Some h ->
          fold_run args i r h).
Proof.
  revert rng w sc. induction idx as [|i idx IH]; intros rng w sc H.
  - inversion H; subst. exists [], []. simpl. rewrite !app_nil_r.
    repeat split; try reflexivity; [constructor|].
    intros k i r h Hk. destruct k; discriminate Hk.
  - simpl in H. apply bind_ok in H as ([[rng1 w1] sc1] & Hb & H).
    apply fold_body_spec in Hb as (h & Hlen & Htrace & H1 & H2 & H3 & Hrun).
    apply IH in H
      as (hs & rngs & Hlens & Hall & Htrace' & H1' & H2' & H3' & Hr & _ & Hruns).
    exists (h :: hs), (rng :: rngs). cbn [zip_with concat map length head].
    split; [congruence|]. split; [constructor; assumption|].
    rewrite Htrace', Htrace, H1', H1, H2', H2, H3', H3.
    rewrite <- !app_assoc.
    split; [reflexivity|]. split; [reflexivity|]. split; [reflexivity|].
    split; [reflexivity|]. split; [congruence|]. split; [reflexivity|].
    intros [|k] i0 r0 h0 Hi Hrr Hh; simpl in Hi, Hrr, Hh.
    + inversion Hi; inversion Hrr; inversion Hh; subst. exact Hrun.
    + apply (Hruns k i0 r0 h0 Hi Hrr Hh).
Qed.

Definition is_scheduler_step (e : event) : bool :=
  match e with EvSchedulerStep => true | _ => false end.

(** C9. A run of [main] that completes went through exactly the ten folds
    0..9.  Every fold starts from objects of its own, built anew: the
    encoder is loaded, the head is built on it, an AdamW optimizer is made
    for that head at the learning rate and a cosine schedule for that
    optimizer over the number of epochs with floor [lr_min]
    ([fold_start]); its files are those of its index; and its epochs are,
    each, the training pass, then one step of the schedule, which changes
    the scheduler and the optimizer and nothing else ([stepped]), then the
    evaluation on the stepped state ([fold_run]).  The events of the run
    are those of the folds one after the other, each fold ending with its
    row (fold, best R2, paired MSE, paired correlation) appended to the
    summary file, and in the events of an epoch the one step of the
    schedule comes right after the training pass and before the
    evaluation.  The three numbers reported are the means [sum / len] over
    the ten folds. *)
Theorem C9_ten_folds (args0 : Args) (rng : Rng) (w w' : World Model)
    (average_r2 average_mse average_corr : num) :
  main args0 rng w = Ok (w', (average_r2, average_mse, average_corr)) ->
  let args := set_use_additional_feature args0 in
  folds = [0; 1; 2; 3; 4; 5; 6; 7; 8; 9]%Z
  /\ exists (hs : list history) (rngs : list Rng),
       length hs = 10%nat
       /\ Forall (fun h => length h = Z.to_nat (num_train_epochs args)) hs
       /\ trace w' = trace w ++ concat (zip_with (fold_events args) folds hs)
       /\ py_mean (map (fun h => fst (fst (best_of h))) hs) = Ok average_r2
       /\ py_mean (map (fun h => snd (fst (best_of h))) hs) = Ok average_mse
       /\ py_mean (map (fun h => snd (best_of h)) hs) = Ok average_corr
       /\ (forall save_path fold tr e m em plotted,
             epoch_events args (num_train_epochs args) save_path fold tr e m em
               plotted
             = [EvTrainEpoch e m; EvSchedulerStep]
               ++ skipn 2 (epoch_events args (num_train_epochs args) save_path
                             fold tr e m em plotted)
             /\ In (EvEvaluate e em)
                  (skipn 2 (epoch_events args (num_train_epochs args) save_path
                              fold tr e m em plotted))
             /\ List.filter is_scheduler_step
                  (epoch_events args (num_train_epochs args) save_path fold tr
                     e m em plotted)
                = [EvSchedulerStep])
       /\ length rngs = 10%nat
       /\ rngs !! 0%nat = Some rng
       /\ (forall k i r h,
             folds !! k = Some i -> rngs !! k = Some r -> hs !! k = Some h ->
             exists train_dataset test_dataset train_loader test_loader,
               GeneSequenceDataset (fold_file args i "train") = Ok train_dataset
               /\ GeneSequenceDataset (fold_file args i "test") = Ok test_dataset
               /\ DataLoader_init Item train_dataset (batch_size args) true
                  = Ok train_loader
               /\ DataLoader_init Item test_dataset 1 false = Ok test_loader
               /\ pass_history FoldState (train_pass args train_loader)
                    (eval_pass args test_loader) stepped (fold_start args r)
                    init_trackers (epochs (num_train_epochs args))
                  = Ok h).
Proof.
  intros H args. split; [reflexivity|].
  unfold Orchestrator.main in H. fold args in H.
  apply bind_ok in H as ([[rng1 w1] sc] & Hfold & H).
  apply bind_ok in H as (a1 & Ha1 & H).
  apply bind_ok in H as (a2 & Ha2 & H).
  apply bind_ok in H as (a3 & Ha3 & H).
  inversion H; subst; clear H.
  apply folds_spec in Hfold
    as (hs & rngs & Hlen & Hall & Htrace & H1 & H2 & H3 & Hr & Hhd & Hruns).
  simpl in H1, H2, H3. rewrite H1 in Ha1. rewrite H2 in Ha2. rewrite H3 in Ha3.
  exists hs, rngs. split; [exact Hlen|]. split; [exact Hall|].
  split; [exact Htrace|]. split; [exact Ha1|]. split; [exact Ha2|].
  split; [exact Ha3|].
  split.
  { intros save_path fold tr e m em plotted. unfold epoch_events.
    split; [reflexivity|]. split.
    - simpl. right. right. apply in_or_app. right. left. reflexivity.
    - rewrite !List.filter_app.
      assert (Hs : forall tags,
                 List.filter is_scheduler_step
                   (map (fun t => EvSave (checkpoint_path save_path t)) tags)
                 = []).
      { intros tags. induction tags as [|t tags IH]; [reflexivity | exact IH]. }
      rewrite Hs. destruct plotted; reflexivity. }
  split; [exact Hr|]. split.
  { destruct rngs as [|r0 rngs]; [discriminate Hr|]. simpl in Hhd.
    inversion Hhd. reflexivity. }
  exact Hruns.
Qed.

Lemma chunks_one (l : list Item) :
  chunks Item 1 [] l = map (fun x => [x]) l.
Proof.
  induction l as [|x l IH]; simpl; [reflexivity|]. f_equal. exact IH.
Qed.

(** C10. Whatever the arguments of the run, the evaluation loader that
    [main] builds has batch size 1 and does not shuffle: one iteration over
    it yields one batch per sequence of the test set, in order.  So an
    evaluation pass that completes reports as its loss the mean
    [sum / len] of one loss per sequence. *)
Theorem C10_eval_loader_batch_one (test_dataset : list Item) :
  exists dl : DataLoader,
    make_test_loader Item test_dataset = Ok dl
    /\ dl_batch_size Item dl = 1%nat
    /\ dl_shuffle Item dl = false
    /\ (forall rng,
          iter_loader dl rng
          = (map (fun it => collate [it]) test_dataset, rng))
    /\ (forall (args : Args) (st st' : FoldState) max_r2 avg_loss r2 mse corr
               plotted,
          eval_pass args dl st max_r2
          = Ok (st', (avg_loss, r2, mse, corr), plotted) ->
          exists vs,
            EpochProps.eval_values Encoder calm_representations
              bert_last_hidden
              (fs_model Encoder Optimizer Rng Scheduler st)
              (fs_loss Encoder Optimizer Rng Scheduler st) args
              (map (fun it => collate [it]) test_dataset)
            = Ok vs
            /\ length vs = length test_dataset
            /\ py_mean (map (fun v => fst (fst v)) vs) = Ok avg_loss).
Proof.
  exists (mkDataLoader Item test_dataset 1 false).
  split; [reflexivity|]. split; [reflexivity|]. split; [reflexivity|].
  assert (Hiter : forall rng,
            iter_loader (mkDataLoader Item test_dataset 1 false) rng
            = (map (fun it => collate [it]) test_dataset, rng)).
  { intros rng. unfold Orchestrator.iter_loader. simpl.
    rewrite chunks_one, map_map. reflexivity. }
  split; [exact Hiter|].
  intros args st st' max_r2 avg_loss r2 mse corr plotted H.
  unfold Orchestrator.eval_pass in H. rewrite Hiter in H.
  apply bind_ok in H as ([[l1 m1] pl] & He & H).
  inversion H; subst; clear H.
  apply EpochProps.evaluate_spec in He as (vs & Hvs & Hlen & _ & Hmean).
  exists vs. split; [exact Hvs|]. split; [|exact Hmean].
  rewrite Hlen, length_map. reflexivity.
Qed.

End Main.
End OrchestratorProps.

(** ** A small instance to run the loop on

    A stand-in for everything external: the encoder embeds a token as the
    one-dimensional vector of its id, the optimizer leaves the parameters
    alone, a dataset file holds two sequences of two positions, and the
    metric library is replaced by exact rational versions of its
    formulas. *)

Module Toy.
Import Tensor Loss Head Epoch Selector Orchestrator.

Definition embed (ids : list (list Z)) : tensor3 :=
  map (map (fun z => [Qc_of_Z z])) ids.

Definition toy_calm (_ : unit) (ids : list (list Z)) : tensor3 := embed ids.

Definition toy_bert (_ : unit) (ids _ _ : list (list Z)) : tensor3 := embed ids.

Definition avg (l : list Qc) : Qc := Qc_sum l / Qc_of_nat (length l).

Definition sq (x : Qc) : Qc := x * x.

Definition is_constant (l : list Qc) : bool :=
  match l with
  | [] => true
  | x :: l' => forallb (fun y => bool_decide (y = x)) l'
  end.

(** Mean of the squared residuals. *)
Definition toy_mse (y_true y_pred : list Qc) : res num :=
  match y_true with
  | [] => Raise ValueError
  | _ => Ok (Fin (avg (zip_with (fun t p => sq (t - p)) y_true y_pred)))
  end.

(** [1 - SS_res / SS_tot]; NaN on fewer than two points; on constant
    targets 1 for a perfect prediction and 0 otherwise. *)
Definition toy_r2 (y_true y_pred : list Qc) : res num :=
  match y_true with
  | [] => Raise ValueError
  | [_] => Ok NaN
  | _ =>
      let ss_res := Qc_sum (zip_with (fun t p => sq (t - p)) y_true y_pred) in
      let ss_tot := Qc_sum (map (fun t => sq (t - avg y_true)) y_true) in
      if bool_decide (ss_tot = 0)
      then Ok (Fin (if bool_decide (ss_res = 0) then 1 else 0))
      else Ok (Fin (1 - ss_res / ss_tot))
  end.

(** The correlation coefficient is not rational in general: the stand-in
    keeps its degenerate cases (an exception on fewer than two points, NaN
    on a constant input) and otherwise returns the square of the
    coefficient. *)
Definition toy_pearsonr (y_true y_pred : list Qc) : res num :=
  match y_true with
  | [] | [_] => Raise ValueError
  | _ =>
      if is_constant y_true || is_constant y_pred then Ok NaN
      else
        let mt := avg y_true in
        let mp := avg y_pred in
        let cov := Qc_sum (zip_with (fun t p => (t - mt) * (p - mp))
                             y_true y_pred) in
        let vt := Qc_sum (map (fun t => sq (t - mt)) y_true) in
        let vp := Qc_sum (map (fun p => sq (p - mp)) y_pred) in
        Ok (Fin (sq cov / (vt * vp)))
  end.

Definition toy_step (m : CodenBert unit) (o : unit) (_ : Batch)
    (_ : option tensor3) : CodenBert unit * unit := (m, o).

Definition toy_Linear_init (n_in n_out : nat) (rng : unit) : Linear * unit :=
  (mkLinear n_in n_out (repeat (repeat 1 n_in) n_out) (repeat 0 n_out), rng).

(** One sequence: token ids, target densities, validity indicators. *)
Definition item : Type := (list Z * list Qc * list Qc)%type.

Definition toy_collate (items : list item) : Batch :=
  let ids := map (fun it => fst (fst it)) items in
  mkBatch ids (map (map (fun _ => 1%Z)) ids) (map (map (fun _ => 0%Z)) ids)
          (map (fun it => snd (fst it)) items) (map (fun it => snd it) items)
          (map (map (fun z => [Qc_of_Z z; 0])) ids)
          (map (map (fun z => [1])) ids)
          (map (map (fun z => [0; Qc_of_Z z; 1])) ids).

Definition toy_items : list item :=
  [ ([1; 2]%Z, [1; Qc_of_Z 3], [1; 1]);
    ([2; 0]%Z, [Qc_of_Z 2; 0], [1; 0]) ].

Definition toy_dataset (_ : string) : res (list item) := Ok toy_items.

Definition toy_shuffle (rng : unit) (l : list item) : list item * unit := (l, rng).

Definition toy_args : Args :=
  mkArgs "out" "data" 2 1 (Q2Qc (1 # 20000)) (Q2Qc (1 # 10000000))
         false false false false true true false.

Definition toy_args_aa_ss : Args :=
  mkArgs "out" "data" 2 1 (Q2Qc (1 # 20000)) (Q2Qc (1 # 10000000))
         true false true false true true false.

Definition toy_model : CodenBert unit :=
  fst (CodenBert_init unit unit (fun _ => 1%nat) toy_Linear_init tt 1 0
         (set_use_additional_feature toy_args) tt).

Definition toy_batch : Batch := toy_collate toy_items.

Definition toy_world : World (CodenBert unit) := mkWorld ∅ ∅ [].

Abbreviation toy_main args0 :=
  (main unit toy_calm toy_bert toy_r2 toy_mse toy_pearsonr unit toy_step
    unit (fun _ => tt) (fun _ => 1%nat) toy_Linear_init (fun _ _ => tt)
    unit (fun _ _ _ => tt) (fun s o => (s, o)) item toy_dataset toy_collate
    toy_shuffle args0 tt toy_world).

Abbreviation toy_train_epoch :=
  (train_epoch unit toy_calm toy_bert toy_r2 toy_mse toy_pearsonr unit toy_step).

Abbreviation toy_evaluate :=
  (evaluate unit toy_calm toy_bert toy_r2 toy_mse toy_pearsonr).

End Toy.

Module Examples.
Import Tensor Loss LossProps.

(** The example of the specification's test plan: four positions, two of
  them valid. *)
Definition ex_pred : tensor2 := [[1; Qc_of_Z 3]; [0; Qc_of_Z 2]].
Definition ex_label : tensor2 := [[0; 0]; [0; 0]].
Definition ex_valid : tensor2 := [[1; 0]; [0; 1]].

Lemma C1_masked_loss_witness :
MaskedHuberLoss_forward HuberLoss_init ex_pred ex_label ex_valid
= Ok (masked_mean 1 ex_pred ex_label ex_valid, mkHuberLoss RNone 1).
Proof.
destruct (LossProps.C1_masked_loss_mean_over_all HuberLoss_init
            ex_pred ex_label ex_valid) as [Hpos _];
  [repeat constructor | repeat constructor |].
apply Hpos. apply (bool_decide_unpack _). vm_compute. exact I.
Defined.

End Examples.

(** ** Runs on scripted passes

    The passes are replaced by a script: the list of the results
    (training, evaluation) they return, epoch by epoch.  The state is the
    number of training passes done so far; it stands for the parameters, and
    a checkpoint holds the state it was saved from. *)

Module Scripted.
Import Selector SelectorProps.

Definition script : Type := list (metrics * metrics).

Definition scripted_train (sc : script) (n : nat) : res (nat * metrics) :=
  match sc !! n with
  | Some (m, _) => Ok (S n, m)
  | None => Raise RuntimeError
  end.

Definition scripted_eval (sc : script) (n : nat) (max_r2 : num)
    : res (nat * metrics * bool) :=
  match n with
  | O => Raise RuntimeError
  | S k =>
      match sc !! k with
      | Some (_, em) => Ok (n, em, num_gt (m_r2 em) max_r2)
      | None => Raise RuntimeError
      end
  end.

Definition run (sc : script) (w : World nat) (num_epoch : Z)
    (save_path : string) (args : Args) (fold : Z)
    : res (nat * World nat * (num * num * num)) :=
  train_and_validate nat nat (fun n => n) (scripted_train sc) (scripted_eval sc)
    (fun n => n) 0%nat w num_epoch save_path args fold.

Definition run_trackers (sc : script) (w : World nat) (num_epoch : Z)
    (save_path : string) (args : Args) (fold : Z)
    : res (nat * World nat * Trackers) :=
  run_epochs nat nat (fun n => n) (scripted_train sc) (scripted_eval sc)
    (fun n => n) args num_epoch save_path fold (0%nat, w, init_trackers)
    (epochs num_epoch).

Definition empty_world : World nat := mkWorld ∅ ∅ [].

Definition ex_args : Args :=
  mkArgs "out" "data" 2 2 (Q2Qc (1 # 20000)) (Q2Qc (1 # 10000000))
         false false false false true true false.

Definition qz (z : Z) : num := Fin (Qc_of_Z z).
Definition qq (q : Q) : num := Fin (Q2Qc q).

(** Epoch 1 has the lowest training loss, epoch 2 the lowest evaluation
    loss and the highest R2. *)
Definition script_train_first : script :=
  [ ((qz 3, qz 0, qz 0, qz 0), (qz 2, qq (2 # 5), qz 0, qz 0));
    ((qz 5, qz 0, qz 0, qz 0), (qz 1, qq (1 # 2), qz 0, qz 0)) ].

(** C2, refuted as stated: after two epochs of which the first had the
    lowest training loss (3 against 5), no checkpoint holds the parameters
    of that epoch: all the files hold those of epoch 2. *)
Lemma C2_no_train_loss_checkpoint :
  match run_trackers script_train_first empty_world 2 "out/checkpoints/fold_1"
          ex_args 1 with
  | Ok (_, w, tr) =>
      best_loss tr = qz 3
      /\ map_Forall (fun _ v => v = 2%nat) (checkpoints w)
      /\ ~ exists path, checkpoints w !! path = Some 1%nat
  | Raise _ => False
  end.
Proof.
  assert (H : match run_trackers script_train_first empty_world 2
                      "out/checkpoints/fold_1" ex_args 1 with
              | Ok (_, w, tr) =>
                  bool_decide (best_loss tr = qz 3)
                  && bool_decide (map_Forall (fun _ v => v = 2%nat)
                                    (checkpoints w))
              | Raise _ => false
              end = true) by (vm_compute; reflexivity).
  destruct (run_trackers script_train_first empty_world 2
              "out/checkpoints/fold_1" ex_args 1)
    as [[[s w] tr]|e]; [|discriminate H].
  apply andb_prop in H as [H1 H2].
  apply bool_decide_eq_true in H1. apply bool_decide_eq_true in H2.
  split; [exact H1|]. split; [exact H2|].
  intros [path Hp]. apply H2 in Hp. discriminate Hp.
Qed.

Abbreviation scripted_epoch_body sc :=
  (epoch_body nat nat (fun n => n) (scripted_train sc) (scripted_eval sc)
     (fun n => n)).

Lemma C2_epoch_checkpoints_witness :
  exists s' w' tr',
    scripted_epoch_body script_train_first ex_args 2 "out/checkpoints/fold_1" 1
      (0%nat, empty_world, init_trackers) 1
    = Ok (s', w', tr')
    /\ exists new,
         trace w' = trace empty_world ++ new
         /\ saved_paths new
            = map (checkpoint_path "out/checkpoints/fold_1")
                ["last"; "best_eval_loss"; "best"].
Proof.
  assert (Hok : is_ok (scripted_epoch_body script_train_first ex_args 2
              "out/checkpoints/fold_1" 1 (0%nat, empty_world, init_trackers) 1) = true)
    by (vm_compute; reflexivity).
  destruct (scripted_epoch_body script_train_first ex_args 2
              "out/checkpoints/fold_1" 1 (0%nat, empty_world, init_trackers) 1)
    as [[[s' w'] tr']|e] eqn:E; [|discriminate Hok].
  exists s', w', tr'. split; [reflexivity|].
  destruct (C2_epoch_checkpoints nat nat (fun n => n)
              (scripted_train script_train_first)
              (scripted_eval script_train_first) (fun n => n)
              ex_args 2 "out/checkpoints/fold_1" 1 0%nat empty_world
              init_trackers 1 s' w' tr' E)
    as (s1 & m & em & pl & new & Ht & He & Htrace & Hsaved & _).
  exists new. split; [exact Htrace|].
  rewrite Hsaved.
  vm_compute in Ht. injection Ht as <- <-.
  vm_compute in He. injection He as <- <- <-.
  reflexivity.
Defined.

(** A single epoch whose training loss, 2e8, is above the sentinel. *)
Definition script_large_loss : script :=
  [ ((qz 200000000, qz 0, qz 0, qz 0), (qz 1, qq (1 # 2), qz 0, qz 0)) ].

(** C5, refuted as stated: after one epoch with training loss 2e8, the
    only and hence the best training loss seen so far, the training-loss
    tracker is not that value but still the sentinel 1e8. *)
Lemma C5_tracker_stays_at_sentinel :
  match run_trackers script_large_loss empty_world 1 "out/checkpoints/fold_1"
          ex_args 1 with
  | Ok (_, _, tr) =>
      map (fun r => m_loss (fst r)) script_large_loss = [qz 200000000]
      /\ best_loss tr = qz 100000000
      /\ best_loss tr <> qz 200000000
  | Raise _ => False
  end.
Proof.
  assert (H : match run_trackers script_large_loss empty_world 1
                      "out/checkpoints/fold_1" ex_args 1 with
              | Ok (_, _, tr) =>
                  bool_decide (best_loss tr = qz 100000000)
                  && bool_decide (best_loss tr <> qz 200000000)
              | Raise _ => false
              end = true) by (vm_compute; reflexivity).
  destruct (run_trackers script_large_loss empty_world 1
              "out/checkpoints/fold_1" ex_args 1)
    as [[[s w] tr]|e]; [|discriminate H].
  apply andb_prop in H as [H1 H2].
  apply bool_decide_eq_true in H1. apply bool_decide_eq_true in H2.
  split; [reflexivity|]. split; [exact H1 | exact H2].
Qed.

Abbreviation scripted_run_epochs sc :=
  (run_epochs nat nat (fun n => n) (scripted_train sc) (scripted_eval sc)
     (fun n => n)).

(** On the script whose second epoch has the higher R2 (1/2 against 2/5):
    the trackers after the two epochs are the running bests, and the
    second epoch, which beats the maximum the first one left, saves the
    checkpoint of tag [best] with the parameters of that epoch. *)
Lemma C5_trackers_running_best_witness :
  exists s' w' tr',
    scripted_run_epochs script_train_first ex_args 2 "out/checkpoints/fold_1" 1
      (0%nat, empty_world, init_trackers) [1%Z; 2%Z]
    = Ok (s', w', tr')
    /\ (exists h,
          length h = 2%nat
          /\ is_min_of (best_loss tr') sentinel (train_losses h)
          /\ is_min_of (best_eval_loss tr') sentinel (eval_losses h)
          /\ is_max_of (max_r2 tr') (- sentinel) (eval_r2s h))
    /\ (exists (w1 w2 : World nat) tr1 tr2 new,
          scripted_epoch_body script_train_first ex_args 2
            "out/checkpoints/fold_1" 1 (1%nat, w1, tr1) 2
          = Ok (2%nat, w2, tr2)
          /\ max_r2 tr1 = qq (2 # 5)
          /\ trace w2 = trace w1 ++ new
          /\ triple tr2 = (qq (1 # 2), qz 0, qz 0)
          /\ In (EvSave (checkpoint_path "out/checkpoints/fold_1" "best")) new
          /\ checkpoints w2 !! checkpoint_path "out/checkpoints/fold_1" "best"
             = Some 2%nat).
Proof.
  assert (Hok : is_ok (scripted_run_epochs script_train_first ex_args 2
              "out/checkpoints/fold_1" 1 (0%nat, empty_world, init_trackers)
              [1%Z; 2%Z]) = true)
    by (vm_compute; reflexivity).
  assert (Hfirst :
    match scripted_run_epochs script_train_first ex_args 2
            "out/checkpoints/fold_1" 1 (0%nat, empty_world, init_trackers)
            (take 1 [1%Z; 2%Z]) with
    | Ok (s1, _, tr1) =>
        bool_decide (s1 = 1%nat) && bool_decide (max_r2 tr1 = qq (2 # 5))
    | Raise _ => false
    end = true) by (vm_compute; reflexivity).
  destruct (scripted_run_epochs script_train_first ex_args 2
              "out/checkpoints/fold_1" 1 (0%nat, empty_world, init_trackers)
              [1%Z; 2%Z])
    as [[[s' w'] tr']|e] eqn:E; [|discriminate Hok].
  exists s', w', tr'. split; [reflexivity|].
  destruct (C5_trackers_running_best nat nat (fun n => n)
              (scripted_train script_train_first)
              (scripted_eval script_train_first) (fun n => n)
              ex_args 2 "out/checkpoints/fold_1" 1 [1%Z; 2%Z] 0%nat
              empty_world s' w' tr' E)
    as (_ & (h & _ & Hlen & H1 & H2 & H3 & _) & Hepoch & _).
  split; [exists h; auto|].
  destruct (Hepoch 1%nat 2%Z eq_refl)
    as (s1 & w1 & tr1 & s2 & w2 & tr2 & sm & m & em & pl & new & h2
        & Hpre & Hbody & _ & Ht & He & _ & _ & _ & _ & Htrace & Hyes & _).
  rewrite Hpre in Hfirst. apply andb_prop in Hfirst as [Hs1 Hmax].
  apply bool_decide_eq_true in Hs1. apply bool_decide_eq_true in Hmax.
  subst s1. rewrite Hmax in He, Hyes.
  vm_compute in Ht. injection Ht as <- <-.
  unfold scripted_eval in He. simpl in He. injection He as <- <- <-.
  destruct Hyes as (Htri & Hin & Hck); [vm_compute; reflexivity|].
  exists w1, w2, tr1, tr2, new.
  split; [exact Hbody|]. split; [exact Hmax|].
  split; [exact Htrace|]. split; [exact Htri|]. split; [exact Hin | exact Hck].
Defined.

(** One epoch whose evaluation has a finite R2 and an undefined
    correlation (what the library returns on constant targets). *)
Definition script_nan_corr : script :=
  [ ((qz 1, qz 0, qz 0, qz 0), (qz 1, qz 0, qz 1, NaN)) ].

(** C4, refuted as stated: the NaN correlation that comes with the
    improving R2 0 is stored in the returned triple. *)
Lemma C4_nan_reaches_triple :
  match run script_nan_corr empty_world 1 "out/checkpoints/fold_1" ex_args 1 with
  | Ok (_, _, (max_r2, _, max_corr)) => max_r2 = qz 0 /\ max_corr = NaN
  | Raise _ => False
  end.
Proof.
  assert (H : match run script_nan_corr empty_world 1 "out/checkpoints/fold_1"
                      ex_args 1 with
              | Ok (_, _, (max_r2, _, max_corr)) =>
                  bool_decide (max_r2 = qz 0) && bool_decide (max_corr = NaN)
              | Raise _ => false
              end = true) by (vm_compute; reflexivity).
  destruct (run script_nan_corr empty_world 1 "out/checkpoints/fold_1" ex_args 1)
    as [[[s w] [[r m] c]]|e]; [|discriminate H].
  apply andb_prop in H as [H1 H2].
  apply bool_decide_eq_true in H1. apply bool_decide_eq_true in H2.
  split; assumption.
Qed.

(** C3, refuted as stated: fold 2, run for one epoch after fold 1, finds
    the row of fold 1 in its training log and leaves two rows there. *)
Lemma C3_log_shared_by_folds :
  match run script_large_loss empty_world 1 "out/checkpoints/fold_1" ex_args 1 with
  | Ok (_, w1, _) =>
      match run script_large_loss w1 1 "out/checkpoints/fold_2" ex_args 2 with
      | Ok (_, w2, _) =>
          length (content (files w1) (train_log_path ex_args 1)) = 1%nat
          /\ length (content (files w2) (train_log_path ex_args 1)) = 2%nat
      | Raise _ => False
      end
  | Raise _ => False
  end.
Proof.
  assert (H : match run script_large_loss empty_world 1
                      "out/checkpoints/fold_1" ex_args 1 with
              | Ok (_, w1, _) =>
                  match run script_large_loss w1 1 "out/checkpoints/fold_2"
                          ex_args 2 with
                  | Ok (_, w2, _) =>
                      Nat.eqb (length (content (files w1)
                                         (train_log_path ex_args 1))) 1
                      && Nat.eqb (length (content (files w2)
                                            (train_log_path ex_args 1))) 2
                  | Raise _ => false
                  end
              | Raise _ => false
              end = true) by (vm_compute; reflexivity).
  destruct (run script_large_loss empty_world 1 "out/checkpoints/fold_1"
              ex_args 1) as [[[s1 w1] b1]|e]; [|discriminate H].
  destruct (run script_large_loss w1 1 "out/checkpoints/fold_2" ex_args 2)
    as [[[s2 w2] b2]|e]; [|discriminate H].
  apply andb_prop in H as [H1 H2].
  apply Nat.eqb_eq in H1. apply Nat.eqb_eq in H2. split; assumption.
Qed.

Lemma C4_nan_is_no_improvement_witness :
  exists s' w' tr',
    scripted_epoch_body script_nan_corr ex_args 1 "out/checkpoints/fold_1" 1
      (0%nat, empty_world, init_trackers) 1
    = Ok (s', w', tr')
    /\ is_nan (best_loss tr') = false
    /\ is_nan (best_eval_loss tr') = false
    /\ is_nan (max_r2 tr') = false.
Proof.
  assert (Hok : is_ok (scripted_epoch_body script_nan_corr ex_args 1
                         "out/checkpoints/fold_1" 1
                         (0%nat, empty_world, init_trackers) 1) = true)
    by (vm_compute; reflexivity).
  destruct (scripted_epoch_body script_nan_corr ex_args 1
              "out/checkpoints/fold_1" 1 (0%nat, empty_world, init_trackers) 1)
    as [[[s' w'] tr']|e] eqn:E; [|discriminate Hok].
  exists s', w', tr'. split; [reflexivity|].
  destruct (C4_nan_is_no_improvement nat nat (fun n => n)
              (scripted_train script_nan_corr)
              (scripted_eval script_nan_corr) (fun n => n)
              ex_args 1 "out/checkpoints/fold_1" 1 0%nat empty_world
              init_trackers 1) as (_ & _ & H).
  destruct (H s' w' tr' E)
    as (s1 & m & em & pl & new & _ & _ & _ & _ & _ & _ & _ & _ & H1 & H2 & H3).
  split; [apply H1; reflexivity|]. split; [apply H2 | apply H3]; reflexivity.
Defined.

Abbreviation scripted_train_and_validate sc :=
  (train_and_validate nat nat (fun n => n) (scripted_train sc)
     (scripted_eval sc) (fun n => n)).

Lemma C3_logs_appended_witness :
  exists s' w' best,
    scripted_train_and_validate script_train_first 0%nat empty_world 2
      "out/checkpoints/fold_1" ex_args 1
    = Ok (s', w', best)
    /\ length (content (files w') (train_log_path ex_args 2)) = 2%nat
    /\ length (content (files w') (eval_log_path ex_args 2)) = 2%nat.
Proof.
  assert (Hok : is_ok (scripted_train_and_validate script_train_first 0%nat empty_world 2
              "out/checkpoints/fold_1" ex_args 1) = true)
    by (vm_compute; reflexivity).
  destruct (scripted_train_and_validate script_train_first 0%nat empty_world 2
              "out/checkpoints/fold_1" ex_args 1)
    as [[[s' w'] best]|e] eqn:E; [|discriminate Hok].
  exists s', w', best. split; [reflexivity|].
  destruct (C3_logs_appended nat nat (fun n => n)
              (scripted_train script_train_first)
              (scripted_eval script_train_first) (fun n => n)
              0%nat empty_world 2 "out/checkpoints/fold_1" ex_args 1
              s' w' best E)
    as (h & _ & _ & H1 & L1 & H2 & L2 & _).
  rewrite H1, H2, !length_app, L1, L2. split; reflexivity.
Defined.

End Scripted.

Module ToyRuns.
Import Tensor Loss Head Epoch Selector Orchestrator Toy.

(** A second batch, of one sequence with two valid positions. *)
Definition toy_batch2 : Batch :=
  toy_collate [([3; 1]%Z, [Qc_of_Z 2; 1], [1; 1])].

Abbreviation toy_score_reg := (score_reg toy_r2 toy_mse toy_pearsonr).

(** On two batches the two passes, run on the same head, agree on the
    loss and differ on the metrics: the training pass averages the R2 of
    the batches, the evaluation pass computes it once on the five valid
    positions pooled. *)
Lemma C6_batch_means_witness :
  exists model' optimizer' loss' avg_loss r2 mse corr vs
         eloss' eavg_loss er2 emse ecorr plotted evs,
    toy_train_epoch toy_model [toy_batch; toy_batch2] tt HuberLoss_init
      (set_use_additional_feature toy_args)
    = Ok (model', optimizer', loss', (avg_loss, r2, mse, corr))
    /\ length vs = 2%nat
    /\ py_mean (map m_loss vs) = Ok avg_loss
    /\ py_mean (map m_r2 vs) = Ok r2
    /\ py_mean (map m_mse vs) = Ok mse
    /\ py_mean (map m_corr vs) = Ok corr
    /\ toy_evaluate toy_model [toy_batch; toy_batch2] HuberLoss_init
         (set_use_additional_feature toy_args) NaN
       = Ok (eloss', (eavg_loss, er2, emse, ecorr), plotted)
    /\ length evs = 2%nat
    /\ length (concat (map (fun v => snd (fst v)) evs)) = 5%nat
    /\ toy_score_reg (concat (map (fun v => snd (fst v)) evs))
         (concat (map (fun v => snd v) evs))
       = Ok (er2, emse, ecorr)
    /\ py_mean (map (fun v => fst (fst v)) evs) = Ok eavg_loss
    /\ avg_loss = eavg_loss
    /\ r2 <> er2
    /\ mse <> emse.
Proof.
  assert (Hcmp :
    match toy_train_epoch toy_model [toy_batch; toy_batch2] tt HuberLoss_init
            (set_use_additional_feature toy_args),
          toy_evaluate toy_model [toy_batch; toy_batch2] HuberLoss_init
            (set_use_additional_feature toy_args) NaN with
    | Ok (_, _, _, (al, r2, mse, _)), Ok (_, (el, er2, emse, _), _) =>
        bool_decide (al = el) && negb (bool_decide (r2 = er2))
        && negb (bool_decide (mse = emse))
    | _, _ => false
    end = true) by (vm_compute; reflexivity).
  destruct (toy_train_epoch toy_model [toy_batch; toy_batch2] tt HuberLoss_init
              (set_use_additional_feature toy_args))
    as [[[[m o] l] [[[al r2] mse] corr]]|e] eqn:E; [|discriminate Hcmp].
  destruct (toy_evaluate toy_model [toy_batch; toy_batch2] HuberLoss_init
              (set_use_additional_feature toy_args) NaN)
    as [[[el' [[[el er2] emse] ecorr]] pl]|e] eqn:E'; [|discriminate Hcmp].
  apply andb_prop in Hcmp as [Hcmp Hmse]. apply andb_prop in Hcmp as [Hl Hr2].
  apply bool_decide_eq_true in Hl.
  apply negb_true_iff, bool_decide_eq_false in Hr2.
  apply negb_true_iff, bool_decide_eq_false in Hmse.
  destruct (EpochProps.C6_batch_means_and_pooled_metrics unit toy_calm
              toy_bert toy_r2 toy_mse toy_pearsonr unit toy_step
              (set_use_additional_feature toy_args) toy_model
              HuberLoss_init [toy_batch; toy_batch2])
    as (Htrain & Heval & _).
  destruct (Htrain tt m o l al r2 mse corr E)
    as (vs & _ & Hlen & H1 & H2 & H3 & H4).
  destruct (Heval NaN el' el er2 emse ecorr pl E')
    as (evs & Hevs & Helen & Hscore & Hmean).
  exists m, o, l, al, r2, mse, corr, vs, el', el, er2, emse, ecorr, pl, evs.
  split; [reflexivity|]. split; [exact Hlen|]. split; [exact H1|].
  split; [exact H2|]. split; [exact H3|]. split; [exact H4|].
  split; [reflexivity|]. split; [exact Helen|].
  split.
  { assert (Hv : match EpochProps.eval_values unit toy_calm toy_bert
                         toy_model HuberLoss_init
                         (set_use_additional_feature toy_args)
                         [toy_batch; toy_batch2] with
                 | Ok evs0 =>
                     Nat.eqb (length (concat (map (fun v => snd (fst v)) evs0)))
                             5
                 | Raise _ => false
                 end = true) by (vm_compute; reflexivity).
    rewrite Hevs in Hv. apply Nat.eqb_eq in Hv. exact Hv. }
  split; [exact Hscore|]. split; [exact Hmean|].
  split; [exact Hl|]. split; [exact Hr2 | exact Hmse].
Defined.

Lemma C7_features_witness :
  exists t,
    additional_features_of (set_use_additional_feature toy_args_aa_ss) toy_batch
    = Ok (Some t)
    /\ HeadProps.at3 t 0 1
       = Some ([Qc_of_Z 2; 0] ++ [] ++ [0; Qc_of_Z 2; 1]).
Proof.
  assert (H1 : HeadProps.same_bn (b_aa toy_batch) (pro_feature toy_batch))
    by (repeat constructor).
  assert (H2 : HeadProps.same_bn (pro_feature toy_batch) (b_ss toy_batch))
    by (repeat constructor).
  destruct (HeadProps.C7_features_in_fixed_order unit toy_calm toy_bert
              toy_args_aa_ss toy_batch H1 H2) as [Hon _].
  destruct (Hon eq_refl) as (t & Ht & _ & Hat).
  exists t. split; [exact Ht|].
  apply (Hat 0%nat 1%nat [Qc_of_Z 2; 0] [1] [0; Qc_of_Z 2; 1]); reflexivity.
Defined.

Lemma toy_regressor_wf : Linear_wf (regressor unit toy_model).
Proof. repeat split. repeat constructor. Qed.

Lemma C8_output_witness :
  exists out,
    forward unit toy_calm toy_bert toy_model (input_ids toy_batch)
      (attention_mask toy_batch) (token_type_ids toy_batch) None
    = Ok out
    /\ Forall (Forall (fun v => exists x, v = [x] /\ 0 <= x)) out.
Proof.
  destruct (HeadProps.C8_output_nonneg_scalar unit toy_calm toy_bert toy_model
              (input_ids toy_batch) (attention_mask toy_batch)
              (token_type_ids toy_batch) None toy_regressor_wf eq_refl)
    as [Hprop Htotal].
  destruct (Htotal eq_refl) as [out Hout]; [repeat constructor|].
  exists out. split; [exact Hout | apply (Hprop out Hout)].
Defined.

Abbreviation toy_fold_run :=
  (OrchestratorProps.fold_run unit toy_calm toy_bert toy_r2 toy_mse
     toy_pearsonr unit toy_step unit (fun _ => tt) (fun _ => 1%nat)
     toy_Linear_init (fun _ _ => tt) unit (fun _ _ _ => tt)
     (fun s o => (s, o)) item toy_dataset toy_collate toy_shuffle).

Lemma C9_ten_folds_witness :
  exists w' a1 a2 a3 hs,
    toy_main toy_args = Ok (w', (a1, a2, a3))
    /\ length hs = 10%nat
    /\ trace w'
       = trace toy_world
         ++ concat (zip_with
                      (OrchestratorProps.fold_events
                         (set_use_additional_feature toy_args))
                      folds hs)
    /\ py_mean (map (fun h => fst (fst (OrchestratorProps.best_of h))) hs)
       = Ok a1
    /\ exists h0,
         hs !! 0%nat = Some h0
         /\ toy_fold_run (set_use_additional_feature toy_args) 0 tt h0.
Proof.
  assert (Hok : is_ok (toy_main toy_args) = true) by (vm_compute; reflexivity).
  destruct (toy_main toy_args) as [[w' [[a1 a2] a3]]|e] eqn:E;
    [|discriminate Hok].
  destruct (OrchestratorProps.C9_ten_folds unit toy_calm toy_bert toy_r2
              toy_mse toy_pearsonr unit toy_step unit (fun _ => tt)
              (fun _ => 1%nat) toy_Linear_init (fun _ _ => tt) unit
              (fun _ _ _ => tt) (fun s o => (s, o)) item toy_dataset
              toy_collate toy_shuffle toy_args tt toy_world w' a1 a2 a3 E)
    as (_ & hs & rngs & Hlen & _ & Htrace & H1 & _ & _ & _ & _ & Hr0 & Hruns).
  destruct hs as [|h0 hs]; [discriminate Hlen|].
  exists w', a1, a2, a3, (h0 :: hs).
  split; [reflexivity|]. split; [exact Hlen|]. split; [exact Htrace|].
  split; [exact H1|].
  exists h0. split; [reflexivity|].
  exact (Hruns 0%nat 0%Z tt h0 eq_refl Hr0 eq_refl).
Defined.

Lemma C10_eval_loader_witness :
  exists dl,
    make_test_loader item toy_items = Ok dl
    /\ dl_batch_size item dl = 1%nat
    /\ iter_loader unit item toy_collate toy_shuffle dl tt
       = (map (fun it => toy_collate [it]) toy_items, tt).
Proof.
  destruct (OrchestratorProps.C10_eval_loader_batch_one unit toy_calm toy_bert
              toy_r2 toy_mse toy_pearsonr unit unit unit item toy_collate
              toy_shuffle toy_items)
    as (dl & Hdl & Hbs & _ & Hiter & _).
  exists dl. split; [exact Hdl|]. split; [exact Hbs | apply Hiter].
Defined.

End ToyRuns.

(** * Further properties of the loss *)

Module LossExtras.
Import Tensor Loss LossProps.

Lemma flatten_length_same (s t : tensor2) :
  same_shape s t -> length (flatten s) = length (flatten t).
Proof. intros H. apply (same_shape_numel s t H). Qed.

(** In the exact arithmetic of this model, where no elementwise loss
    overflows, the loss does not depend on the predictions at the
    positions whose indicator is 0: two prediction tensors that agree
    wherever the indicator is not 0 get the same result, a loss or the
    exception of a threshold that is not positive.  (In floating point
    the mask multiplies the elementwise loss after it is computed, so a
    prediction whose loss overflows to infinity at a masked position
    still yields NaN; rounding and overflow are outside this model.) *)
Theorem masked_loss_ignores_invalid (self : HuberLoss)
    (pred pred' label valid : tensor2) :
  same_shape pred label -> same_shape pred' label -> same_shape label valid ->
  (forall i p p' v,
     flatten pred !! i = Some p -> flatten pred' !! i = Some p' ->
     flatten valid !! i = Some v -> v <> 0 -> p = p') ->
  MaskedHuberLoss_forward self pred label valid
  = MaskedHuberLoss_forward self pred' label valid.
Proof.
  intros Hp Hp' Hv Hagree.
  destruct (decide (0 < delta self)) as [Hd|Hd];
    [|rewrite !masked_forward_nonpos by exact Hd; reflexivity].
  rewrite (masked_forward_value self pred label valid Hd Hp Hv).
  rewrite (masked_forward_value self pred' label valid Hd Hp' Hv).
  f_equal. f_equal. unfold masked_mean.
  destruct (numel label) as [|n]; [reflexivity|].
  f_equal. f_equal. f_equal.
  pose proof (flatten_length_same _ _ Hp) as L1.
  pose proof (flatten_length_same _ _ Hp') as L2.
  apply list_eq. intros i. rewrite !lookup_zip_with.
  destruct (flatten pred !! i) as [p|] eqn:E1;
    destruct (flatten pred' !! i) as [p'|] eqn:E2.
  - destruct (flatten label !! i) as [l|]; simpl; [|reflexivity].
    destruct (flatten valid !! i) as [v|] eqn:E3; simpl; [|reflexivity].
    destruct (decide (v = 0)) as [->|Hne].
    + rewrite !Qcmult_0_r. reflexivity.
    + rewrite (Hagree i p p' v E1 E2 E3 Hne). reflexivity.
  - apply lookup_lt_Some in E1. apply lookup_ge_None in E2. lia.
  - apply lookup_lt_Some in E2. apply lookup_ge_None in E1. lia.
  - reflexivity.
Qed.

Lemma Qc_abs_nonneg (x : Qc) : 0 <= Qc_abs x.
Proof.
  unfold Qc_abs. destruct (bool_decide (x < 0)) eqn:E.
  - apply bool_decide_eq_true in E.
    apply (Qcplus_le_mono_r 0 (- x) x).
    rewrite Qcplus_0_l, (Qcplus_comm (- x) x), Qcplus_opp_r.
    apply Qclt_le_weak, E.
  - apply bool_decide_eq_false in E. apply Qcnot_lt_le, E.
Qed.

Lemma half_bounds : 0 <= half /\ half <= 1.
Proof. split; apply (bool_decide_unpack _); vm_compute; exact I. Qed.

Lemma huber_elem_nonneg (d x y : Qc) : 0 <= d -> 0 <= huber_elem d x y.
Proof.
  intros Hd. unfold huber_elem.
  pose proof (Qc_abs_nonneg (x - y)) as Hz.
  destruct half_bounds as [Hh0 Hh1].
  destruct (bool_decide (Qc_abs (x - y) <= d)) eqn:E.
  - apply Qcmult_nonneg_nonneg; [|exact Hz].
    apply Qcmult_nonneg_nonneg; assumption.
  - apply bool_decide_eq_false in E. apply Qcnot_le_lt in E.
    apply Qcmult_nonneg_nonneg; [exact Hd|].
    unfold Qcminus.
    apply (proj1 (Qcle_minus_iff (half * d) (Qc_abs (x + - y)))).
    eapply Qcle_trans; [|apply Qclt_le_weak, E].
    rewrite <- (Qcmult_1_l d) at 2.
    apply Qcmult_le_mono_nonneg_r; assumption.
Qed.

Lemma Qc_sum_le (l1 l2 : list Qc) :
  Forall2 Qcle l1 l2 -> Qc_sum l1 <= Qc_sum l2.
Proof.
  induction 1 as [|a b l1 l2 Hab _ IH]; simpl; [apply Qcle_refl|].
  apply Qcplus_le_compat; assumption.
Qed.

Lemma Qc_sum_nonneg (l : list Qc) : Forall (Qcle 0) l -> 0 <= Qc_sum l.
Proof.
  induction 1 as [|a l Ha _ IH]; simpl; [apply Qcle_refl|].
  apply Qcplus_nonneg_nonneg; assumption.
Qed.

Lemma Qc_of_nat_pos (n : nat) : 0 < Qc_of_nat (S n).
Proof.
  unfold Qc_of_nat.
  pose proof (proj1 (Z2Qc_inj_lt 0 (Z.of_nat (S n)))) as H.
  rewrite Z2Qc_inj_0 in H. apply H. lia.
Qed.

Lemma Qcdiv_le_mono (a b c : Qc) : 0 < c -> a <= b -> a / c <= b / c.
Proof.
  intros Hc Hab. unfold Qcdiv.
  apply Qcmult_le_mono_nonneg_r; [|exact Hab].
  apply Qclt_le_weak, Qcinv_pos, Hc.
Qed.

(** The value of the standard Huber loss under mean reduction. *)
Lemma huber_mean_value (d : Qc) (pred label : tensor2) :
  0 < d ->
  same_shape pred label ->
  HuberLoss_forward (mkHuberLoss RMean d) pred label
  = Ok (OutScalar
          match numel label with
          | O => NaN
          | n => Fin (Qc_sum (zip_with (huber_elem d) (flatten pred)
                                (flatten label))
                      / Qc_of_nat n)
          end).
Proof.
  intros Hd Hp. unfold HuberLoss_forward, huber_loss. simpl.
  rewrite (bool_decide_true _ Hd).
  rewrite (ew2_zip _ _ _ Hp). simpl. f_equal. f_equal. unfold mean.
  rewrite (same_shape_numel _ _ (same_shape_zip_l _ _ _ Hp)).
  destruct (numel label); [reflexivity|].
  rewrite (flatten_zip _ _ _ Hp). reflexivity.
Qed.

(** In the exact arithmetic of this model, with a positive threshold (the
    library raises on any other) and indicators that are 0 or 1, on
    tensors of one shape that have an element, the masked loss is a number
    between 0 and the standard Huber loss (mean reduction) of the same
    predictions and targets. *)
Theorem masked_loss_bounds (self : HuberLoss) (pred label valid : tensor2) :
  0 < delta self ->
  same_shape pred label -> same_shape label valid ->
  Forall (fun v => v = 0 \/ v = 1) (flatten valid) ->
  (0 < numel label)%nat ->
  exists q q1,
    MaskedHuberLoss_forward self pred label valid
    = Ok (Fin q, mkHuberLoss RNone (delta self))
    /\ HuberLoss_forward (mkHuberLoss RMean (delta self)) pred label
       = Ok (OutScalar (Fin q1))
    /\ 0 <= q /\ q <= q1.
Proof.
  intros Hd Hp Hv H01 Hpos.
  rewrite (masked_forward_value self pred label valid Hd Hp Hv).
  rewrite (huber_mean_value (delta self) pred label Hd Hp).
  unfold masked_mean. destruct (numel label) as [|n] eqn:En; [lia|].
  eexists _, _. split; [reflexivity|]. split; [reflexivity|].
  set (h := zip_with (huber_elem (delta self)) (flatten pred) (flatten label)).
  assert (Hh : Forall (Qcle 0) h).
  { subst h. apply Forall_forall. intros x Hx.
    apply elem_of_lookup_zip_with in Hx as (i & a & b & -> & _ & _).
    apply huber_elem_nonneg, Qclt_le_weak, Hd. }
  assert (Hlen : length h = length (flatten valid)).
  { subst h. rewrite length_zip_with.
    pose proof (flatten_length_same _ _ Hp).
    pose proof (flatten_length_same _ _ Hv). lia. }
  clearbody h. clear -Hh H01 Hlen.
  assert (Hpt : Forall (Qcle 0) (zip_with Qcmult h (flatten valid))
                /\ Forall2 Qcle (zip_with Qcmult h (flatten valid)) h).
  { revert Hlen H01 Hh. generalize (flatten valid) as vs.
    induction h as [|a h IH]; intros [|v vs] Hlen H01 Hh; simpl in *;
      try discriminate; [split; constructor|].
    inversion H01 as [|? ? Hv0 H01']; subst.
    inversion Hh as [|? ? Ha Hh']; subst.
    destruct (IH vs) as [I1 I2]; [lia | assumption | assumption|].
    split; constructor; try assumption.
    - destruct Hv0 as [->| ->]; [rewrite Qcmult_0_r; apply Qcle_refl|].
      rewrite Qcmult_1_r. exact Ha.
    - destruct Hv0 as [->| ->]; [rewrite Qcmult_0_r; exact Ha|].
      rewrite Qcmult_1_r. apply Qcle_refl. }
  destruct Hpt as [P1 P2]. split.
  - unfold Qcdiv. apply Qcmult_nonneg_nonneg; [apply Qc_sum_nonneg, P1|].
    apply Qclt_le_weak, Qcinv_pos, Qc_of_nat_pos.
  - apply Qcdiv_le_mono; [apply Qc_of_nat_pos | apply Qc_sum_le, P2].
Qed.

Lemma Qc_abs_zero (x : Qc) : Qc_abs x = 0 -> x = 0.
Proof.
  unfold Qc_abs. destruct (bool_decide (x < 0)); intros H; [|exact H].
  rewrite <- (Qcopp_involutive x), H. reflexivity.
Qed.

Lemma Qc_minus_zero (x y : Qc) : x - y = 0 -> x = y.
Proof.
  intros H. apply (f_equal (fun z => z + y)) in H.
  rewrite Qcplus_0_l in H. rewrite <- H. ring.
Qed.

Lemma Qc_pos_ne (x : Qc) : 0 < x -> x <> 0.
Proof. intros H E. subst. apply (Qclt_not_eq _ _ H). reflexivity. Qed.

Lemma huber_elem_refl (d x : Qc) : 0 <= d -> huber_elem d x x = 0.
Proof.
  intros Hd. unfold huber_elem.
  replace (x - x) with 0 by ring.
  replace (Qc_abs 0) with 0 by reflexivity.
  rewrite bool_decide_true by exact Hd. ring.
Qed.

Lemma huber_elem_zero (d x y : Qc) : 0 < d -> huber_elem d x y = 0 -> x = y.
Proof.
  intros Hd. unfold huber_elem.
  destruct (bool_decide (Qc_abs (x - y) <= d)) eqn:E; intros H.
  - apply Qcmult_integral in H as [H|H].
    + apply Qcmult_integral in H as [H|H].
      * exfalso. revert H. apply (bool_decide_unpack _). vm_compute. exact I.
      * apply Qc_minus_zero, Qc_abs_zero, H.
    + apply Qc_minus_zero, Qc_abs_zero, H.
  - exfalso. apply bool_decide_eq_false in E. apply Qcnot_le_lt in E.
    apply Qcmult_integral in H as [H|H]; [apply (Qc_pos_ne d Hd H)|].
    destruct half_bounds as [_ Hh1].
    assert (Hle : half * d <= d).
    { rewrite <- (Qcmult_1_l d) at 2.
      apply Qcmult_le_mono_nonneg_r; [apply Qclt_le_weak, Hd | exact Hh1]. }
    apply Qc_minus_zero in H. rewrite H in E.
    apply (Qclt_not_le _ _ E Hle).
Qed.

Lemma Qc_sum_zero (l : list Qc) :
  Forall (Qcle 0) l -> Qc_sum l = 0 -> Forall (fun x => x = 0) l.
Proof.
  induction 1 as [|a l Ha Hl IH]; simpl; intros H; [constructor|].
  pose proof (Qc_sum_nonneg l Hl) as Hs.
  assert (Ha0 : a = 0).
  { apply Qcle_antisym; [|exact Ha].
    rewrite <- H. rewrite <- (Qcplus_0_r a) at 1.
    apply Qcplus_le_compat; [apply Qcle_refl | exact Hs]. }
  subst a. rewrite Qcplus_0_l in H. constructor; [reflexivity | apply IH, H].
Qed.

(** With a positive threshold and indicators that are 0 or 1, on tensors
    of one shape that have an element, the masked loss is 0 exactly when
    the prediction equals the target at every position whose indicator
    is 1. *)
Theorem masked_loss_zero_iff (self : HuberLoss) (pred label valid : tensor2) :
  0 < delta self ->
  same_shape pred label -> same_shape label valid ->
  Forall (fun v => v = 0 \/ v = 1) (flatten valid) ->
  (0 < numel label)%nat ->
  MaskedHuberLoss_forward self pred label valid
  = Ok (Fin 0, mkHuberLoss RNone (delta self))
  <-> (forall i p l,
         flatten pred !! i = Some p -> flatten label !! i = Some l ->
         flatten valid !! i = Some 1 -> p = l).
Proof.
  intros Hd Hp Hv H01 Hpos.
  rewrite (masked_forward_value self pred label valid Hd Hp Hv).
  unfold masked_mean. destruct (numel label) as [|n] eqn:En; [lia|].
  set (h := zip_with (huber_elem (delta self)) (flatten pred) (flatten label)).
  set (hv := zip_with Qcmult h (flatten valid)).
  assert (Hnn : Forall (Qcle 0) hv).
  { subst hv h. apply Forall_forall. intros x Hx.
    apply elem_of_lookup_zip_with in Hx as (i & a & v & -> & Ha & Hvi).
    apply list_elem_of_lookup_2 in Hvi.
    rewrite Forall_forall in H01. specialize (H01 v Hvi).
    apply list_elem_of_lookup_2, elem_of_lookup_zip_with in Ha
      as (k & p & l & -> & _ & _).
    apply Qcmult_nonneg_nonneg;
      [apply huber_elem_nonneg, Qclt_le_weak, Hd|].
    destruct H01 as [-> | ->]; apply (bool_decide_unpack _); vm_compute;
      exact I. }
  split.
  - intros H.
    assert (H' : Qc_sum hv / Qc_of_nat (S n) = 0) by congruence.
    clear H. rename H' into H.
    assert (Hsum : Qc_sum hv = 0).
    { unfold Qcdiv in H. apply Qcmult_integral in H as [H|H]; [exact H|].
      exfalso. eapply Qc_pos_ne; [apply Qcinv_pos, (Qc_of_nat_pos n) | exact H]. }
    pose proof (Qc_sum_zero hv Hnn Hsum) as Hall.
    intros i p l E1 E2 E3.
    rewrite Forall_forall in Hall.
    assert (Hi : hv !! i = Some (huber_elem (delta self) p l * 1)).
    { subst hv h. rewrite !lookup_zip_with, E1, E2, E3. reflexivity. }
    apply list_elem_of_lookup_2, Hall in Hi. rewrite Qcmult_1_r in Hi.
    apply (huber_elem_zero (delta self) p l Hd Hi).
  - intros Hall.
    assert (Hz : Forall (fun x => x = 0) hv).
    { subst hv h. apply Forall_forall. intros x Hx.
      apply elem_of_lookup_zip_with in Hx as (i & a & v & -> & Ha & Hvi).
      pose proof Hvi as Hin. apply list_elem_of_lookup_2 in Hin.
      rewrite Forall_forall in H01. specialize (H01 v Hin).
      destruct H01 as [-> | ->]; [apply Qcmult_0_r|].
      rewrite lookup_zip_with in Ha.
      destruct (flatten pred !! i) as [p|] eqn:E1; [|discriminate Ha].
      destruct (flatten label !! i) as [l|] eqn:E2; [|discriminate Ha].
      simpl in Ha. injection Ha as <-.
      rewrite (Hall i p l E1 E2 Hvi), huber_elem_refl
        by (apply Qclt_le_weak, Hd).
      ring. }
    assert (Hs : Qc_sum hv = 0).
    { clear -Hz. induction Hz as [|a l Ha _ IH]; [reflexivity|].
      simpl. rewrite Ha, IH. ring. }
    rewrite Hs. unfold Qcdiv. rewrite Qcmult_0_l. reflexivity.
Qed.

End LossExtras.

(** * Further properties of the epoch runner *)

Module EpochExtras.
Import Tensor Loss Head Epoch ResProps EpochProps.

Definition is_one (v : Qc) : bool := bool_decide (v = 1).

(** The number of positions of a mask whose indicator is 1. *)
Definition count_valid (valid : tensor2) : nat :=
  length (List.filter is_one (flatten valid)).

Lemma select_row_length (r vr : list Qc) (cells : list (list Qc)) :
  map2_strict (fun x v => Ok (if bool_decide (v = 1) then [x] else [])) r vr
  = Ok cells ->
  length (concat cells) = length (List.filter is_one vr).
Proof.
  revert vr cells. induction r as [|x r IH]; intros [|v vr] cells H;
    simpl in H; try discriminate.
  - inversion H. reflexivity.
  - apply bind_ok in H as (rest & Hrest & H). inversion H; subst; clear H.
    simpl. unfold is_one at 1. rewrite length_app, (IH vr rest Hrest).
    destruct (bool_decide (v = 1)); reflexivity.
Qed.

Lemma masked_select_length (t valid : tensor2) (l : list Qc) :
  masked_select t valid = Ok l -> length l = count_valid valid.
Proof.
  unfold masked_select, count_valid, flatten. intros H.
  apply bind_ok in H as (rows & Hrows & H). inversion H; subst; clear H.
  revert valid rows Hrows.
  induction t as [|r t IH]; intros [|vr valid] rows H; simpl in H;
    try discriminate.
  - inversion H. reflexivity.
  - apply bind_ok in H as (cells & Hcells & H).
    apply bind_ok in H as (rest & Hrest & H). inversion H; subst; clear H.
    simpl. rewrite List.filter_app, !length_app.
    rewrite (select_row_length _ _ _ Hcells), (IH valid rest Hrest).
    reflexivity.
Qed.

Section Runner.
Variable Encoder : Type.
Variable calm_representations : Encoder -> list (list Z) -> tensor3.
Variable bert_last_hidden :
  Encoder -> list (list Z) -> list (list Z) -> list (list Z) -> tensor3.
Variable r2_score : list Qc -> list Qc -> res num.
Variable mean_squared_error : list Qc -> list Qc -> res num.
Variable pearsonr : list Qc -> list Qc -> res num.
Variable Optimizer : Type.
Variable optimizer_step :
  CodenBert Encoder -> Optimizer -> Batch -> option tensor3 ->
  CodenBert Encoder * Optimizer.

Abbreviation Model := (CodenBert Encoder).
Abbreviation train_epoch :=
  (train_epoch Encoder calm_representations bert_last_hidden r2_score
     mean_squared_error pearsonr Optimizer optimizer_step).
Abbreviation train_batch :=
  (train_batch Encoder calm_representations bert_last_hidden r2_score
     mean_squared_error pearsonr Optimizer optimizer_step).
Abbreviation evaluate :=
  (evaluate Encoder calm_representations bert_last_hidden r2_score
     mean_squared_error pearsonr).
Abbreviation score_reg := (score_reg r2_score mean_squared_error pearsonr).
Abbreviation eval_batch :=
  (eval_batch Encoder calm_representations bert_last_hidden).

(** On a loader without a batch the training pass fails on the division by
    the number of batches, and so does the evaluation pass once the
    metrics of the empty sequences have been computed; a pass that returns
    went through at least one batch. *)
Theorem passes_need_a_batch (model : Model) (optimizer : Optimizer)
    (loss : HuberLoss) (args : Args) (max_r2 : num) :
  train_epoch model [] optimizer loss args = Raise ZeroDivisionError
  /\ evaluate model [] loss args max_r2
     = match score_reg [] [] with
       | Ok _ => Raise ZeroDivisionError
       | Raise e => Raise e
       end
  /\ (forall batches r,
        train_epoch model batches optimizer loss args = Ok r -> batches <> [])
  /\ (forall batches r,
        evaluate model batches loss args max_r2 = Ok r -> batches <> []).
Proof.
  assert (He : evaluate model [] loss args max_r2
               = match score_reg [] [] with
                 | Ok _ => Raise ZeroDivisionError
                 | Raise e => Raise e
                 end).
  { unfold Epoch.evaluate. simpl.
    destruct (score_reg [] []) as [[[r2 mse] corr]|e]; reflexivity. }
  split; [reflexivity|]. split; [exact He|]. split.
  - intros batches r H ->. discriminate H.
  - intros batches r H ->. rewrite He in H.
    destruct (score_reg [] []); discriminate H.
Qed.

(** The two sequences the evaluation pools stay aligned: a batch adds to
    the predictions and to the targets alike one entry per position whose
    indicator is 1, whatever the values at the other positions. *)
Theorem pooled_sequences_aligned (model : Model) (args : Args)
    (loss loss' : HuberLoss) (acc acc' : EvalAcc) (batch : Batch) :
  eval_batch model args (loss, acc) batch = Ok (loss', acc') ->
  length (preds acc')
  = (length (preds acc) + count_valid (valid_sequence batch))%nat
  /\ length (trues acc')
     = (length (trues acc) + count_valid (valid_sequence batch))%nat
  /\ length (e_loss_list acc') = S (length (e_loss_list acc)).
Proof.
  unfold Epoch.eval_batch. intros H.
  apply bind_ok in H as ([[[af0 outputs] l0] loss0] & _ & H).
  apply bind_ok in H as (yp & Hp & H).
  apply bind_ok in H as (yt & Ht & H).
  inversion H; subst; clear H. simpl.
  rewrite !length_app, (masked_select_length _ _ _ Hp),
    (masked_select_length _ _ _ Ht).
  simpl. repeat split; lia.
Qed.

End Runner.
End EpochExtras.

(** * Further properties of the fusion head *)

Module HeadExtras.
Import Tensor Head ResProps HeadProps Orchestrator.

(** All feature vectors of a tensor have width [k]. *)
Definition has_width (k : nat) (t : tensor3) : Prop :=
  Forall (Forall (fun v => length v = k)) t.

Lemma has_width_cat (a b : nat) (s t : tensor3) :
  has_width a s -> has_width b t ->
  has_width (a + b) (zip_with (zip_with app) s t).
Proof.
  intros Hs. revert t. induction Hs as [|r s Hr _ IH]; intros t Ht.
  - constructor.
  - destruct Ht as [|r' t Hr' Ht]; [constructor|]. simpl.
    constructor; [|apply IH, Ht].
    clear -Hr Hr'. revert r' Hr'.
    induction Hr as [|v r Hv _ IH]; intros r' Hr'; [constructor|].
    destruct Hr' as [|v' r' Hv' Hr']; [constructor|]. simpl.
    constructor; [rewrite length_app; lia | apply IH, Hr'].
Qed.

Lemma has_width_ReLU (k : nat) (t : tensor3) :
  has_width k t -> has_width k (ReLU t).
Proof.
  unfold has_width, ReLU. intros H. apply Forall_map.
  eapply Forall_impl; [exact H|]. intros r Hr. apply Forall_map.
  eapply Forall_impl; [exact Hr|]. intros v Hv. simpl.
  rewrite length_map. exact Hv.
Qed.

Lemma Linear_forward_total (L : Linear) (t : tensor3) :
  Linear_wf L -> has_width (in_features L) t ->
  exists t', Linear_forward L t = Ok t'
             /\ same_bn t t' /\ has_width (out_features L) t'.
Proof.
  intros (Hw & _ & Hb) Ht.
  set (g := fun x : list Qc =>
              zip_with (fun w b => dot w x + b) (weight L) (bias L)).
  assert (Hrun : Linear_forward L t = Ok (map (map g) t)).
  { unfold Linear_forward. apply mapM_total.
    eapply Forall_impl; [exact Ht|]. intros r Hr. simpl.
    apply mapM_total. eapply Forall_impl; [exact Hr|].
    intros x Hx. simpl in Hx. unfold Linear_row.
    rewrite Hx, Nat.eqb_refl. reflexivity. }
  exists (map (map g) t). split; [exact Hrun|]. split.
  - eapply mapM2_same_bn. exact Hrun.
  - unfold has_width. apply Forall_map.
    apply Forall_forall. intros r _. apply Forall_map.
    apply Forall_forall. intros x _. simpl. subst g. simpl.
    rewrite length_zip_with. lia.
Qed.

(** The width [main] computes for the first linear layer is the width of
    the tensor the loops assemble: with amino-acid vectors of width 21,
    protein vectors of width 6 and structure vectors of width 8, whatever
    groups are enabled, every feature vector handed to the head has width
    [additional_feature_dim]. *)
Theorem assembled_width_is_feature_dim (args0 : Args) (batch : Batch)
    (t : tensor3) :
  same_bn (b_aa batch) (pro_feature batch) ->
  same_bn (pro_feature batch) (b_ss batch) ->
  has_width 21 (b_aa batch) ->
  has_width 6 (pro_feature batch) ->
  has_width 8 (b_ss batch) ->
  additional_features_of (set_use_additional_feature args0) batch
  = Ok (Some t) ->
  has_width (additional_feature_dim (set_use_additional_feature args0)) t.
Proof.
  intros Hap Hps Wa Wp Ws.
  assert (Has : same_bn (b_aa batch) (b_ss batch))
    by (eapply same_bn_trans; eassumption).
  unfold additional_features_of, additional_feature_dim,
    set_use_additional_feature. simpl.
  destruct (aa args0), (protein args0), (ss args0); simpl; intros H;
    try discriminate H.
  - rewrite (cat2_total _ _ Hps) in H. simpl in H.
    rewrite cat2_total in H
      by (eapply same_bn_trans; [exact Hap | apply same_bn_zip, Hps]).
    inversion H; subst.
    apply (has_width_cat 21 14); [exact Wa|].
    apply (has_width_cat 6 8); assumption.
  - rewrite (cat2_total _ _ Hap) in H. inversion H; subst.
    apply (has_width_cat 21 6); assumption.
  - rewrite (cat2_total _ _ Has) in H. inversion H; subst.
    apply (has_width_cat 21 8); assumption.
  - inversion H; subst. exact Wa.
  - rewrite (cat2_total _ _ Hps) in H. inversion H; subst.
    apply (has_width_cat 6 8); assumption.
  - inversion H; subst. exact Wp.
  - inversion H; subst. exact Ws.
Qed.

Section Model.
Variable Encoder : Type.
Variable calm_representations : Encoder -> list (list Z) -> tensor3.
Variable bert_last_hidden :
  Encoder -> list (list Z) -> list (list Z) -> list (list Z) -> tensor3.
Variable Rng : Type.
Variable encoder_hidden_size : Encoder -> nat.
Variable Linear_init : nat -> nat -> Rng -> Linear * Rng.

Abbreviation Model := (CodenBert Encoder).
Abbreviation model_forward :=
  (forward Encoder calm_representations bert_last_hidden).
Abbreviation model_encode :=
  (encode Encoder calm_representations bert_last_hidden).
Abbreviation CodenBert_init :=
  (CodenBert_init Encoder Rng encoder_hidden_size Linear_init).

(** [nn.Linear(i, o)] yields a layer of these sizes, whatever its
    initial values. *)
Definition Linear_init_sized : Prop :=
  forall i o rng,
    Linear_wf (fst (Linear_init i o rng))
    /\ in_features (fst (Linear_init i o rng)) = i
    /\ out_features (fst (Linear_init i o rng)) = o.

(** The layers that the constructor builds fit the forward pass with the
    features on: on an encoder output of the hidden size and a feature
    tensor of the declared width with the same batch and sequence axes,
    the freshly built head returns an output, with those axes and
    [num_labels] numbers per position. *)
Theorem fresh_head_accepts_features (bert_model : Encoder)
    (num_labels feature_dim : nat) (args : Args) (rng : Rng)
    (ids mask tt : list (list Z)) (af : tensor3) :
  Linear_init_sized ->
  use_additional_feature args = true ->
  let self := fst (CodenBert_init bert_model num_labels feature_dim args rng) in
  has_width (encoder_hidden_size bert_model) (model_encode self ids mask tt) ->
  has_width feature_dim af ->
  same_bn (model_encode self ids mask tt) af ->
  exists out,
    model_forward self ids mask tt (Some af) = Ok out
    /\ same_bn (model_encode self ids mask tt) out
    /\ has_width num_labels out.
Proof.
  intros Hinit Hon self Henc Haf Hbn.
  set (H := encoder_hidden_size bert_model) in *.
  destruct (Linear_init H num_labels rng) as [reg rng1] eqn:E1.
  destruct (Linear_init feature_dim H rng1) as [afl rng2] eqn:E2.
  destruct (Linear_init (H * 2) H rng2) as [dp rng3] eqn:E3.
  assert (Hself : self = mkCodenBert Encoder bert_model args (calm args) reg
                           afl dp).
  { subst self. unfold Orchestrator.CodenBert_init. fold H.
    rewrite E1, E2, E3. reflexivity. }
  destruct (Hinit H num_labels rng) as (Wreg & Ireg & Oreg).
  destruct (Hinit feature_dim H rng1) as (Wafl & Iafl & Oafl).
  destruct (Hinit (H * 2)%nat H rng2) as (Wdp & Idp & Odp).
  rewrite E1 in Wreg, Ireg, Oreg. rewrite E2 in Wafl, Iafl, Oafl.
  rewrite E3 in Wdp, Idp, Odp. simpl in *.
  clearbody self. subst self.
  set (seq := model_encode (mkCodenBert Encoder bert_model args (calm args)
                              reg afl dp) ids mask tt) in *.
  destruct (Linear_forward_total afl af Wafl) as (afo & R1 & B1 & W1);
    [rewrite Iafl; exact Haf|].
  assert (Bcat : same_bn seq afo) by (eapply same_bn_trans; eassumption).
  pose proof (cat2_total seq afo Bcat) as R2.
  destruct (Linear_forward_total dp (zip_with (zip_with app) seq afo) Wdp)
    as (fo & R3 & B3 & W3).
  { rewrite Idp. replace (H * 2)%nat with (H + H)%nat by lia.
    apply has_width_cat; [exact Henc|]. rewrite <- Oafl. exact W1. }
  destruct (Linear_forward_total reg (ReLU fo) Wreg) as (p & R4 & B4 & W4).
  { rewrite Ireg, <- Odp. apply has_width_ReLU, W3. }
  exists (ReLU p). split.
  - unfold forward. simpl. rewrite Hon. fold seq. rewrite R1. simpl.
    rewrite R2. simpl. rewrite R3. simpl. rewrite R4. reflexivity.
  - split.
    + eapply same_bn_trans; [apply (same_bn_zip app seq afo Bcat)|].
      eapply same_bn_trans; [exact B3|].
      eapply same_bn_trans; [apply ReLU_same_bn|].
      eapply same_bn_trans; [exact B4 | apply ReLU_same_bn].
    + rewrite <- Oreg. apply has_width_ReLU, W4.
Qed.

End Model.

End HeadExtras.

(** * Further properties of the checkpoint selector *)

Module SelectorExtras.
Import Selector ResProps SelectorProps.

(** The groups can be read back from the suffix. *)
Lemma feature_suffix_inj (a1 a2 : Args) :
  feature_suffix a1 +:+ ".csv" = feature_suffix a2 +:+ ".csv" ->
  aa a1 = aa a2 /\ protein a1 = protein a2 /\ ss a1 = ss a2.
Proof.
  unfold feature_suffix.
  destruct (aa a1), (protein a1), (ss a1), (aa a2), (protein a2), (ss a2);
    intros H; try discriminate H; repeat split.
Qed.

(** Two configurations with the same output directory and number of
    epochs write to the same training log, or to the same evaluation log,
    only if they enable the same feature groups. *)
Theorem log_file_identifies_groups (a1 a2 : Args) (epoch_max : Z) :
  output_dir a1 = output_dir a2 ->
  (train_log_path a1 epoch_max = train_log_path a2 epoch_max
   \/ eval_log_path a1 epoch_max = eval_log_path a2 epoch_max) ->
  aa a1 = aa a2 /\ protein a1 = protein a2 /\ ss a1 = ss a2.
Proof.
  intros Hdir H. unfold train_log_path, eval_log_path in H.
  rewrite !log_path_eq, Hdir in H.
  destruct H as [H|H];
    do 4 apply sapp_inj_l in H; apply feature_suffix_inj, H.
Qed.

Section Loop.
Variable St : Type.
Variable StateDict : Type.
Variable state_dict : St -> StateDict.
Variable train_epoch : St -> res (St * metrics).
Variable evaluate : St -> num -> res (St * metrics * bool).
Variable lr_scheduler_step : St -> St.

Abbreviation World := (World StateDict).
Abbreviation epoch_body :=
  (epoch_body St StateDict state_dict train_epoch evaluate lr_scheduler_step).
Abbreviation train_and_validate :=
  (train_and_validate St StateDict state_dict train_epoch evaluate
     lr_scheduler_step).

(** With a number of epochs that is not positive the loop body never runs:
    no pass is made, the world is left as it was, and the triple returned
    is the three sentinels. *)
Theorem no_epoch_returns_sentinels (model : St) (w : World) (num_epoch : Z)
    (save_path : string) (args : Args) (fold : Z) :
  (num_epoch <= 0)%Z ->
  train_and_validate model w num_epoch save_path args fold
  = Ok (model, w,
        (Fin (- Qc_of_Z 100000000), Fin (Qc_of_Z 100000000),
         Fin (- Qc_of_Z 100000000))).
Proof.
  intros H. unfold Selector.train_and_validate, Selector.run_epochs, epochs.
  replace (Z.to_nat num_epoch) with 0%nat by lia. reflexivity.
Qed.

Lemma eval_tags_sub (tr : Trackers) (em : metrics) (t : string) :
  In t (eval_tags tr em) -> t = "best_eval_loss" \/ t = "best".
Proof.
  unfold eval_tags. intros H. apply in_app_or in H as [H|H].
  - destruct (num_lt _ _); simpl in H; [|destruct H].
    destruct H as [<-|[]]. left. reflexivity.
  - destruct (num_gt _ _); simpl in H; [|destruct H].
    destruct H as [<-|[]]. right. reflexivity.
Qed.

(** After an epoch that completes, the file of tag [last] holds the
    parameters as the training pass and the step of the schedule left
    them, whatever it held before; when the evaluation R2 beat the running
    maximum, the file of tag [best] holds the parameters the evaluation
    returned; and no checkpoint other than the three files of this fold is
    written. *)
Theorem checkpoints_after_epoch (args : Args) (epoch_max : Z)
    (save_path : string) (fold : Z) (s : St) (w : World) (tr : Trackers)
    (epoch : Z) (s' : St) (w' : World) (tr' : Trackers) :
  epoch_body args epoch_max save_path fold (s, w, tr) epoch = Ok (s', w', tr') ->
  exists s1 m em plotted,
    train_epoch s = Ok (s1, m)
    /\ evaluate (lr_scheduler_step s1) (max_r2 tr) = Ok (s', em, plotted)
    /\ checkpoints w' !! checkpoint_path save_path "last"
       = Some (state_dict (lr_scheduler_step s1))
    /\ (num_gt (m_r2 em) (max_r2 tr) = true ->
        checkpoints w' !! checkpoint_path save_path "best"
        = Some (state_dict s'))
    /\ (forall path,
          path <> checkpoint_path save_path "last" ->
          path <> checkpoint_path save_path "best_eval_loss" ->
          path <> checkpoint_path save_path "best" ->
          checkpoints w' !! path = checkpoints w !! path).
Proof.
  intros H.
  apply epoch_body_spec in H
    as (s1 & m & em & pl & Ht & He & _ & _ & _ & Hc).
  destruct (tag_paths_differ save_path) as (D1 & D2 & D3).
  exists s1, m, em, pl. split; [exact Ht|]. split; [exact He|].
  rewrite Hc. split; [|split].
  - rewrite foldl_insert_other; [apply lookup_insert_eq|].
    intros t Hin E. apply eval_tags_sub in Hin as [-> | ->];
      [apply D2 | apply D1]; symmetry; exact E.
  - intros Hgt. unfold eval_tags. rewrite after_train_max_r2, Hgt.
    rewrite foldl_app. simpl. apply lookup_insert_eq.
  - intros path P1 P2 P3.
    rewrite foldl_insert_other.
    + apply lookup_insert_ne. intros E. apply P1. symmetry. exact E.
    + intros t Hin E. apply eval_tags_sub in Hin as [-> | ->];
        [apply P2 | apply P3]; symmetry; exact E.
Qed.

(** The checkpoint of tag [best] and the triple a fold reports come from
    one and the same evaluation: after a fold that completes, either no
    evaluation beat the sentinel, the triple is the three sentinels and the
    file is as it was before the fold, or the file holds the parameters
    that an evaluation returned and the triple is the R2, the MSE and the
    correlation of that evaluation. *)
Theorem best_checkpoint_matches_triple (model : St) (w : World)
    (num_epoch : Z) (save_path : string) (args : Args) (fold : Z)
    (model' : St) (w' : World) (best : num * num * num) :
  train_and_validate model w num_epoch save_path args fold
  = Ok (model', w', best) ->
  (best = (Fin (- sentinel), Fin sentinel, Fin (- sentinel))
   /\ checkpoints w' !! checkpoint_path save_path "best"
      = checkpoints w !! checkpoint_path save_path "best")
  \/ (exists s0 mx s em plotted,
        evaluate s0 mx = Ok (s, em, plotted)
        /\ checkpoints w' !! checkpoint_path save_path "best"
           = Some (state_dict s)
        /\ best = (m_r2 em, m_mse em, m_corr em)).
Proof.
  unfold Selector.train_and_validate. intros H.
  apply bind_ok in H as ([[s1 w1] tr] & Hrun & H).
  inversion H; subst; clear H.
  apply run_best in Hrun as [[T C]|H]; [left | right; exact H].
  split; [exact T | exact C].
Qed.

End Loop.
End SelectorExtras.

(** * Further properties of the fold orchestrator *)

Module OrchestratorExtras.
Import Tensor Loss Head Selector Orchestrator ResProps SelectorProps
  SelectorExtras OrchestratorProps.

Lemma folds_split (k : nat) :
  (k < 10)%nat ->
  folds = take k folds ++ Z.of_nat k :: drop (S k) folds.
Proof.
  intros H. do 10 (destruct k as [|k]; [reflexivity|]). lia.
Qed.

Section Main.
Variable Encoder : Type.
Variable calm_representations : Encoder -> list (list Z) -> tensor3.
Variable bert_last_hidden :
  Encoder -> list (list Z) -> list (list Z) -> list (list Z) -> tensor3.
Variable r2_score : list Qc -> list Qc -> res num.
Variable mean_squared_error : list Qc -> list Qc -> res num.
Variable pearsonr : list Qc -> list Qc -> res num.
Variable Optimizer : Type.
Variable optimizer_step :
  CodenBert Encoder -> Optimizer -> Batch -> option tensor3 ->
  CodenBert Encoder * Optimizer.
Variable Rng : Type.
Variable load_encoder : Args -> Encoder.
Variable encoder_hidden_size : Encoder -> nat.
Variable Linear_init : nat -> nat -> Rng -> Linear * Rng.
Variable AdamW : CodenBert Encoder -> Qc -> Optimizer.
Variable Scheduler : Type.
Variable CosineAnnealingLR : Optimizer -> Z -> Qc -> Scheduler.
Variable scheduler_step : Scheduler -> Optimizer -> Scheduler * Optimizer.
Variable Item : Type.
Variable GeneSequenceDataset : string -> res (list Item).
Variable collate : list Item -> Batch.
Variable shuffle : Rng -> list Item -> list Item * Rng.

Abbreviation Model := (CodenBert Encoder).
Abbreviation FoldState := (FoldState Encoder Optimizer Rng Scheduler).
Abbreviation DataLoader := (DataLoader Item).
Abbreviation fold_body :=
  (fold_body Encoder calm_representations bert_last_hidden r2_score
     mean_squared_error pearsonr Optimizer optimizer_step Rng load_encoder
     encoder_hidden_size Linear_init AdamW Scheduler CosineAnnealingLR
     scheduler_step Item GeneSequenceDataset collate shuffle).
Abbreviation main :=
  (main Encoder calm_representations bert_last_hidden r2_score
     mean_squared_error pearsonr Optimizer optimizer_step Rng load_encoder
     encoder_hidden_size Linear_init AdamW Scheduler CosineAnnealingLR
     scheduler_step Item GeneSequenceDataset collate shuffle).
Abbreviation train_pass :=
  (train_pass Encoder calm_representations bert_last_hidden r2_score
     mean_squared_error pearsonr Optimizer optimizer_step Rng Scheduler Item
     collate shuffle).
Abbreviation eval_pass :=
  (eval_pass Encoder calm_representations bert_last_hidden r2_score
     mean_squared_error pearsonr Optimizer Rng Scheduler Item collate shuffle).
Abbreviation schedule_pass :=
  (schedule_pass Encoder Optimizer Rng Scheduler scheduler_step).
Abbreviation fold_epoch_body args train_loader eval_loader :=
  (epoch_body FoldState Model (fs_model Encoder Optimizer Rng Scheduler)
     (train_pass args train_loader) (eval_pass args eval_loader)
     schedule_pass args).

Lemma main_raises_at (args0 : Args) (rng : Rng) (w : World Model)
    (k : nat) (st : Rng * World Model * Scores) (e : exn) :
  (k < 10)%nat ->
  foldM (fold_body (set_use_additional_feature args0))
    (rng, w, mkScores [] [] []) (take k folds) = Ok st ->
  fold_body (set_use_additional_feature args0) st (Z.of_nat k) = Raise e ->
  main args0 rng w = Raise e.
Proof.
  intros Hk Hpre Hfail. unfold Orchestrator.main.
  rewrite (folds_split k Hk), foldM_app, Hpre. simpl.
  rewrite Hfail. reflexivity.
Qed.

(** No fold is isolated from the others: when the folds before fold [k]
    complete and fold [k] raises, [main] raises the same exception, and
    the folds after it are not run. *)
Theorem fold_failure_aborts_run (args0 : Args) (rng : Rng) (w : World Model)
    (k : nat) (st : Rng * World Model * Scores) (e : exn) :
  (k < 10)%nat ->
  foldM (fold_body (set_use_additional_feature args0))
    (rng, w, mkScores [] [] []) (take k folds) = Ok st ->
  fold_body (set_use_additional_feature args0) st (Z.of_nat k) = Raise e ->
  main args0 rng w = Raise e.
Proof.
  intros Hk Hpre Hfail. unfold Orchestrator.main.
  rewrite (folds_split k Hk), foldM_app, Hpre. simpl.
  rewrite Hfail. reflexivity.
Qed.

(** Without [--do_train], or without [--do_eval], a run whose dataset
    files load ends in the first fold with a [TypeError], the length of a
    dataset that is [None] being asked for. *)
Theorem run_needs_both_datasets (args0 : Args) (rng : Rng) (w : World Model) :
  (do_train args0 = false \/ do_eval args0 = false) ->
  (forall path, is_ok (GeneSequenceDataset path) = true) ->
  main args0 rng w = Raise TypeError.
Proof.
  intros Hflag Hload.
  apply (main_raises_at args0 rng w 0 (rng, w, mkScores [] [] []));
    [lia | reflexivity |].
  unfold Orchestrator.fold_body, load_dataset, checked_len. simpl.
  destruct (CodenBert_init _ _ _ _ _ _ _ _ _) as [model rng1].
  destruct (do_train args0) eqn:Et, (do_eval args0) eqn:Ee; simpl;
    try (destruct Hflag as [Hf|Hf]; discriminate Hf);
    try match goal with
        | |- context [GeneSequenceDataset ?f] =>
            pose proof (Hload f) as Hok;
            destruct (GeneSequenceDataset f) as [ds|]; [|discriminate Hok]
        end;
    reflexivity.
Qed.

(** The evaluation pass draws the plot exactly when its R2 is above the
    maximum it was given. *)
Lemma eval_pass_plotted (args : Args) (dl : DataLoader) (st st' : FoldState)
    (max_r2 : num) (m : metrics) (plotted : bool) :
  eval_pass args dl st max_r2 = Ok (st', m, plotted) ->
  plotted = num_gt (m_r2 m) max_r2.
Proof.
  unfold Orchestrator.eval_pass. intros H.
  destruct (Orchestrator.iter_loader _ _ _ _ _ _) as [batches rng1].
  apply bind_ok in H as ([[l1 m1] pl] & He & H). inversion H; subst; clear H.
  unfold Epoch.evaluate in He.
  apply bind_ok in He as ([l2 acc] & _ & He).
  apply bind_ok in He as ([[r2 mse] corr] & _ & He).
  apply bind_ok in He as (a & _ & He). inversion He; subst. reflexivity.
Qed.

(** In every epoch of a fold that completes, the correlation plot is drawn
    exactly when the checkpoint of tag [best] is saved: both follow from
    the same comparison of the evaluation R2 with the running maximum. *)
Theorem plot_iff_best_saved (args : Args) (train_loader eval_loader : DataLoader)
    (epoch_max : Z) (save_path : string) (fold : Z) (st : FoldState)
    (w : World Model) (tr : Trackers) (epoch : Z) (st' : FoldState)
    (w' : World Model) (tr' : Trackers) :
  fold_epoch_body args train_loader eval_loader epoch_max save_path fold
    (st, w, tr) epoch
  = Ok (st', w', tr') ->
  exists new,
    trace w' = trace w ++ new
    /\ (In (EvPlot fold) new
        <-> In (EvSave (checkpoint_path save_path "best")) new).
Proof.
  intros H.
  apply epoch_body_spec in H
    as (s1 & m & em & pl & _ & He & _ & Htrace & _).
  apply eval_pass_plotted in He. subst pl.
  destruct (tag_paths_differ save_path) as (D1 & D2 & D3).
  eexists. split; [exact Htrace|].
  unfold epoch_events, eval_tags. rewrite after_train_max_r2.
  destruct (num_gt (m_r2 em) (max_r2 tr));
    destruct (num_lt (m_loss em) (best_eval_loss (after_train tr m)));
    simpl; split; intros Hin;
    first
      [ solve [auto 15]
      | exfalso;
        repeat (destruct Hin as [Hin|Hin];
                [first [discriminate Hin | injection Hin as Hin; congruence]|]);
        destruct Hin ].
Qed.

Lemma best_result_path_eq (args : Args) :
  best_result_path args
  = join_prefix (output_dir args)
    +:+ ("best_results" +:+ (feature_suffix args +:+ ".csv")).
Proof.
  unfold best_result_path.
  rewrite add_feature_suffix_eq, os_path_join_eq, !sapp_assoc. reflexivity.
Qed.

Lemma summary_is_no_log (args : Args) (epoch_max : Z) :
  best_result_path args <> train_log_path args epoch_max
  /\ best_result_path args <> eval_log_path args epoch_max.
Proof.
  unfold train_log_path, eval_log_path.
  rewrite best_result_path_eq, !log_path_eq.
  split; intros H; apply sapp_inj_l in H; discriminate H.
Qed.

Lemma run_files_other (args : Args) (epoch_max : Z) (es : list Z)
    (h : list (metrics * metrics * bool)) (f : gmap string (list row))
    (path : string) :
  path <> train_log_path args epoch_max ->
  path <> eval_log_path args epoch_max ->
  content (run_files args epoch_max f es h) path = content f path.
Proof.
  intros P1 P2. revert h f.
  induction es as [|e es IH]; intros [|r h] f; simpl; try reflexivity.
  rewrite IH.
  rewrite content_append_ne by (intros E; apply P2; symmetry; exact E).
  apply content_append_ne. intros E. apply P1. symmetry. exact E.
Qed.

(** The number of rows a file holds. *)
Definition rows_at (w : World Model) (path : string) : nat :=
  length (content (files w) path).

Lemma fold_body_rows (args : Args) (rng : Rng) (w : World Model) (sc : Scores)
    (i : Z) (rng' : Rng) (w' : World Model) (sc' : Scores) :
  fold_body args (rng, w, sc) i = Ok (rng', w', sc') ->
  let E := num_train_epochs args in
  rows_at w' (train_log_path args E)
  = (rows_at w (train_log_path args E) + Z.to_nat E)%nat
  /\ rows_at w' (eval_log_path args E)
     = (rows_at w (eval_log_path args E) + Z.to_nat E)%nat
  /\ rows_at w' (best_result_path args)
     = S (rows_at w (best_result_path args)).
Proof.
  intros H E. unfold Orchestrator.fold_body in H.
  destruct (CodenBert_init _ _ _ _ _ _ _ _ _) as [model rng1] eqn:Em.
  apply bind_ok in H as (train_o & _ & H).
  apply bind_ok in H as (test_o & _ & H).
  apply bind_ok in H as (train_ds & _ & H).
  apply bind_ok in H as (test_ds & _ & H).
  apply bind_ok in H as (train_loader & _ & H).
  apply bind_ok in H as (test_loader & _ & H).
  apply bind_ok in H as ([[fs w1] [[r2 mse] corr]] & Htv & H).
  inversion H; subst; clear H.
  unfold Selector.train_and_validate in Htv.
  apply bind_ok in Htv as ([[fs1 w2] tr] & Hrun & Hret).
  inversion Hret; subst; clear Hret.
  apply run_epochs_spec in Hrun as (h & _ & Hlen & _ & _ & Hf).
  rewrite length_epochs in Hlen. fold E in Hlen, Hf.
  destruct (summary_is_no_log args E) as [N1 N2].
  destruct (run_files_content args E (epochs E) h (files w)) as [C1 C2].
  unfold rows_at. simpl. simpl in Hf. rewrite Hf.
  fold (append_row (run_files args E (files w) (epochs E) h)
          (best_result_path args)
          [CInt (i + 1); CNum (max_r2 tr); CNum (min_mse tr);
           CNum (max_corr tr)]).
  rewrite !content_append_ne by assumption.
  rewrite content_append_eq, C1, C2, !length_app.
  rewrite (run_files_other args E (epochs E) h (files w)
             (best_result_path args) N1 N2).
  unfold train_rows, eval_rows.
  rewrite !length_zip_with, length_epochs. simpl. repeat split; lia.
Qed.

Lemma folds_rows (args : Args) (idx : list Z) (rng : Rng) (w : World Model)
    (sc : Scores) (rng' : Rng) (w' : World Model) (sc' : Scores) :
  foldM (fold_body args) (rng, w, sc) idx = Ok (rng', w', sc') ->
  let E := num_train_epochs args in
  rows_at w' (train_log_path args E)
  = (rows_at w (train_log_path args E) + length idx * Z.to_nat E)%nat
  /\ rows_at w' (eval_log_path args E)
     = (rows_at w (eval_log_path args E) + length idx * Z.to_nat E)%nat
  /\ rows_at w' (best_result_path args)
     = (rows_at w (best_result_path args) + length idx)%nat.
Proof.
  intros H E. revert rng w sc H.
  induction idx as [|i idx IH]; intros rng w sc H.
  - inversion H; subst. simpl. repeat split; lia.
  - simpl in H. apply bind_ok in H as ([[rng1 w1] sc1] & Hb & H).
    apply fold_body_rows in Hb as (B1 & B2 & B3).
    apply IH in H as (I1 & I2 & I3). fold E in B1, B2.
    rewrite I1, I2, I3, B1, B2, B3. simpl. repeat split; lia.
Qed.

(** A run that completes leaves, in the one training log and the one
    evaluation log that all its folds share, ten times as many new rows as
    there are epochs, and in the summary file ten new rows, after the rows
    these files held before the run. *)
Theorem run_appends_rows (args0 : Args) (rng : Rng) (w w' : World Model)
    (result : num * num * num) :
  main args0 rng w = Ok (w', result) ->
  let args := set_use_additional_feature args0 in
  let E := num_train_epochs args in
  rows_at w' (train_log_path args E)
  = (rows_at w (train_log_path args E) + 10 * Z.to_nat E)%nat
  /\ rows_at w' (eval_log_path args E)
     = (rows_at w (eval_log_path args E) + 10 * Z.to_nat E)%nat
  /\ rows_at w' (best_result_path args)
     = (rows_at w (best_result_path args) + 10)%nat.
Proof.
  intros H args E. unfold Orchestrator.main in H. fold args in H.
  apply bind_ok in H as ([[rng1 w1] sc] & Hfold & H).
  apply bind_ok in H as (a1 & _ & H).
  apply bind_ok in H as (a2 & _ & H).
  apply bind_ok in H as (a3 & _ & H).
  inversion H; subst; clear H.
  apply folds_rows in Hfold. exact Hfold.
Qed.

End Main.
End OrchestratorExtras.

(** * The checkpoint files of the folds *)

Module PathExtras.
Import Selector Orchestrator SelectorProps SelectorExtras.

Fixpoint slash_free (s : string) : Prop :=
  match s with
  | EmptyString => True
  | String c s' => c <> "/"%char /\ slash_free s'
  end.

Lemma pretty_N_char_no_slash (x : N) : pretty_N_char x <> "/"%char.
Proof. unfold pretty_N_char. repeat case_match; discriminate. Qed.

Lemma pretty_N_go_slash_free (x : N) (s : string) :
  slash_free s -> slash_free (pretty_N_go x s).
Proof.
  revert s. induction (N.lt_wf_0 x) as [x _ IH]. intros s Hs.
  destruct (decide (x = 0)%N) as [->|Hx]; [rewrite pretty_N_go_0; exact Hs|].
  rewrite pretty_N_go_step by lia.
  apply IH; [apply N.div_lt; lia|].
  simpl. split; [apply pretty_N_char_no_slash | exact Hs].
Qed.

Lemma pretty_N_go_nonempty (x : N) (s : string) :
  s <> "" -> pretty_N_go x s <> "".
Proof.
  revert s. induction (N.lt_wf_0 x) as [x _ IH]. intros s Hs.
  destruct (decide (x = 0)%N) as [->|Hx]; [rewrite pretty_N_go_0; exact Hs|].
  rewrite pretty_N_go_step by lia.
  apply IH; [apply N.div_lt; lia | discriminate].
Qed.

Lemma pretty_N_facts (x : N) : slash_free (pretty x) /\ pretty x <> "".
Proof.
  unfold pretty, pretty_N. destruct (decide (x = 0)%N) as [->|Hx].
  - split; [simpl; split; [discriminate | exact I] | discriminate].
  - split; [apply pretty_N_go_slash_free; exact I|].
    rewrite pretty_N_go_step by lia.
    apply pretty_N_go_nonempty. discriminate.
Qed.

Lemma pretty_Z_facts (z : Z) : slash_free (pretty z) /\ pretty z <> "".
Proof.
  destruct z as [|p|p]; unfold pretty, pretty_Z.
  - split; [simpl; split; [discriminate | exact I] | discriminate].
  - apply (pretty_N_facts (Npos p)).
  - destruct (pretty_N_facts (Npos p)) as [H1 H2].
    split; [|discriminate].
    change (slash_free (String "-" (pretty (Npos p)))).
    simpl. split; [discriminate | exact H1].
Qed.

Lemma sapp_slash_split (a b r r' : string) :
  slash_free a -> slash_free b ->
  a +:+ String "/" r = b +:+ String "/" r' -> a = b /\ r = r'.
Proof.
  revert b. induction a as [|c a IH]; intros [|c' b] Ha Hb H.
  - injection H as H. split; [reflexivity | exact H].
  - rewrite sapp_cons in H. injection H as Hc _. destruct Hb as [Hb _].
    exfalso. apply Hb. symmetry. exact Hc.
  - rewrite sapp_cons in H. injection H as Hc _. destruct Ha as [Ha _].
    exfalso. apply Ha. exact Hc.
  - rewrite !sapp_cons in H. injection H as Hc H.
    destruct Ha as [_ Ha]. destruct Hb as [_ Hb].
    destruct (IH b Ha Hb H) as [-> ->]. subst. split; reflexivity.
Qed.

Lemma slen_app (a b : string) :
  String.length (a +:+ b) = (String.length a + String.length b)%nat.
Proof.
  induction a as [|c a IH]; [reflexivity|].
  rewrite sapp_cons. simpl. rewrite IH. reflexivity.
Qed.

Lemma sapp_inj_r (a b c : string) : a +:+ c = b +:+ c -> a = b.
Proof.
  revert b. induction a as [|x a IH]; intros [|y b] H.
  - reflexivity.
  - apply (f_equal String.length) in H. rewrite !slen_app in H.
    simpl in H. lia.
  - apply (f_equal String.length) in H. rewrite !slen_app in H.
    simpl in H. lia.
  - rewrite !sapp_cons in H. injection H as -> H. f_equal. apply IH, H.
Qed.

Lemma ends_with_slash_app (a b : string) :
  b <> "" -> ends_with_slash (a +:+ b) = ends_with_slash b.
Proof.
  intros Hb. induction a as [|c a IH]; [reflexivity|].
  rewrite sapp_cons. simpl. rewrite IH.
  destruct (a +:+ b) eqn:E; [|reflexivity].
  destruct a; [|discriminate E]. exfalso. apply Hb. exact E.
Qed.

Lemma slash_free_no_end (b : string) :
  slash_free b -> ends_with_slash b = false.
Proof.
  induction b as [|c b IH]; [reflexivity|]. intros [Hc Hb].
  simpl. destruct b; [|apply IH, Hb].
  apply bool_decide_eq_false. exact Hc.
Qed.

(** The directory of fold [i], as a prefix of its files. *)
Lemma fold_dir_prefix (args : Args) (i : Z) :
  join_prefix (fold_save_path args i)
  = join_prefix (output_dir args)
    +:+ ("checkpoints/fold_" +:+ (pretty (i + 1)%Z +:+ "/")).
Proof.
  destruct (pretty_Z_facts (i + 1)) as [Hfree Hne].
  unfold fold_save_path. rewrite os_path_join_eq.
  rewrite <- !sapp_assoc.
  set (dir := (join_prefix (output_dir args) +:+ "checkpoints/fold_")
              +:+ pretty (i + 1)%Z).
  assert (Hend : ends_with_slash dir = false).
  { subst dir. rewrite ends_with_slash_app by exact Hne.
    apply slash_free_no_end, Hfree. }
  unfold join_prefix at 1. rewrite Hend.
  destruct dir eqn:Ed; [|reflexivity].
  exfalso. apply (f_equal String.length) in Ed. subst dir.
  rewrite slen_app in Ed. simpl in Ed.
  destruct (pretty (i + 1)%Z); [apply Hne; reflexivity | simpl in Ed; lia].
Qed.

(** No two checkpoints share a file: the file of a tag in the directory of
    one fold is the file of a tag in the directory of another only if the
    folds are the same and the tags are the same. *)
Theorem fold_checkpoints_disjoint (args : Args) (i j : Z) (t t' : string) :
  checkpoint_path (fold_save_path args i) t
  = checkpoint_path (fold_save_path args j) t' ->
  i = j /\ t = t'.
Proof.
  rewrite !checkpoint_path_eq, !fold_dir_prefix, !sapp_assoc. intros H.
  do 2 apply sapp_inj_l in H.
  destruct (pretty_Z_facts (i + 1)) as [Fi _].
  destruct (pretty_Z_facts (j + 1)) as [Fj _].
  apply sapp_slash_split in H as [Hp H]; [|assumption..].
  apply (inj pretty) in Hp. split; [lia|].
  apply sapp_inj_l in H. apply sapp_inj_r in H. exact H.
Qed.

End PathExtras.

(** * The further properties on concrete inputs *)

Module ExtraRuns.
Import Tensor Loss Head Epoch Selector Orchestrator Toy Examples Scripted.

(** Predictions that differ from [ex_pred] at the two masked positions. *)
Definition ex_pred_masked : tensor2 := [[1; Qc_of_Z 7]; [Qc_of_Z 5; Qc_of_Z 2]].

(** Predictions that equal [ex_label] at the two valid positions. *)
Definition ex_pred_exact : tensor2 := [[0; Qc_of_Z 5]; [Qc_of_Z 7; 0]].

Lemma ex_valid_01 : Forall (fun v : Qc => v = 0 \/ v = 1) (flatten ex_valid).
Proof.
  repeat (constructor; [first [left; reflexivity | right; reflexivity]|]).
  constructor.
Qed.

Lemma masked_loss_ignores_invalid_witness :
  MaskedHuberLoss_forward HuberLoss_init ex_pred ex_label ex_valid
  = MaskedHuberLoss_forward HuberLoss_init ex_pred_masked ex_label ex_valid.
Proof.
  apply (LossExtras.masked_loss_ignores_invalid HuberLoss_init ex_pred
           ex_pred_masked ex_label ex_valid);
    [repeat constructor | repeat constructor | repeat constructor |].
  intros i p p' v.
  do 4 (destruct i as [|i]; [simpl; intros; congruence|]).
  simpl. intros H. discriminate H.
Defined.

Lemma masked_loss_bounds_witness :
  exists q q1,
    MaskedHuberLoss_forward HuberLoss_init ex_pred ex_label ex_valid
    = Ok (Fin q, mkHuberLoss RNone 1)
    /\ HuberLoss_forward (mkHuberLoss RMean 1) ex_pred ex_label
       = Ok (OutScalar (Fin q1))
    /\ 0 <= q /\ q <= q1.
Proof.
  apply (LossExtras.masked_loss_bounds HuberLoss_init ex_pred ex_label ex_valid).
  - apply (bool_decide_unpack _). vm_compute. exact I.
  - repeat constructor.
  - repeat constructor.
  - exact ex_valid_01.
  - vm_compute. lia.
Defined.

Lemma masked_loss_zero_iff_witness :
  MaskedHuberLoss_forward HuberLoss_init ex_pred_exact ex_label ex_valid
  = Ok (Fin 0, mkHuberLoss RNone 1).
Proof.
  apply (LossExtras.masked_loss_zero_iff HuberLoss_init ex_pred_exact ex_label
           ex_valid).
  - apply (bool_decide_unpack _). vm_compute. exact I.
  - repeat constructor.
  - repeat constructor.
  - exact ex_valid_01.
  - vm_compute. lia.
  - assert (Hne : (0 : Qc) <> 1)
      by (apply (bool_decide_unpack _); vm_compute; exact I).
    intros i p l.
    do 4 (destruct i as [|i]; [simpl; intros; congruence|]).
    simpl. intros H. discriminate H.
Defined.

Lemma passes_need_a_batch_witness :
  toy_train_epoch toy_model [] tt HuberLoss_init
    (set_use_additional_feature toy_args)
  = Raise ZeroDivisionError
  /\ [toy_batch] <> [].
Proof.
  destruct (EpochExtras.passes_need_a_batch unit toy_calm toy_bert toy_r2
              toy_mse toy_pearsonr unit toy_step toy_model tt HuberLoss_init
              (set_use_additional_feature toy_args) NaN)
    as (H1 & _ & H3 & _).
  split; [exact H1|].
  assert (Hok : is_ok (toy_train_epoch toy_model [toy_batch] tt HuberLoss_init
                         (set_use_additional_feature toy_args)) = true)
    by (vm_compute; reflexivity).
  destruct (toy_train_epoch toy_model [toy_batch] tt HuberLoss_init
              (set_use_additional_feature toy_args))
    as [r|e] eqn:E; [|discriminate Hok].
  apply (H3 [toy_batch] r E).
Defined.

Abbreviation toy_eval_batch :=
  (eval_batch unit toy_calm toy_bert toy_model
     (set_use_additional_feature toy_args)).

Lemma pooled_sequences_aligned_witness :
  exists loss' acc',
    toy_eval_batch (HuberLoss_init, mkEvalAcc [] [] []) toy_batch
    = Ok (loss', acc')
    /\ length (preds acc') = 3%nat
    /\ length (trues acc') = 3%nat
    /\ length (e_loss_list acc') = 1%nat.
Proof.
  assert (Hok : is_ok (toy_eval_batch (HuberLoss_init, mkEvalAcc [] [] [])
                         toy_batch) = true)
    by (vm_compute; reflexivity).
  destruct (toy_eval_batch (HuberLoss_init, mkEvalAcc [] [] []) toy_batch)
    as [[loss' acc']|e] eqn:E; [|discriminate Hok].
  exists loss', acc'. split; [reflexivity|].
  apply (EpochExtras.pooled_sequences_aligned unit toy_calm toy_bert toy_model
           (set_use_additional_feature toy_args) HuberLoss_init loss'
           (mkEvalAcc [] [] []) acc' toy_batch E).
Defined.

(** One sequence of one position, with feature vectors of the widths of
    the data files. *)
Definition wide_batch : Batch :=
  mkBatch [[1%Z]] [[1%Z]] [[0%Z]] [[1]] [[1]]
          [[repeat 0 21]] [[repeat 1 6]] [[repeat 0 8]].

Lemma assembled_width_witness :
  exists t,
    additional_features_of (set_use_additional_feature toy_args_aa_ss) wide_batch
    = Ok (Some t)
    /\ HeadExtras.has_width 29 t.
Proof.
  eexists. split; [reflexivity|].
  apply (HeadExtras.assembled_width_is_feature_dim toy_args_aa_ss wide_batch);
    [repeat constructor.. | reflexivity].
Defined.

Lemma toy_Linear_init_sized : HeadExtras.Linear_init_sized unit toy_Linear_init.
Proof.
  intros i o rng. unfold toy_Linear_init, Linear_wf. simpl.
  rewrite !repeat_length. repeat split.
  apply Forall_forall. intros w Hw. apply list_elem_of_In, repeat_spec in Hw.
  subst w. apply repeat_length.
Qed.

(** The features of [toy_batch] with the two groups of [toy_args_aa_ss]. *)
Definition toy_features : tensor3 :=
  map (map (fun z => [Qc_of_Z z; 0; 0; Qc_of_Z z; 1])) (input_ids toy_batch).

Lemma fresh_head_witness :
  exists out,
    forward unit toy_calm toy_bert
      (fst (CodenBert_init unit unit (fun _ => 1%nat) toy_Linear_init tt 1 5
              (set_use_additional_feature toy_args_aa_ss) tt))
      (input_ids toy_batch) (attention_mask toy_batch)
      (token_type_ids toy_batch) (Some toy_features)
    = Ok out
    /\ HeadExtras.has_width 1 out.
Proof.
  destruct (HeadExtras.fresh_head_accepts_features unit toy_calm toy_bert unit
              (fun _ => 1%nat) toy_Linear_init tt 1 5
              (set_use_additional_feature toy_args_aa_ss) tt
              (input_ids toy_batch) (attention_mask toy_batch)
              (token_type_ids toy_batch) toy_features
              toy_Linear_init_sized eq_refl)
    as (out & Hout & _ & Hw); [repeat constructor..|].
  exists out. split; [exact Hout | exact Hw].
Defined.

Lemma log_file_identifies_groups_witness :
  train_log_path toy_args 2 = train_log_path ex_args 2
  /\ aa toy_args = aa ex_args /\ protein toy_args = protein ex_args
  /\ ss toy_args = ss ex_args.
Proof.
  split; [reflexivity|].
  apply (SelectorExtras.log_file_identifies_groups toy_args ex_args 2);
    [reflexivity | left; reflexivity].
Defined.

Lemma no_epoch_returns_sentinels_witness :
  scripted_train_and_validate script_train_first 0%nat empty_world 0
    "out/checkpoints/fold_1" ex_args 1
  = Ok (0%nat, empty_world,
        (Fin (- Qc_of_Z 100000000), Fin (Qc_of_Z 100000000),
         Fin (- Qc_of_Z 100000000))).
Proof.
  apply (SelectorExtras.no_epoch_returns_sentinels nat nat (fun n => n)
           (scripted_train script_train_first)
           (scripted_eval script_train_first) (fun n => n) 0%nat empty_world 0
           "out/checkpoints/fold_1" ex_args 1).
  lia.
Defined.

Lemma checkpoints_after_epoch_witness :
  exists s' w' tr',
    scripted_epoch_body script_train_first ex_args 2 "out/checkpoints/fold_1" 1
      (0%nat, empty_world, init_trackers) 1
    = Ok (s', w', tr')
    /\ checkpoints w' !! checkpoint_path "out/checkpoints/fold_1" "last"
       = Some 1%nat
    /\ checkpoints w' !! "out/checkpoints/fold_2/pytorch_model_Plast.pth"
       = None.
Proof.
  assert (Hok : is_ok (scripted_epoch_body script_train_first ex_args 2
              "out/checkpoints/fold_1" 1 (0%nat, empty_world, init_trackers) 1)
              = true)
    by (vm_compute; reflexivity).
  destruct (scripted_epoch_body script_train_first ex_args 2
              "out/checkpoints/fold_1" 1 (0%nat, empty_world, init_trackers) 1)
    as [[[s' w'] tr']|e] eqn:E; [|discriminate Hok].
  exists s', w', tr'. split; [reflexivity|].
  destruct (SelectorExtras.checkpoints_after_epoch nat nat (fun n => n)
              (scripted_train script_train_first)
              (scripted_eval script_train_first) (fun n => n)
              ex_args 2 "out/checkpoints/fold_1" 1 0%nat empty_world
              init_trackers 1 s' w' tr' E)
    as (s1 & m & em & pl & Ht & _ & Hlast & _ & Hother).
  vm_compute in Ht. injection Ht as <- <-.
  split; [exact Hlast|].
  rewrite Hother; [reflexivity | vm_compute; discriminate..].
Defined.

Lemma best_checkpoint_matches_triple_witness :
  exists s' w' best,
    scripted_train_and_validate script_train_first 0%nat empty_world 2
      "out/checkpoints/fold_1" ex_args 1
    = Ok (s', w', best)
    /\ ((best = (Fin (- sentinel), Fin sentinel, Fin (- sentinel))
         /\ checkpoints w' !! checkpoint_path "out/checkpoints/fold_1" "best"
            = checkpoints empty_world
              !! checkpoint_path "out/checkpoints/fold_1" "best")
        \/ (exists s0 mx s em plotted,
              scripted_eval script_train_first s0 mx = Ok (s, em, plotted)
              /\ checkpoints w' !! checkpoint_path "out/checkpoints/fold_1" "best"
                 = Some s
              /\ best = (m_r2 em, m_mse em, m_corr em))).
Proof.
  assert (Hok : is_ok (scripted_train_and_validate script_train_first 0%nat
                         empty_world 2 "out/checkpoints/fold_1" ex_args 1)
                = true)
    by (vm_compute; reflexivity).
  destruct (scripted_train_and_validate script_train_first 0%nat empty_world 2
              "out/checkpoints/fold_1" ex_args 1)
    as [[[s' w'] best]|e] eqn:E; [|discriminate Hok].
  exists s', w', best. split; [reflexivity|].
  exact (SelectorExtras.best_checkpoint_matches_triple nat nat (fun n => n)
           (scripted_train script_train_first)
           (scripted_eval script_train_first) (fun n => n) 0%nat empty_world 2
           "out/checkpoints/fold_1" ex_args 1 s' w' best E).
Defined.

Definition failing_dataset (_ : string) : res (list item) := Raise ValueError.

Abbreviation toy_main_on dataset args0 :=
  (main unit toy_calm toy_bert toy_r2 toy_mse toy_pearsonr unit toy_step
    unit (fun _ => tt) (fun _ => 1%nat) toy_Linear_init (fun _ _ => tt)
    unit (fun _ _ _ => tt) (fun s o => (s, o)) item dataset toy_collate
    toy_shuffle args0 tt toy_world).

Lemma fold_failure_aborts_run_witness :
  toy_main_on failing_dataset toy_args = Raise ValueError.
Proof.
  apply (OrchestratorExtras.fold_failure_aborts_run unit toy_calm toy_bert
           toy_r2 toy_mse toy_pearsonr unit toy_step unit (fun _ => tt)
           (fun _ => 1%nat) toy_Linear_init (fun _ _ => tt) unit
           (fun _ _ _ => tt) (fun s o => (s, o)) item failing_dataset
           toy_collate toy_shuffle toy_args tt toy_world 0
           (tt, toy_world, mkScores [] [] []) ValueError);
    [lia | reflexivity | vm_compute; reflexivity].
Defined.

Definition toy_args_eval_only : Args :=
  mkArgs "out" "data" 2 1 (Q2Qc (1 # 20000)) (Q2Qc (1 # 10000000))
         false false false false false true false.

Lemma run_needs_both_datasets_witness :
  toy_main toy_args_eval_only = Raise TypeError.
Proof.
  apply (OrchestratorExtras.run_needs_both_datasets unit toy_calm toy_bert
           toy_r2 toy_mse toy_pearsonr unit toy_step unit (fun _ => tt)
           (fun _ => 1%nat) toy_Linear_init (fun _ _ => tt) unit
           (fun _ _ _ => tt) (fun s o => (s, o)) item toy_dataset
           toy_collate toy_shuffle toy_args_eval_only tt toy_world);
    [left; reflexivity | intros path; reflexivity].
Defined.

Definition toy_fold_state : FoldState unit unit unit unit :=
  mkFoldState unit unit unit unit toy_model tt tt HuberLoss_init tt.

Abbreviation toy_fold_epoch_body :=
  (epoch_body (FoldState unit unit unit unit) (CodenBert unit)
     (fs_model unit unit unit unit)
     (train_pass unit toy_calm toy_bert toy_r2 toy_mse toy_pearsonr unit
        toy_step unit unit item toy_collate toy_shuffle
        (set_use_additional_feature toy_args)
        (mkDataLoader item toy_items 2 true))
     (eval_pass unit toy_calm toy_bert toy_r2 toy_mse toy_pearsonr unit
        unit unit item toy_collate toy_shuffle
        (set_use_additional_feature toy_args)
        (mkDataLoader item toy_items 1 false))
     (schedule_pass unit unit unit unit (fun s o => (s, o)))
     (set_use_additional_feature toy_args)).

Lemma plot_iff_best_saved_witness :
  exists st' w' tr',
    toy_fold_epoch_body 1 "out/checkpoints/fold_1" 1
      (toy_fold_state, toy_world, init_trackers) 1
    = Ok (st', w', tr')
    /\ exists new,
         trace w' = trace toy_world ++ new
         /\ (In (EvPlot 1) new
             <-> In (EvSave (checkpoint_path "out/checkpoints/fold_1" "best"))
                   new).
Proof.
  assert (Hok : is_ok (toy_fold_epoch_body 1 "out/checkpoints/fold_1" 1
                         (toy_fold_state, toy_world, init_trackers) 1) = true)
    by (vm_compute; reflexivity).
  destruct (toy_fold_epoch_body 1 "out/checkpoints/fold_1" 1
              (toy_fold_state, toy_world, init_trackers) 1)
    as [[[st' w'] tr']|e] eqn:E; [|discriminate Hok].
  exists st', w', tr'. split; [reflexivity|].
  apply (OrchestratorExtras.plot_iff_best_saved unit toy_calm toy_bert toy_r2
           toy_mse toy_pearsonr unit toy_step unit unit
           (fun s o => (s, o)) item toy_collate toy_shuffle
           (set_use_additional_feature toy_args)
           (mkDataLoader item toy_items 2 true)
           (mkDataLoader item toy_items 1 false)
           1 "out/checkpoints/fold_1" 1 toy_fold_state toy_world init_trackers
           1 st' w' tr' E).
Defined.

Lemma run_appends_rows_witness :
  exists w' result,
    toy_main toy_args = Ok (w', result)
    /\ OrchestratorExtras.rows_at unit w'
         (train_log_path (set_use_additional_feature toy_args) 1) = 10%nat
    /\ OrchestratorExtras.rows_at unit w'
         (eval_log_path (set_use_additional_feature toy_args) 1) = 10%nat
    /\ OrchestratorExtras.rows_at unit w'
         (best_result_path (set_use_additional_feature toy_args)) = 10%nat.
Proof.
  assert (Hok : is_ok (toy_main toy_args) = true) by (vm_compute; reflexivity).
  destruct (toy_main toy_args) as [[w' result]|e] eqn:E; [|discriminate Hok].
  exists w', result. split; [reflexivity|].
  destruct (OrchestratorExtras.run_appends_rows unit toy_calm toy_bert toy_r2
              toy_mse toy_pearsonr unit toy_step unit (fun _ => tt)
              (fun _ => 1%nat) toy_Linear_init (fun _ _ => tt) unit
              (fun _ _ _ => tt) (fun s o => (s, o)) item toy_dataset
              toy_collate toy_shuffle toy_args tt toy_world w' result E)
    as (H1 & H2 & H3).
  split; [exact H1|]. split; [exact H2 | exact H3].
Defined.

Lemma fold_checkpoints_disjoint_witness :
  checkpoint_path (fold_save_path toy_args 3) "best"
  = checkpoint_path (fold_save_path toy_args 3) "best"
  /\ 3%Z = 3%Z /\ "best" = "best".
Proof.
  split; [reflexivity|].
  apply (PathExtras.fold_checkpoints_disjoint toy_args 3 3 "best" "best").
  reflexivity.
Defined.

End ExtraRuns.
